(** * ATS-ProxyManager control plane: a shallow embedding in Rocq

    This development embeds the parts of the Go backend
    ([backend/internal/service], [backend/internal/repository]) that
    implement the configuration lifecycle, the compiler that produces
    [parent.config], [sni.yaml] and [ip_allow.yaml], the fingerprint, and the
    sidecar sync protocol ([Register], [GetConfig], [Ack]).

    Conventions.
    - Go strings are Rocq [string]s (a Go string is a byte sequence; an
      [ascii] is a byte).
    - Database tables are lists of rows; an [UPDATE ... WHERE] is a [map]
      over the rows.
    - Errors are the sentinel errors of [domain/errors.go]. *)

From Stdlib Require Import List String Ascii ZArith Lia Bool Arith.
From Stdlib Require Import Sorted Permutation.
Import ListNotations.
Open Scope string_scope.

(* ------------------------------------------------------------------ *)
(** ** Bytes and SHA-256 ([crypto/sha256]) *)

Module Sha256.
Open Scope Z_scope.

(** [[]byte(s)] of a Go string. *)
Definition bytes_of_string (s : string) : list Z :=
  map (fun c => Z.of_N (N_of_ascii c)) (list_ascii_of_string s).

Definition mask32 (x : Z) : Z := Z.land x (Z.ones 32).
Definition add32 (x y : Z) : Z := mask32 (x + y).
Definition rotr (x n : Z) : Z :=
  Z.lor (Z.shiftr x n) (mask32 (Z.shiftl x (32 - n))).
Definition not32 (x : Z) : Z := Z.lxor x (Z.ones 32).

Definition ch (x y z : Z) : Z := Z.lxor (Z.land x y) (Z.land (not32 x) z).
Definition maj (x y z : Z) : Z :=
  Z.lxor (Z.lxor (Z.land x y) (Z.land x z)) (Z.land y z).
Definition bsig0 (x : Z) : Z := Z.lxor (Z.lxor (rotr x 2) (rotr x 13)) (rotr x 22).
Definition bsig1 (x : Z) : Z := Z.lxor (Z.lxor (rotr x 6) (rotr x 11)) (rotr x 25).
Definition ssig0 (x : Z) : Z := Z.lxor (Z.lxor (rotr x 7) (rotr x 18)) (Z.shiftr x 3).
Definition ssig1 (x : Z) : Z := Z.lxor (Z.lxor (rotr x 17) (rotr x 19)) (Z.shiftr x 10).

(** The round constants [_K] of crypto/sha256, in decimal. *)
Definition K : list Z :=
  [1116352408; 1899447441; 3049323471; 3921009573; 961987163; 1508970993;
   2453635748; 2870763221; 3624381080; 310598401; 607225278; 1426881987;
   1925078388; 2162078206; 2614888103; 3248222580; 3835390401; 4022224774;
   264347078; 604807628; 770255983; 1249150122; 1555081692; 1996064986;
   2554220882; 2821834349; 2952996808; 3210313671; 3336571891; 3584528711;
   113926993; 338241895; 666307205; 773529912; 1294757372; 1396182291;
   1695183700; 1986661051; 2177026350; 2456956037; 2730485921; 2820302411;
   3259730800; 3345764771; 3516065817; 3600352804; 4094571909; 275423344;
   430227734; 506948616; 659060556; 883997877; 958139571; 1322822218;
   1537002063; 1747873779; 1955562222; 2024104815; 2227730452; 2361852424;
   2428436474; 2756734187; 3204031479; 3329325298].

(** The initial hash value [init0..init7] of crypto/sha256, in decimal. *)
Definition H0 : list Z :=
  [1779033703; 3144134277; 1013904242; 2773480762;
   1359893119; 2600822924; 528734635; 1541459225].

(** Big-endian 64-bit length, as [d.Write] pads the last block. *)
Definition be_bytes (n : nat) (x : Z) : list Z :=
  map (fun i => Z.land (Z.shiftr x (8 * Z.of_nat (n - 1 - i))) 255) (seq 0 n).

Definition pad (msg : list Z) : list Z :=
  let len := Z.of_nat (List.length msg) in
  let zeros := Z.to_nat ((55 - len) mod 64) in
  (msg ++ [0x80] ++ repeat 0 zeros ++ be_bytes 8 (8 * len))%list.

Definition word_of (b : list Z) : Z :=
  fold_left (fun acc x => Z.lor (Z.shiftl acc 8) x) b 0.

Fixpoint words (fuel : nat) (b : list Z) : list Z :=
  match fuel with
  | O => []
  | S f => match b with
           | [] => []
           | _ => word_of (firstn 4 b) :: words f (skipn 4 b)
           end
  end.

(** Message schedule W_0 .. W_63 (kept reversed while it grows). *)
Fixpoint schedule_rev (n : nat) (w : list Z) : list Z :=
  match n with
  | O => w
  | S n' =>
      let wt := add32 (add32 (ssig1 (nth 1 w 0)) (nth 6 w 0))
                      (add32 (ssig0 (nth 14 w 0)) (nth 15 w 0)) in
      schedule_rev n' (wt :: w)
  end.

Definition schedule (block : list Z) : list Z :=
  rev (schedule_rev 48 (rev (words 16 block))).

Definition round (st : list Z) (kw : Z * Z) : list Z :=
  match st with
  | [a; b; c; d; e; f; g; h] =>
      let t1 := add32 (add32 (add32 h (bsig1 e)) (add32 (ch e f g) (fst kw))) (snd kw) in
      let t2 := add32 (bsig0 a) (maj a b c) in
      [add32 t1 t2; a; b; c; add32 d t1; e; f; g]
  | _ => st
  end.

Definition compress (hs : list Z) (block : list Z) : list Z :=
  let st := fold_left round (combine K (schedule block)) hs in
  map (fun p => add32 (fst p) (snd p)) (combine hs st).

Fixpoint blocks (fuel : nat) (b : list Z) : list (list Z) :=
  match fuel with
  | O => []
  | S f => match b with
           | [] => []
           | _ => firstn 64 b :: blocks f (skipn 64 b)
           end
  end.

(** [sha256.Sum256] as a list of 32 bytes. *)
Definition sum256 (msg : list Z) : list Z :=
  let p := pad msg in
  let hs := fold_left compress (blocks (List.length p) p) H0 in
  flat_map (be_bytes 4) hs.

End Sha256.

(** ** [encoding/hex] *)

Definition hextable : string := "0123456789abcdef".

(** [hex.EncodeToString]: two lowercase hex digits per byte. *)
Definition hexdigit (n : Z) : ascii :=
  match get (Z.to_nat n) hextable with Some c => c | None => "0"%char end.

Definition hex_encode (b : list Z) : string :=
  string_of_list_ascii
    (flat_map (fun x => [hexdigit (Z.shiftr x 4); hexdigit (Z.land x 15)]) b).

(* ------------------------------------------------------------------ *)
(** ** The parts of Go's [net] and [net/netip] the backend calls

    [net.ParseIP], [net.ParseCIDR], [net.CIDRMask], [IP.Mask], [IP.To4]
    and [IP.String] for IPv4 results, transcribed from the Go standard
    library ([netip.ParseAddr], [parseIPv4Fields], [parseIPv6], [dtoi]).
    Addresses are byte lists: 4 bytes for IPv4, 16 bytes for IPv6. *)

Module GoNet.
Local Open Scope Z_scope.

Definition code (c : ascii) : Z := Z.of_nat (nat_of_ascii c).
Definition is_digit (c : ascii) : bool := (48 <=? code c) && (code c <=? 57).
Definition char_eqb (c d : ascii) : bool := Ascii.eqb c d.

Definition hex_val (c : ascii) : option Z :=
  let n := code c in
  if (48 <=? n) && (n <=? 57) then Some (n - 48)
  else if (97 <=? n) && (n <=? 102) then Some (n - 87)
  else if (65 <=? n) && (n <=? 70) then Some (n - 55)
  else None.

(** [parseIPv4Fields]: the loop over the characters, with [val], [pos]
    (the number of fields already stored), [digLen] and the previous
    character. *)
Fixpoint ipv4_fields_loop (s : list ascii) (prev : option ascii)
    (val digLen : Z) (fields : list Z) : option (list Z) :=
  match s with
  | [] => if (List.length fields <? 3)%nat then None else Some (fields ++ [val])%list
  | c :: rest =>
      if is_digit c then
        if (digLen =? 1) && (val =? 0) then None
        else
          let val' := val * 10 + (code c - 48) in
          if 255 <? val' then None
          else ipv4_fields_loop rest (Some c) val' (digLen + 1) fields
      else if char_eqb c "." then
        match prev, rest with
        | None, _ => None
        | _, [] => None
        | Some p, _ =>
            if char_eqb p "." then None
            else if (List.length fields =? 3)%nat then None
            else ipv4_fields_loop rest (Some c) 0 0 (fields ++ [val])%list
        end
      else None
  end.

Definition parse_ipv4_fields (s : list ascii) : option (list Z) :=
  ipv4_fields_loop s None 0 0 [].

(** The hex group of [parseIPv6]: returns [acc], [off] and the rest. *)
Fixpoint hex_group (s : list ascii) (off acc : Z) : option (Z * Z * list ascii) :=
  match s with
  | [] => Some (acc, off, [])
  | c :: rest =>
      match hex_val c with
      | None => Some (acc, off, s)
      | Some v =>
          let acc' := acc * 16 + v in
          if 3 <? off then None
          else if 65535 <? acc' then None
          else hex_group rest (off + 1) acc'
      end
  end.

(** The main loop of [parseIPv6]; [ip] holds the bytes written so far,
    so that [i = length ip].  Returns the unconsumed input, the bytes and
    the ellipsis position. *)
Fixpoint ipv6_loop (fuel : nat) (s : list ascii) (ip : list Z) (ellipsis : Z)
    : option (list ascii * list Z * Z) :=
  match fuel with
  | O => None
  | S f =>
      let i := Z.of_nat (List.length ip) in
      if 16 <=? i then Some (s, ip, ellipsis)
      else
        match hex_group s 0 0 with
        | None => None
        | Some (acc, off, rest) =>
            if off =? 0 then None
            else
              match rest with
              | c :: _ =>
                  if char_eqb c "." then
                    if (ellipsis <? 0) && negb (i =? 12) then None
                    else if 16 <? i + 4 then None
                    else match parse_ipv4_fields s with
                         | None => None
                         | Some f4 => Some ([], (ip ++ f4)%list, ellipsis)
                         end
                  else
                    let ip' := (ip ++ [acc / 256; acc mod 256])%list in
                    if negb (char_eqb c ":") then None
                    else
                      match tl rest with
                      | [] => None
                      | d :: rest'' =>
                          if char_eqb d ":" then
                            if 0 <=? ellipsis then None
                            else match rest'' with
                                 | [] => Some ([], ip', Z.of_nat (List.length ip'))
                                 | _ => ipv6_loop f rest'' ip' (Z.of_nat (List.length ip'))
                                 end
                          else ipv6_loop f (tl rest) ip' ellipsis
                      end
              | [] => Some ([], (ip ++ [acc / 256; acc mod 256])%list, ellipsis)
              end
        end
  end.

(** Everything before the first occurrence of [c], and the rest after it. *)
Fixpoint cut (c : ascii) (s : list ascii) : option (list ascii * list ascii) :=
  match s with
  | [] => None
  | d :: rest =>
      if char_eqb d c then Some ([], rest)
      else match cut c rest with
           | Some (a, b) => Some (d :: a, b)
           | None => None
           end
  end.

(** [parseIPv6] without its zone: the 16 bytes of the address. *)
Definition parse_ipv6_body (s : list ascii) : option (list Z) :=
  let '(s0, ell0) :=
    match s with
    | c :: d :: rest =>
        if char_eqb c ":" && char_eqb d ":" then (rest, 0) else (s, -1)
    | _ => (s, -1)
    end in
  if (ell0 =? 0) && (List.length s0 =? 0)%nat then Some (repeat 0 16)
  else
    match ipv6_loop 17 s0 [] ell0 with
    | None => None
    | Some (rest, ip, ell) =>
        match rest with
        | _ :: _ => None
        | [] =>
            let i := Z.of_nat (List.length ip) in
            if i <? 16 then
              if ell <? 0 then None
              else Some (firstn (Z.to_nat ell) ip ++ repeat 0 (Z.to_nat (16 - i))
                         ++ skipn (Z.to_nat ell) ip)%list
            else if 0 <=? ell then None
            else Some ip
        end
    end.

(** A parsed [netip.Addr]. *)
Inductive Addr :=
| Addr4 (b : list Z)
| Addr6 (b : list Z) (zone : list ascii).

Definition parse_ipv6 (s : list ascii) : option Addr :=
  match cut "%" s with
  | Some (body, zone) =>
      match zone with
      | [] => None
      | _ => option_map (fun b => Addr6 b zone) (parse_ipv6_body body)
      end
  | None => option_map (fun b => Addr6 b []) (parse_ipv6_body s)
  end.

(** [netip.ParseAddr]: the first of ['.'], [':'] or ['%'] decides. *)
Fixpoint parse_addr_dispatch (all s : list ascii) : option Addr :=
  match s with
  | [] => None
  | c :: rest =>
      if char_eqb c "." then option_map Addr4 (parse_ipv4_fields all)
      else if char_eqb c ":" then parse_ipv6 all
      else if char_eqb c "%" then None
      else parse_addr_dispatch all rest
  end.

Definition parse_addr (s : list ascii) : option Addr := parse_addr_dispatch s s.

Definition v4InV6Prefix : list Z := [0;0;0;0;0;0;0;0;0;0;255;255].

(** [Addr.As16]. *)
Definition as16 (a : Addr) : list Z :=
  match a with
  | Addr4 b => (v4InV6Prefix ++ b)%list
  | Addr6 b _ => b
  end.

Definition bit_len (a : Addr) : Z :=
  match a with Addr4 _ => 32 | Addr6 _ _ => 128 end.

(** [net.ParseIP]: [nil] on error or when a zone is present. *)
Definition ParseIP (s : string) : option (list Z) :=
  match parse_addr (list_ascii_of_string s) with
  | Some (Addr6 _ (_ :: _)) => None
  | Some a => Some (as16 a)
  | None => None
  end.

(** [dtoi] (with [big = 0xFFFFFF]): value and number of digits read. *)
Fixpoint dtoi_loop (s : list ascii) (n i : Z) : Z * Z * bool :=
  match s with
  | c :: rest =>
      if is_digit c then
        let n' := n * 10 + (code c - 48) in
        if 16777215 <=? n' then (16777215, i, false)
        else dtoi_loop rest n' (i + 1)
      else (n, i, negb (i =? 0))
  | [] => (n, i, negb (i =? 0))
  end.

(** [net.CIDRMask]. *)
Fixpoint cidr_mask_bytes (l : nat) (n : Z) : list Z :=
  match l with
  | O => []
  | S l' =>
      if 8 <=? n then 255 :: cidr_mask_bytes l' (n - 8)
      else Z.lxor 255 (Z.shiftr 255 n) :: cidr_mask_bytes l' 0
  end.

Definition CIDRMask (ones bits : Z) : list Z :=
  cidr_mask_bytes (Z.to_nat (bits / 8)) ones.

Definition all_ff (b : list Z) : bool := forallb (fun x => x =? 255) b.
Definition list_Z_eqb (a b : list Z) : bool :=
  (List.length a =? List.length b)%nat && forallb (fun p => fst p =? snd p) (combine a b).

(** [IP.Mask]. *)
Definition ip_mask (ip mask : list Z) : option (list Z) :=
  let mask := if (List.length mask =? 16)%nat && (List.length ip =? 4)%nat
                 && all_ff (firstn 12 mask) then skipn 12 mask else mask in
  let ip := if (List.length mask =? 4)%nat && (List.length ip =? 16)%nat
               && list_Z_eqb (firstn 12 ip) v4InV6Prefix then skipn 12 ip else ip in
  if negb (List.length ip =? List.length mask)%nat then None
  else Some (map (fun p => Z.land (fst p) (snd p)) (combine ip mask)).

(** [net.IPNet]. *)
Record IPNet := { net_ip : list Z; net_mask : list Z }.

(** [net.ParseCIDR]; [ipnet.IP] of a well-formed input is never [nil]. *)
Definition ParseCIDR (s : string) : option (list Z * IPNet) :=
  match cut "/" (list_ascii_of_string s) with
  | None => None
  | Some (addr, mask) =>
      match parse_addr addr with
      | None => None
      | Some (Addr6 _ (_ :: _)) => None
      | Some a =>
          let '(n, i, ok) := dtoi_loop mask 0 0 in
          if negb ok || negb (i =? Z.of_nat (List.length mask)) || (n <? 0)
             || (bit_len a <? n) then None
          else
            let m := CIDRMask n (bit_len a) in
            match ip_mask (as16 a) m with
            | Some nip => Some (as16 a, {| net_ip := nip; net_mask := m |})
            | None => None
            end
      end
  end.

(** [IP.To4]. *)
Definition To4 (ip : list Z) : option (list Z) :=
  if (List.length ip =? 4)%nat then Some ip
  else if (List.length ip =? 16)%nat && forallb (fun x => x =? 0) (firstn 10 ip)
          && (nth 10 ip 0 =? 255) && (nth 11 ip 0 =? 255)
  then Some (skipn 12 ip)
  else None.

(** Decimal rendering of a byte ([itoa]). *)
Definition digit_char (d : Z) : ascii := ascii_of_nat (Z.to_nat (48 + d)).

Definition dec_byte (x : Z) : list ascii :=
  if x <? 10 then [digit_char x]
  else if x <? 100 then [digit_char (x / 10); digit_char (x mod 10)]
  else [digit_char (x / 100); digit_char ((x / 10) mod 10); digit_char (x mod 10)].

(** [IP.String] of a 4-byte address. *)
Definition ipv4_string (b : list Z) : list ascii :=
  match b with
  | [a; b; c; d] => (dec_byte a ++ "."%char :: dec_byte b ++ "."%char :: dec_byte c
                    ++ "."%char :: dec_byte d)%list
  | _ => []
  end.

End GoNet.

(** ** [cidrToRange] (config_service.go) *)

Definition cidrToRange (cidr : string) : string :=
  match GoNet.ParseCIDR cidr with
  | None => cidr
  | Some (_, ipnet) =>
      match GoNet.To4 (GoNet.net_ip ipnet) with
      | None => cidr
      | Some start =>
          let mask := GoNet.net_mask ipnet in
          let end_ := map (fun p => Z.lor (fst p) (Z.lxor (snd p) 255)) (combine start mask) in
          string_of_list_ascii (GoNet.ipv4_string start ++ "-"%char :: GoNet.ipv4_string end_)%list
      end
  end.

(* ------------------------------------------------------------------ *)
(** ** Rules and actions ([domain] package) *)

Definition ActionDirect : string := "direct".
Definition ActionParent : string := "parent".

(** Modelled from the spec: [domain.ACLAllow] and [domain.ACLDeny], the
    client-ACL actions [allow | deny] (their declaration is not under src/;
    the migration's column default is ['allow']). *)
Definition ACLAllow : string := "allow".
Definition ACLDeny : string := "deny".

Record DomainRule := { dr_domain : string; dr_action : string; dr_priority : Z }.
Record IPRangeRule := { ir_cidr : string; ir_action : string; ir_priority : Z }.
Record ParentProxy :=
  { pp_address : string; pp_port : Z; pp_priority : Z; pp_enabled : bool }.
Record ClientACLRule := { acl_cidr : string; acl_action : string; acl_priority : Z }.

(** ** [sort.Slice] with [less i j := x[i].Priority < x[j].Priority]

    The compiler is parametric in the sorting routine; [sort.Slice]
    promises a permutation of its input that is ordered for [less], and
    nothing about the order of equal elements. *)
Definition SortSlice := forall A : Type, (A -> Z) -> list A -> list A.

Definition sort_slice_contract (sort : SortSlice) : Prop :=
  forall (A : Type) (key : A -> Z) (l : list A),
    Permutation (sort A key l) l /\
    Sorted (fun a b => (key a <= key b)%Z) (sort A key l).

(** [insertionSortLessFunc], which [pdqsort_func] runs on slices of at
    most 12 elements: element [i] moves left while it is [less] than its
    left neighbour. *)
Fixpoint insert_less {A} (key : A -> Z) (x : A) (l : list A) : list A :=
  match l with
  | [] => [x]
  | y :: t => if (key x <? key y)%Z then x :: y :: t else y :: insert_less key x t
  end.

Definition insertion_sort : SortSlice :=
  fun A key l => fold_left (fun acc x => insert_less key x acc) l [].

(** ** Go formatting helpers *)

Definition nl : string := String "010" EmptyString.

Fixpoint dec_digits (fuel : nat) (n : Z) (acc : list ascii) : list ascii :=
  match fuel with
  | O => acc
  | S f =>
      let acc' := GoNet.digit_char (n mod 10) :: acc in
      if (n <? 10)%Z then acc' else dec_digits f (n / 10) acc'
  end.

(** [%d] of a Go [int] (64 bits, so 64 digits of fuel are plenty). *)
Definition itoa (n : Z) : string :=
  string_of_list_ascii
    (if (n <? 0)%Z then "-"%char :: dec_digits 64 (- n) [] else dec_digits 64 n []).

Definition prefixb (p s : string) : bool := String.prefix p s.

(** [strings.Join]. *)
Definition join (sep : string) (l : list string) : string := String.concat sep l.

(* ------------------------------------------------------------------ *)
(** ** The compiler (config_service.go) *)

Definition domainToATS (d : string) : string :=
  if prefixb "*." d then substring 1 (String.length d - 1) d else d.

Definition domainToSNI (d : string) : string :=
  if prefixb "." d then "*" ++ d else d.

Definition parent_list (enabled : list ParentProxy) : string :=
  join ";" (map (fun pp => pp_address pp ++ ":" ++ itoa (pp_port pp)) enabled).

Definition infrastructure_rules : string :=
  "# Localhost" ++ nl ++
  "dest_ip=127.0.0.0-127.255.255.255 go_direct=true" ++ nl ++
  "# Link-local" ++ nl ++
  "dest_ip=169.254.0.0-169.254.255.255 go_direct=true" ++ nl ++
  "# Kubernetes" ++ nl ++
  "dest_domain=.svc.cluster.local go_direct=true" ++ nl ++
  "dest_domain=.cluster.local go_direct=true" ++ nl ++
  "dest_domain=localhost go_direct=true" ++ nl ++
  nl.

Definition dq : string := String "034" EmptyString.

(** The line written for one IP-range rule, if any. *)
Definition ip_range_line (parentStr : string) (ir : IPRangeRule) : option string :=
  let ipRange := cidrToRange (ir_cidr ir) in
  if String.eqb (ir_action ir) ActionDirect then
    Some ("dest_ip=" ++ ipRange ++ " go_direct=true" ++ nl)
  else if String.eqb (ir_action ir) ActionParent && negb (String.eqb parentStr "") then
    Some ("dest_ip=" ++ ipRange ++ " parent=" ++ dq ++ parentStr ++ dq
          ++ " round_robin=strict go_direct=false" ++ nl)
  else None.

(** The line written for one domain rule, if any. *)
Definition domain_line (parentStr : string) (dr : DomainRule) : option string :=
  let atsDomain := domainToATS (dr_domain dr) in
  if String.eqb (dr_action dr) ActionDirect then
    Some ("dest_domain=" ++ atsDomain ++ " go_direct=true" ++ nl)
  else if String.eqb (dr_action dr) ActionParent && negb (String.eqb parentStr "") then
    Some ("dest_domain=" ++ atsDomain ++ " parent=" ++ dq ++ parentStr ++ dq
          ++ " round_robin=strict go_direct=false" ++ nl)
  else None.

(** A [for] loop that writes [line x] into the builder when there is one. *)
Definition write_lines {A} (line : A -> option string) (l : list A) : string :=
  fold_right (fun x acc => match line x with Some s => s ++ acc | None => acc end) "" l.

Definition default_rule (defaultAction parentStr : string) : string :=
  if String.eqb defaultAction ActionParent && negb (String.eqb parentStr "") then
    "dest_domain=. parent=" ++ dq ++ parentStr ++ dq ++ " round_robin=strict go_direct=false" ++ nl
  else "dest_domain=. go_direct=true" ++ nl.

(** [generateParentConfig]. It sorts its three slices in place; the
    sorted [domainRules] slice is returned too, since the caller passes the
    same slice on to [generateSNIYaml]. *)
Definition generateParentConfig_inplace (sort : SortSlice)
    (ipRanges : list IPRangeRule) (domainRules : list DomainRule)
    (parentProxies : list ParentProxy) (defaultAction : string)
    : string * list DomainRule :=
  let ipRanges := sort _ ir_priority ipRanges in
  let domainRules := sort _ dr_priority domainRules in
  let parentProxies := sort _ pp_priority parentProxies in
  let enabled := filter pp_enabled parentProxies in
  let parentStr := parent_list enabled in
  (infrastructure_rules
   ++ write_lines (ip_range_line parentStr) ipRanges
   ++ write_lines (domain_line parentStr) domainRules
   ++ default_rule defaultAction parentStr,
   domainRules).

Definition generateParentConfig sort ipRanges domainRules parentProxies defaultAction :=
  fst (generateParentConfig_inplace sort ipRanges domainRules parentProxies defaultAction).

(** [generateSNIYaml]. *)
Definition generateSNIYaml (sort : SortSlice) (domainRules : list DomainRule) : string :=
  "sni:" ++ nl ++
  write_lines (fun dr =>
      if String.eqb (dr_action dr) ActionDirect then
        Some ("  - fqdn: '" ++ domainToSNI (dr_domain dr) ++ "'" ++ nl
              ++ "    tunnel_route: direct" ++ nl)
      else None)
    (sort _ dr_priority domainRules).

Definition acl_entry (r : ClientACLRule) : string :=
  let atsAction := if String.eqb (acl_action r) ACLDeny then "set_deny" else "set_allow" in
  "  - apply: in" ++ nl ++ "    ip_addrs: " ++ acl_cidr r ++ nl ++
  "    action: " ++ atsAction ++ nl ++ "    methods: ALL" ++ nl.

Definition deny_all_entries : string :=
  "  - apply: in" ++ nl ++ "    ip_addrs: 0/0" ++ nl ++ "    action: set_deny" ++ nl
  ++ "    methods: ALL" ++ nl ++
  "  - apply: in" ++ nl ++ "    ip_addrs: ::/0" ++ nl ++ "    action: set_deny" ++ nl
  ++ "    methods: ALL" ++ nl.

(** [generateIPAllowYaml]. *)
Definition generateIPAllowYaml (sort : SortSlice) (rules : list ClientACLRule) : string :=
  "ip_allow:" ++ nl ++
  String.concat "" (map acl_entry (sort _ acl_priority rules)) ++
  deny_all_entries.

(** The rule rows of one configuration, in the order the repository's
    [ListByConfig] queries return them. *)
Record ConfigRules := {
  r_domains : list DomainRule;
  r_ip_ranges : list IPRangeRule;
  r_parents : list ParentProxy;
  r_client_acl : list ClientACLRule;
  r_default_action : string }.

(** [GenerateConfigFiles] (the reads that succeed). *)
Definition GenerateConfigFiles (sort : SortSlice) (rs : ConfigRules)
    : string * string * string :=
  let '(parentConfig, domains) :=
    generateParentConfig_inplace sort (r_ip_ranges rs) (r_domains rs) (r_parents rs)
      (r_default_action rs) in
  let sniYaml := generateSNIYaml sort domains in
  let ipAllowYaml := generateIPAllowYaml sort (r_client_acl rs) in
  (parentConfig, sniYaml, ipAllowYaml).

(** The bytes [GenerateConfigHash] writes into the hash, in order. *)
Definition hash_input (parentConfig sniYaml ipAllowYaml : string) : list Z :=
  (Sha256.bytes_of_string parentConfig ++ Sha256.bytes_of_string sniYaml
   ++ Sha256.bytes_of_string ipAllowYaml)%list.

Definition fingerprint (parentConfig sniYaml ipAllowYaml : string) : string :=
  hex_encode (Sha256.sum256 (hash_input parentConfig sniYaml ipAllowYaml)).

(** [GenerateConfigHash]. *)
Definition GenerateConfigHash (sort : SortSlice) (rs : ConfigRules) : string :=
  let '(p, s, i) := GenerateConfigFiles sort rs in fingerprint p s i.

(* ------------------------------------------------------------------ *)
(** ** Database state *)

(** A [uuid.UUID]; rows are keyed by it. *)
Definition UUID := nat.

(** [uuid.UUID.String()]: an injective, never empty, text form. *)
Definition uuid_string (u : UUID) : string := "uuid-" ++ itoa (Z.of_nat u).

(** Sentinel errors ([domain/errors.go]). *)
Inductive Err :=
| ErrNotFound | ErrInvalidStatus | ErrForbidden | ErrConflict | ErrBadRequest.

Inductive Result (A : Type) :=
| Ok (a : A)
| Fail (e : Err).
Arguments Ok {A} a.
Arguments Fail {A} e.

Inductive ConfigStatus :=
| StatusDraft | StatusPendingApproval | StatusApproved | StatusActive.

Definition status_eqb (a b : ConfigStatus) : bool :=
  match a, b with
  | StatusDraft, StatusDraft | StatusPendingApproval, StatusPendingApproval
  | StatusApproved, StatusApproved | StatusActive, StatusActive => true
  | _, _ => false
  end.

(** A row of [configs] with its child rule rows. *)
Record Config := {
  c_id : UUID;
  c_status : ConfigStatus;
  c_submitted_by : option UUID;
  c_approved_by : option UUID;
  c_config_hash : option string;
  c_rules : ConfigRules }.

(** A row of [proxies]. Times are [Z] seconds. *)
Record Proxy := {
  px_id : UUID;
  px_hostname : string;
  px_config_id : option UUID;
  px_is_online : bool;
  px_last_seen : option Z;
  px_current_config_hash : option string;
  px_registered_ip : option string;
  px_capture_logs_until : option Z }.

Record DB := {
  configs : list Config;
  config_proxies : list (UUID * UUID);  (** (config_id, proxy_id) *)
  proxies : list Proxy }.

Definition set_configs (db : DB) (cs : list Config) : DB :=
  {| configs := cs; config_proxies := config_proxies db; proxies := proxies db |}.
Definition set_proxies (db : DB) (ps : list Proxy) : DB :=
  {| configs := configs db; config_proxies := config_proxies db; proxies := ps |}.

Definition with_status (c : Config) (s : ConfigStatus) : Config :=
  {| c_id := c_id c; c_status := s; c_submitted_by := c_submitted_by c;
     c_approved_by := c_approved_by c; c_config_hash := c_config_hash c;
     c_rules := c_rules c |}.

(** ** ConfigRepo (config_repo.go) *)

Definition config_GetByID (db : DB) (id : UUID) : option Config :=
  find (fun c => Nat.eqb (c_id c) id) (configs db).

(** [c IN (SELECT cp2.config_id ... WHERE cp2.proxy_id IN (SELECT cp1.proxy_id
    ... WHERE cp1.config_id = activeID))]. *)
Definition shares_proxy (db : DB) (activeID cid : UUID) : bool :=
  existsb (fun cp2 =>
     Nat.eqb (fst cp2) cid &&
     existsb (fun cp1 => Nat.eqb (fst cp1) activeID && Nat.eqb (snd cp1) (snd cp2))
             (config_proxies db))
    (config_proxies db).

(** [DeactivateOthers]. *)
Definition DeactivateOthers (db : DB) (activeID : UUID) : DB :=
  set_configs db (map (fun c =>
    if status_eqb (c_status c) StatusActive && negb (Nat.eqb (c_id c) activeID)
       && shares_proxy db activeID (c_id c)
    then with_status c StatusApproved else c) (configs db)).

(** [ConfigRepo.Approve]: [UPDATE ... WHERE id = $2 AND status = 'pending_approval'];
    no row affected is [ErrInvalidStatus]. *)
Definition repo_Approve (db : DB) (id userID : UUID) (hash : string) : Result DB :=
  let hit c := Nat.eqb (c_id c) id && status_eqb (c_status c) StatusPendingApproval in
  if existsb hit (configs db) then
    Ok (set_configs db (map (fun c =>
      if hit c then
        {| c_id := c_id c; c_status := StatusActive; c_submitted_by := c_submitted_by c;
           c_approved_by := Some userID; c_config_hash := Some hash; c_rules := c_rules c |}
      else c) (configs db)))
  else Fail ErrInvalidStatus.

(** [ConfigRepo.Submit]. *)
Definition repo_Submit (db : DB) (id userID : UUID) : Result DB :=
  let hit c := Nat.eqb (c_id c) id && status_eqb (c_status c) StatusDraft in
  if existsb hit (configs db) then
    Ok (set_configs db (map (fun c =>
      if hit c then
        {| c_id := c_id c; c_status := StatusPendingApproval; c_submitted_by := Some userID;
           c_approved_by := c_approved_by c; c_config_hash := c_config_hash c;
           c_rules := c_rules c |}
      else c) (configs db)))
  else Fail ErrInvalidStatus.

(** [ConfigRepo.Reject]. *)
Definition repo_Reject (db : DB) (id : UUID) : Result DB :=
  let hit c := Nat.eqb (c_id c) id && status_eqb (c_status c) StatusPendingApproval in
  if existsb hit (configs db) then
    Ok (set_configs db (map (fun c =>
      if hit c then
        {| c_id := c_id c; c_status := StatusDraft; c_submitted_by := None;
           c_approved_by := c_approved_by c; c_config_hash := c_config_hash c;
           c_rules := c_rules c |}
      else c) (configs db)))
  else Fail ErrInvalidStatus.

(** [ConfigRepo.UpdateHash]. *)
Definition repo_UpdateHash (db : DB) (id : UUID) (hash : string) : DB :=
  set_configs db (map (fun c =>
    if Nat.eqb (c_id c) id then
      {| c_id := c_id c; c_status := c_status c; c_submitted_by := c_submitted_by c;
         c_approved_by := c_approved_by c; c_config_hash := Some hash; c_rules := c_rules c |}
    else c) (configs db)).

Definition assigned (db : DB) (cid pid : UUID) : Prop := In (cid, pid) (config_proxies db).

(** [GetActiveForProxy]: the first active configuration joined to a proxy
    row with that hostname ([LIMIT 1]). *)
Definition GetActiveForProxy (db : DB) (hostname : string) : option Config :=
  find (fun c =>
    status_eqb (c_status c) StatusActive &&
    existsb (fun cp => Nat.eqb (fst cp) (c_id c) &&
      existsb (fun p => Nat.eqb (px_id p) (snd cp) && String.eqb (px_hostname p) hostname)
              (proxies db))
      (config_proxies db))
    (configs db).

(** ** ConfigService lifecycle operations (config_service.go) *)

(** [ConfigService.Approve] (audit writes are best effort and omitted). *)
Definition Approve (sort : SortSlice) (db : DB) (id userID : UUID) : DB * Result unit :=
  match config_GetByID db id with
  | None => (db, Fail ErrNotFound)
  | Some cfg =>
      if negb (status_eqb (c_status cfg) StatusPendingApproval) then (db, Fail ErrInvalidStatus)
      else
        match c_submitted_by cfg with
        | None => (db, Fail ErrForbidden)
        | Some sb =>
            if negb (Nat.eqb sb userID) then (db, Fail ErrForbidden)
            else
              let hash := GenerateConfigHash sort (c_rules cfg) in
              let db1 := DeactivateOthers db id in
              match repo_Approve db1 id userID hash with
              | Fail e => (db1, Fail e)
              | Ok db2 => (db2, Ok tt)
              end
        end
  end.

Definition Submit (db : DB) (id userID : UUID) : DB * Result unit :=
  match repo_Submit db id userID with Ok db' => (db', Ok tt) | Fail e => (db, Fail e) end.

Definition Reject (db : DB) (id : UUID) : DB * Result unit :=
  match repo_Reject db id with Ok db' => (db', Ok tt) | Fail e => (db, Fail e) end.

(** A run of [Approve] calls, each [(config id, caller)]. *)
Fixpoint run_approvals (sort : SortSlice) (db : DB) (ops : list (UUID * UUID)) : DB :=
  match ops with
  | [] => db
  | (id, u) :: rest => run_approvals sort (fst (Approve sort db id u)) rest
  end.

(** ** Request validation ([validateRules], [validateCIDR]) *)

(** [RuleAction.IsValid] ([domain/enums.go]). *)
Definition action_IsValid (a : string) : bool :=
  String.eqb a ActionDirect || String.eqb a ActionParent.

(** Modelled from the spec: [ACLAction.IsValid] (not under src/); the ACL
    actions are [allow | deny]. *)
Definition acl_action_IsValid (a : string) : bool :=
  String.eqb a ACLAllow || String.eqb a ACLDeny.

Record CreateConfigRequest := {
  req_name : string;
  req_default_action : string;
  req_domains : list DomainRule;
  req_ip_ranges : list IPRangeRule;
  req_parents : list ParentProxy;
  req_client_acl : list ClientACLRule;
  req_proxy_ids : list UUID }.

Definition is_alnum (c : ascii) : bool :=
  let n := GoNet.code c in
  (((48 <=? n) && (n <=? 57)) || ((65 <=? n) && (n <=? 90)) || ((97 <=? n) && (n <=? 122)))%Z.

Fixpoint split_dots (s : list ascii) : list (list ascii) :=
  match s with
  | [] => [[]]
  | c :: rest =>
      if GoNet.char_eqb c "." then [] :: split_dots rest
      else match split_dots rest with
           | w :: ws => (c :: w) :: ws
           | [] => [[c]]
           end
  end.

(** [[a-zA-Z0-9]([a-zA-Z0-9-]*[a-zA-Z0-9])?] *)
Definition label_ok (l : list ascii) : bool :=
  match l with
  | [] => false
  | c :: _ =>
      is_alnum c && is_alnum (last l c)
      && forallb (fun d => is_alnum d || GoNet.char_eqb d "-") l
  end.

(** [domainPattern.MatchString]: an optional ["*."], then at least two
    dot-separated labels. *)
Definition domainPattern_match (d : string) : bool :=
  let s := list_ascii_of_string d in
  let body := match s with
              | c1 :: c2 :: rest =>
                  if GoNet.char_eqb c1 "*" && GoNet.char_eqb c2 "." then rest else s
              | _ => s
              end in
  let labels := split_dots body in
  (2 <=? List.length labels)%nat && forallb label_ok labels.

Definition IPv4zero : list Z := (GoNet.v4InV6Prefix ++ [0; 0; 0; 0])%list%Z.

(** [IP.Equal]. *)
Definition ip_Equal (x y : list Z) : bool :=
  if (List.length x =? List.length y)%nat then GoNet.list_Z_eqb x y
  else if (List.length x =? 4)%nat && (List.length y =? 16)%nat then
    GoNet.list_Z_eqb y (GoNet.v4InV6Prefix ++ x)
  else if (List.length x =? 16)%nat && (List.length y =? 4)%nat then
    GoNet.list_Z_eqb x (GoNet.v4InV6Prefix ++ y)
  else false.

Definition is_v4_zero (ip : list Z) : bool :=
  match GoNet.To4 ip with Some _ => ip_Equal ip IPv4zero | None => false end.

(** [IPMask.Size] of a canonical mask: the number of one bits. *)
Definition maskSize (m : list Z) : Z :=
  Z.of_nat (List.length (filter (fun k => Z.testbit (fst k) (snd k))
                           (list_prod m (map Z.of_nat (seq 0 8))))).

(** [validateCIDR]: the empty string means valid. *)
Definition validateCIDR (cidr prefix : string) : string :=
  match GoNet.ParseIP cidr with
  | Some ip => if is_v4_zero ip then prefix ++ ": 0.0.0.0 is not allowed" else ""
  | None =>
      match GoNet.ParseCIDR cidr with
      | None => prefix ++ ": '" ++ cidr ++ "' is not a valid CIDR or IP address"
      | Some (_, ipnet) =>
          if is_v4_zero (GoNet.net_ip ipnet)
          then prefix ++ ": 0.0.0.0/" ++ itoa (maskSize (GoNet.net_mask ipnet)) ++ " is not allowed"
          else ""
      end
  end.

Definition idx (name : string) (i : nat) : string := name ++ "[" ++ itoa (Z.of_nat i) ++ "]".

Definition domain_errors (i : nat) (d : DomainRule) : list string :=
  let p := idx "domains" i in
  if String.eqb (dr_domain d) "" then [p ++ ": domain cannot be empty"]
  else if String.eqb (dr_domain d) "*." || String.eqb (dr_domain d) "*" then
    [p ++ ": '" ++ dr_domain d ++ "' total wildcard is not allowed"]
  else
    (if domainPattern_match (dr_domain d) then []
     else [p ++ ": '" ++ dr_domain d ++ "' is not a valid domain (use *.example.com or host.example.com)"])
    ++ (if action_IsValid (dr_action d) then []
        else [p ++ ": action '" ++ dr_action d ++ "' is not valid"]).

Definition ip_range_errors (i : nat) (r : IPRangeRule) : list string :=
  let p := idx "ip_ranges" i in
  if String.eqb (ir_cidr r) "" then [p ++ ": CIDR cannot be empty"]
  else
    (let e := validateCIDR (ir_cidr r) p in if String.eqb e "" then [] else [e])
    ++ (if action_IsValid (ir_action r) then []
        else [p ++ ": action '" ++ ir_action r ++ "' is not valid"]).

Definition client_acl_errors (i : nat) (a : ClientACLRule) : list string :=
  let p := idx "client_acl" i in
  if String.eqb (acl_cidr a) "" then [p ++ ": CIDR cannot be empty"]
  else
    (match GoNet.ParseIP (acl_cidr a) with
     | Some _ => if String.eqb (acl_cidr a) "0.0.0.0" then [p ++ ": 0.0.0.0 is not allowed"] else []
     | None =>
         match GoNet.ParseCIDR (acl_cidr a) with
         | None => [p ++ ": '" ++ acl_cidr a ++ "' is not a valid CIDR or IP address"]
         | Some (_, ipnet) =>
             if is_v4_zero (GoNet.net_ip ipnet)
             then [p ++ ": 0.0.0.0/" ++ itoa (maskSize (GoNet.net_mask ipnet)) ++ " is not allowed"]
             else []
         end
     end)
    ++ (if acl_action_IsValid (acl_action a) then []
        else [p ++ ": action '" ++ acl_action a ++ "' is not valid"]).

(** The errors of one entry of [req.ParentProxies]. *)
Definition parent_proxy_errors (i : nat) (pp : ParentProxy) : list string :=
  let p := idx "parent_proxies" i in
  (if String.eqb (pp_address pp) "" then [p ++ ": address cannot be empty"]
   else match GoNet.ParseIP (pp_address pp) with
        | None => [p ++ ": '" ++ pp_address pp ++ "' is not a valid IP address"]
        | Some _ => []
        end)
  ++ (if (pp_port pp <? 1024)%Z || (65535 <? pp_port pp)%Z
      then [p ++ ": port " ++ itoa (pp_port pp) ++ " is out of range (1024-65535)"]
      else []).

Definition indexed_errors {A} (f : nat -> A -> list string) (l : list A) : list string :=
  flat_map (fun p => f (fst p) (snd p)) (combine (seq 0 (List.length l)) l).

(** [validateRules]. *)
Definition validateRules (req : CreateConfigRequest) : Result unit :=
  let da := if String.eqb (req_default_action req) "" then ActionDirect else req_default_action req in
  let errs :=
    app (if action_IsValid da then []
         else ["default_action: '" ++ da ++ "' is not valid, must be 'direct' or 'parent'"])
     (app (indexed_errors domain_errors (req_domains req))
     (app (indexed_errors ip_range_errors (req_ip_ranges req))
     (app (indexed_errors client_acl_errors (req_client_acl req))
          (indexed_errors parent_proxy_errors (req_parents req))))) in
  match errs with
  | [] => Ok tt
  | _ => Fail ErrBadRequest
  end.

(** ** [ConfigService.Create] *)

Definition default_client_acl : list ClientACLRule :=
  [{| acl_cidr := "127.0.0.1"; acl_action := ACLAllow; acl_priority := 10 |};
   {| acl_cidr := "::1"; acl_action := ACLAllow; acl_priority := 20 |};
   {| acl_cidr := "10.0.0.0/8"; acl_action := ACLAllow; acl_priority := 30 |}].

(** The transaction's inserts, all assumed to succeed; [newID] is the id
    the database assigns. *)
Definition Create (db : DB) (newID userID : UUID) (req : CreateConfigRequest)
    : DB * Result Config :=
  if String.eqb (req_name req) "" then (db, Fail ErrBadRequest)
  else
    let da := if String.eqb (req_default_action req) "" then ActionDirect
              else req_default_action req in
    match validateRules req with
    | Fail e => (db, Fail e)
    | Ok _ =>
        let aclInputs := match req_client_acl req with
                         | [] => default_client_acl
                         | l => l
                         end in
        let cfg := {| c_id := newID; c_status := StatusDraft; c_submitted_by := None;
                      c_approved_by := None; c_config_hash := None;
                      c_rules := {| r_domains := req_domains req;
                                    r_ip_ranges := req_ip_ranges req;
                                    r_parents := req_parents req;
                                    r_client_acl := aclInputs;
                                    r_default_action := da |} |} in
        ({| configs := (configs db ++ [cfg])%list;
            config_proxies := (config_proxies db ++ map (fun pid => (newID, pid)) (req_proxy_ids req))%list;
            proxies := proxies db |},
         Ok cfg)
    end.

(* ------------------------------------------------------------------ *)
(** ** ProxyRepo (proxy_repo.go) *)

(** Modelled from the spec: [ProxyRepo.GetByHostname] reading the
    [registered_ip] column (the version under src/ does not select it,
    although [SyncService.Register] reads [existing.RegisteredIP]); the
    hostname is unique, so the first row with it is the row. *)
Definition GetByHostname (db : DB) (hostname : string) : option Proxy :=
  find (fun p => String.eqb (px_hostname p) hostname) (proxies db).

Definition update_proxy (db : DB) (id : UUID) (f : Proxy -> Proxy) : DB :=
  set_proxies db (map (fun p => if Nat.eqb (px_id p) id then f p else p) (proxies db)).

(** [UpdateLastSeen]: [last_seen = NOW(), is_online = true]. *)
Definition UpdateLastSeen (db : DB) (id : UUID) (now : Z) : DB :=
  update_proxy db id (fun p =>
    {| px_id := px_id p; px_hostname := px_hostname p; px_config_id := px_config_id p;
       px_is_online := true; px_last_seen := Some now;
       px_current_config_hash := px_current_config_hash p;
       px_registered_ip := px_registered_ip p;
       px_capture_logs_until := px_capture_logs_until p |}).

(** Modelled from the spec: [ProxyRepo.UpdateRegisteredIP] (not under
    src/): re-registration refreshes [registered_ip]. *)
Definition UpdateRegisteredIP (db : DB) (id : UUID) (ip : string) : DB :=
  update_proxy db id (fun p =>
    {| px_id := px_id p; px_hostname := px_hostname p; px_config_id := px_config_id p;
       px_is_online := px_is_online p; px_last_seen := px_last_seen p;
       px_current_config_hash := px_current_config_hash p;
       px_registered_ip := Some ip;
       px_capture_logs_until := px_capture_logs_until p |}).

(** [UpdateConfigHash]: [current_config_hash = $1, last_seen = NOW(), is_online = true]. *)
Definition UpdateConfigHash (db : DB) (id : UUID) (hash : string) (now : Z) : DB :=
  update_proxy db id (fun p =>
    {| px_id := px_id p; px_hostname := px_hostname p; px_config_id := px_config_id p;
       px_is_online := true; px_last_seen := Some now;
       px_current_config_hash := Some hash;
       px_registered_ip := px_registered_ip p;
       px_capture_logs_until := px_capture_logs_until p |}).

(** [ProxyRepo.Create]: inserts [(hostname, config_id)]. *)
Definition proxy_Create (db : DB) (newID : UUID) (hostname : string) (cfg : option UUID) : DB :=
  set_proxies db (proxies db ++
    [{| px_id := newID; px_hostname := hostname; px_config_id := cfg; px_is_online := false;
        px_last_seen := None; px_current_config_hash := None; px_registered_ip := None;
        px_capture_logs_until := None |}])%list.

(* ------------------------------------------------------------------ *)
(** ** SyncService (sync_service.go) *)

Record RegisterRequest := {
  rr_hostname : string;
  rr_config_id : string;
  rr_proxy_id : string;
  rr_remote_ip : string }.

Record RegisterResponse := {
  resp_proxy_id : string;
  resp_config_id : string;
  resp_status : string }.

Definition opt_uuid_string (o : option UUID) : string :=
  match o with Some u => uuid_string u | None => "" end.

(** [uuid.Parse] of a config id, for the ids this model renders. *)
Definition parse_uuid (s : string) (known : list UUID) : option UUID :=
  find (fun u => String.eqb (uuid_string u) s) known.

(** [SyncService.Register]; [newID] is the id a fresh row would get. *)
Definition Register (db : DB) (now : Z) (newID : UUID) (req : RegisterRequest)
    : DB * Result RegisterResponse :=
  if String.eqb (rr_hostname req) "" then (db, Fail ErrBadRequest)
  else
    match GetByHostname db (rr_hostname req) with
    | Some existing =>
        let sameIP := match px_registered_ip existing with
                      | Some ip => String.eqb ip (rr_remote_ip req)
                      | None => false
                      end in
        let sameID := negb (String.eqb (rr_proxy_id req) "")
                      && String.eqb (rr_proxy_id req) (uuid_string (px_id existing)) in
        if px_is_online existing && negb sameIP && negb sameID then (db, Fail ErrConflict)
        else
          let db1 := UpdateRegisteredIP db (px_id existing) (rr_remote_ip req) in
          let db2 := UpdateLastSeen db1 (px_id existing) now in
          (db2, Ok {| resp_proxy_id := uuid_string (px_id existing);
                      resp_config_id := opt_uuid_string (px_config_id existing);
                      resp_status := "registered" |})
    | None =>
        let cfg := if String.eqb (rr_config_id req) "" then None
                   else parse_uuid (rr_config_id req) (map c_id (configs db)) in
        let db1 := proxy_Create db newID (rr_hostname req) cfg in
        let db2 := UpdateLastSeen db1 newID now in
        (db2, Ok {| resp_proxy_id := uuid_string newID;
                    resp_config_id := opt_uuid_string cfg;
                    resp_status := "registered" |})
    end.

Record ConfigResponse := {
  cr_unchanged : bool;
  cr_hash : string;
  cr_config : option (string * string * string);
  cr_capture_logs : bool;
  cr_capture_until : option Z }.

(** [CaptureLogsUntil.After(time.Now())]. *)
Definition capture_active (p : Proxy) (now : Z) : bool :=
  match px_capture_logs_until p with Some t => (now <? t)%Z | None => false end.

(** [SyncService.GetConfig]. *)
Definition GetConfig (sort : SortSlice) (db : DB) (now : Z) (hostname currentHash : string)
    : DB * Result ConfigResponse :=
  match GetByHostname db hostname with
  | None => (db, Fail ErrNotFound)
  | Some proxy =>
      let db1 := UpdateLastSeen db (px_id proxy) now in
      let captureLogs := capture_active proxy now in
      let captureUntil := if captureLogs then px_capture_logs_until proxy else None in
      match GetActiveForProxy db1 hostname with
      | None =>
          (db1, Ok {| cr_unchanged := true; cr_hash := ""; cr_config := None;
                      cr_capture_logs := captureLogs; cr_capture_until := captureUntil |})
      | Some cfg =>
          let configHash := match c_config_hash cfg with Some h => h | None => "" end in
          if negb (String.eqb configHash "") && String.eqb configHash currentHash then
            (db1, Ok {| cr_unchanged := true; cr_hash := ""; cr_config := None;
                        cr_capture_logs := captureLogs; cr_capture_until := captureUntil |})
          else
            let files := GenerateConfigFiles sort (c_rules cfg) in
            let '(configHash', db2) :=
              if String.eqb configHash "" then
                let h := GenerateConfigHash sort (c_rules cfg) in
                (h, repo_UpdateHash db1 (c_id cfg) h)
              else (configHash, db1) in
            (db2, Ok {| cr_unchanged := false; cr_hash := configHash'; cr_config := Some files;
                        cr_capture_logs := captureLogs; cr_capture_until := captureUntil |})
      end
  end.

Record AckRequest := {
  ack_hostname : string;
  ack_hash : string;
  ack_status : string;
  ack_message : string }.

(** [SyncService.Ack]. *)
Definition Ack (db : DB) (now : Z) (req : AckRequest) : DB * Result unit :=
  match GetByHostname db (ack_hostname req) with
  | None => (db, Fail ErrNotFound)
  | Some proxy =>
      if String.eqb (ack_status req) "ok" then
        (UpdateConfigHash db (px_id proxy) (ack_hash req) now, Ok tt)
      else (db, Ok tt)
  end.

(** ** [ConfigService.Update] and [ConfigService.Clone] *)

(** [Update]: only a draft may be edited; its rule rows and proxy
    assignments are replaced by the request's. *)
Definition Update (db : DB) (id userID : UUID) (req : CreateConfigRequest) : DB * Result unit :=
  let da := if String.eqb (req_default_action req) "" then ActionDirect
            else req_default_action req in
  match validateRules req with
  | Fail e => (db, Fail e)
  | Ok _ =>
      match config_GetByID db id with
      | None => (db, Fail ErrNotFound)
      | Some cfg =>
          if negb (status_eqb (c_status cfg) StatusDraft) then (db, Fail ErrInvalidStatus)
          else
            let rules := {| r_domains := req_domains req; r_ip_ranges := req_ip_ranges req;
                            r_parents := req_parents req; r_client_acl := req_client_acl req;
                            r_default_action := da |} in
            ({| configs := map (fun c =>
                  if Nat.eqb (c_id c) id && status_eqb (c_status c) StatusDraft then
                    {| c_id := c_id c; c_status := c_status c; c_submitted_by := c_submitted_by c;
                       c_approved_by := c_approved_by c; c_config_hash := c_config_hash c;
                       c_rules := rules |}
                  else c) (configs db);
                config_proxies :=
                  (filter (fun cp => negb (Nat.eqb (fst cp) id)) (config_proxies db)
                   ++ map (fun pid => (id, pid)) (req_proxy_ids req))%list;
                proxies := proxies db |},
             Ok tt)
      end
  end.

(** [ConfigProxyRepo.ListByConfig]: the proxies of the [JOIN] of [proxies]
    with the [config_proxies] rows of [configID], one per joined row. The
    [ORDER BY p.hostname] only orders the [Assign] calls of [Clone], whose
    inserts go to a table the model reads by membership. *)
Definition ListByConfig (db : DB) (configID : UUID) : list Proxy :=
  flat_map (fun cp => if Nat.eqb (fst cp) configID
                      then filter (fun p => Nat.eqb (px_id p) (snd cp)) (proxies db)
                      else []) (config_proxies db).

(** [Clone]: a new draft with the original's rule rows, assigned to the
    proxies [ListByConfig] returns for the original. *)
Definition Clone (db : DB) (id newID : UUID) : DB * Result Config :=
  match config_GetByID db id with
  | None => (db, Fail ErrNotFound)
  | Some original =>
      let cfg := {| c_id := newID; c_status := StatusDraft; c_submitted_by := None;
                    c_approved_by := None; c_config_hash := None;
                    c_rules := c_rules original |} in
      ({| configs := (configs db ++ [cfg])%list;
          config_proxies := (config_proxies db ++
             map (fun p => (newID, px_id p)) (ListByConfig db id))%list;
          proxies := proxies db |},
       Ok cfg)
  end.

(** One call of a service operation that touches the configuration or
    proxy tables. A new row gets an id that is not in use. *)
Inductive lifecycle_step (sort : SortSlice) : DB -> DB -> Prop :=
| step_create db newID u req :
    ~ In newID (map c_id (configs db)) ->
    lifecycle_step sort db (fst (Create db newID u req))
| step_update db id u req : lifecycle_step sort db (fst (Update db id u req))
| step_clone db id newID :
    ~ In newID (map c_id (configs db)) ->
    lifecycle_step sort db (fst (Clone db id newID))
| step_submit db id u : lifecycle_step sort db (fst (Submit db id u))
| step_reject db id : lifecycle_step sort db (fst (Reject db id))
| step_approve db id u : lifecycle_step sort db (fst (Approve sort db id u))
| step_poll db now h cur : lifecycle_step sort db (fst (GetConfig sort db now h cur))
| step_register db now newID req : lifecycle_step sort db (fst (Register db now newID req))
| step_ack db now req : lifecycle_step sort db (fst (Ack db now req)).

Definition empty_db : DB := {| configs := []; config_proxies := []; proxies := [] |}.

(** The states the service can reach from an empty database. *)
Inductive reachable (sort : SortSlice) : DB -> Prop :=
| reach_init : reachable sort empty_db
| reach_step db db' : reachable sort db -> lifecycle_step sort db db' -> reachable sort db'.

(** Per-row facts kept by every operation: approved rows carry
    [approved_by = submitted_by], and a stored fingerprint belongs to an
    approved row and is the fingerprint of the row's rules. *)
Definition row_ok (sort : SortSlice) (c : Config) : Prop :=
  (c_status c = StatusActive \/ c_status c = StatusApproved ->
     c_approved_by c <> None /\ c_approved_by c = c_submitted_by c) /\
  (forall h, c_config_hash c = Some h ->
     (c_status c = StatusActive \/ c_status c = StatusApproved) /\
     h = GenerateConfigHash sort (c_rules c)).

Definition wf_list (sort : SortSlice) (l : list Config) : Prop :=
  NoDup (map c_id l) /\ (forall c, In c l -> row_ok sort c).

(** At most one active configuration is assigned to each proxy. *)
Definition one_active_per_proxy (db : DB) : Prop :=
  forall p c1 c2, In c1 (configs db) -> In c2 (configs db) ->
    c_status c1 = StatusActive -> c_status c2 = StatusActive ->
    assigned db (c_id c1) p -> assigned db (c_id c2) p -> c_id c1 = c_id c2.

(** The rules a [for] loop over [l] writes a line for, with their lines,
    in loop order. *)
Definition emitted {A} (line : A -> option string) (l : list A) : list (A * string) :=
  fold_right (fun x acc => match line x with Some s => (x, s) :: acc | None => acc end) [] l.

(** The [parentStr] [generateParentConfig] computes from its parents. *)
Definition parent_str (sort : SortSlice) (parents : list ParentProxy) : string :=
  parent_list (filter pp_enabled (sort _ pp_priority parents)).

(** The IP-range rules and the domain rules [generateParentConfig] writes a
    line for, in the order of their lines. *)
Definition emitted_ip_rules (sort : SortSlice) (rs : ConfigRules) : list (IPRangeRule * string) :=
  emitted (ip_range_line (parent_str sort (r_parents rs))) (sort _ ir_priority (r_ip_ranges rs)).

Definition emitted_domain_rules (sort : SortSlice) (rs : ConfigRules) : list (DomainRule * string) :=
  emitted (domain_line (parent_str sort (r_parents rs))) (sort _ dr_priority (r_domains rs)).

(** The order the specification asks for: priority ascending, equal
    priorities by byte-wise order of the selector. *)
Definition spec_rule_order {A} (prio : A -> Z) (sel : A -> string) (a b : A) : Prop :=
  (prio a < prio b)%Z \/ (prio a = prio b /\ String.leb (sel a) (sel b) = true).

(** Two IP-range rules and two domain rules of equal priority, listed
    against byte-wise selector order. *)
Definition tie_ip_a : IPRangeRule := {| ir_cidr := "10.0.1.0/24"; ir_action := ActionDirect; ir_priority := 5 |}.
Definition tie_ip_b : IPRangeRule := {| ir_cidr := "10.0.2.0/24"; ir_action := ActionDirect; ir_priority := 5 |}.
Definition tie_dom_a : DomainRule := {| dr_domain := "a.example.com"; dr_action := ActionDirect; dr_priority := 5 |}.
Definition tie_dom_b : DomainRule := {| dr_domain := "b.example.com"; dr_action := ActionDirect; dr_priority := 5 |}.

Definition tie_rules : ConfigRules :=
  {| r_domains := [tie_dom_b; tie_dom_a]; r_ip_ranges := [tie_ip_b; tie_ip_a];
     r_parents := []; r_client_acl := []; r_default_action := ActionDirect |}.

(** Selectors in canonical form: [a.b.c.d] and [a.b.c.d/n], decimal
    without leading zeros, as [IP.String] and [itoa] write them. *)
Definition ipv4_selector (o : list Z) : string := string_of_list_ascii (GoNet.ipv4_string o).

Definition cidr_selector (o : list Z) (n : Z) : string :=
  string_of_list_ascii (GoNet.ipv4_string o ++ "/"%char :: GoNet.dec_byte n)%list.

(** The range the specification describes: byte [k] of the /n prefix mask
    has its top [min 8 (max 0 (n - 8k))] bits set; the network start clears
    the host bits of the address, the end sets them. *)
Definition prefix_mask_byte (n k : Z) : Z := (256 - 2 ^ (8 - Z.min 8 (Z.max 0 (n - 8 * k))))%Z.

Definition network_range_text (o : list Z) (n : Z) : string :=
  let ms := map (prefix_mask_byte n) [0; 1; 2; 3]%Z in
  let start := map (fun p => Z.land (fst p) (snd p)) (combine o ms) in
  let end_ := map (fun p => Z.lor (fst p) (255 - snd p)) (combine start ms) in
  string_of_list_ascii (GoNet.ipv4_string start ++ "-"%char :: GoNet.ipv4_string end_)%list.

(** The digit branch of [parseIPv4Fields] run over a run of digits. *)
Fixpoint digits_run (p : list ascii) (val digLen : Z) (prev : option ascii)
    : option (option ascii * Z * Z) :=
  match p with
  | [] => Some (prev, val, digLen)
  | c :: rest =>
      if GoNet.is_digit c then
        if (digLen =? 1)%Z && (val =? 0)%Z then None
        else
          let val' := (val * 10 + (GoNet.code c - 48))%Z in
          if (255 <? val')%Z then None else digits_run rest val' (digLen + 1) (Some c)
      else None
  end.

(** A request whose only parent proxy has an IPv6 address. *)
Definition ipv6_parent_request : CreateConfigRequest :=
  {| req_name := "edge"; req_default_action := ActionParent; req_domains := [];
     req_ip_ranges := []; req_parents := [{| pp_address := "::1"; pp_port := 3128;
                                             pp_priority := 1; pp_enabled := true |}];
     req_client_acl := []; req_proxy_ids := [] |}.

(** [one_active_per_proxy] as a check on a concrete state. *)
Definition one_active_per_proxy_b (db : DB) : bool :=
  forallb (fun c1 => forallb (fun c2 =>
    implb (status_eqb (c_status c1) StatusActive && status_eqb (c_status c2) StatusActive &&
           existsb (fun cp1 => Nat.eqb (fst cp1) (c_id c1) &&
             existsb (fun cp2 => Nat.eqb (fst cp2) (c_id c2) && Nat.eqb (snd cp1) (snd cp2))
                     (config_proxies db)) (config_proxies db))
          (Nat.eqb (c_id c1) (c_id c2))) (configs db)) (configs db).

(** A small deployment: proxy 5 ([edge-1]) runs configuration 1, and
    configuration 2, for the same proxy, waits for approval by user 7. *)
Definition demo_rules : ConfigRules :=
  {| r_domains := [{| dr_domain := "*.example.com"; dr_action := ActionDirect; dr_priority := 10 |}];
     r_ip_ranges := [{| ir_cidr := "10.0.0.0/8"; ir_action := ActionDirect; ir_priority := 10 |}];
     r_parents := []; r_client_acl := default_client_acl; r_default_action := ActionDirect |}.

Definition demo_cfg1 : Config :=
  {| c_id := 1; c_status := StatusActive; c_submitted_by := Some 7%nat; c_approved_by := Some 7%nat;
     c_config_hash := None; c_rules := demo_rules |}.

Definition demo_cfg2 : Config :=
  {| c_id := 2; c_status := StatusPendingApproval; c_submitted_by := Some 7%nat;
     c_approved_by := None; c_config_hash := None; c_rules := demo_rules |}.

Definition demo_proxy : Proxy :=
  {| px_id := 5; px_hostname := "edge-1"; px_config_id := Some 1%nat; px_is_online := true;
     px_last_seen := Some 100%Z; px_current_config_hash := None;
     px_registered_ip := Some "10.0.0.9"; px_capture_logs_until := None |}.

Definition demo_db : DB :=
  {| configs := [demo_cfg1; demo_cfg2]; config_proxies := [(1, 5); (2, 5)]%nat;
     proxies := [demo_proxy] |}.

Definition demo_request : CreateConfigRequest :=
  {| req_name := "edge"; req_default_action := ""; req_domains := []; req_ip_ranges := [];
     req_parents := []; req_client_acl := []; req_proxy_ids := [5%nat] |}.

(** [ProxyRepo.SetCaptureLogsUntil]. *)
Definition SetCaptureLogsUntil (db : DB) (id : UUID) (until : Z) : DB :=
  update_proxy db id (fun p =>
    {| px_id := px_id p; px_hostname := px_hostname p; px_config_id := px_config_id p;
       px_is_online := px_is_online p; px_last_seen := px_last_seen p;
       px_current_config_hash := px_current_config_hash p;
       px_registered_ip := px_registered_ip p;
       px_capture_logs_until := Some until |}).

(** [last_seen < limit] in SQL: a NULL [last_seen] is never selected. *)
Definition seen_before (p : Proxy) (limit : Z) : bool :=
  match px_last_seen p with Some t => (t <? limit)%Z | None => false end.

(** [ProxyRepo.MarkOfflineStale]: [is_online = FALSE WHERE last_seen <
    NOW() - INTERVAL '2 minutes' AND is_online = TRUE]. *)
Definition MarkOfflineStale (db : DB) (now : Z) : DB :=
  set_proxies db (map (fun p =>
    if seen_before p (now - 120) && px_is_online p then
      {| px_id := px_id p; px_hostname := px_hostname p; px_config_id := px_config_id p;
         px_is_online := false; px_last_seen := px_last_seen p;
         px_current_config_hash := px_current_config_hash p;
         px_registered_ip := px_registered_ip p;
         px_capture_logs_until := px_capture_logs_until p |}
    else p) (proxies db)).

(** A row of [proxy_logs]. *)
Record ProxyLog := { pl_proxy_id : UUID; pl_level : string; pl_message : string }.

Record SyncLogLine := { ll_level : string; ll_message : string }.
Record SyncLogsRequest := { lr_hostname : string; lr_lines : list SyncLogLine }.
Record LogsResponse := { lg_received : bool; lg_continue_capture : bool }.

(** [SyncService.Logs]: one [proxy_logs] row per line (insert errors are
    ignored, so every insert is taken to succeed). *)
Definition Logs (db : DB) (store : list ProxyLog) (now : Z) (req : SyncLogsRequest)
    : list ProxyLog * Result LogsResponse :=
  match GetByHostname db (lr_hostname req) with
  | None => (store, Fail ErrNotFound)
  | Some proxy =>
      let store' := (store ++ map (fun line =>
                       {| pl_proxy_id := px_id proxy; pl_level := ll_level line;
                          pl_message := ll_message line |}) (lr_lines req))%list in
      (store', Ok {| lg_received := true; lg_continue_capture := capture_active proxy now |})
  end.

(** [maskSize] gives back [n] for the /n prefix mask. *)
Definition mask_size_ok (n : Z) : bool :=
  (maskSize (map (prefix_mask_byte n) [0; 1; 2; 3]%Z) =? n)%Z.

(** The row test of [GetActiveForProxy]. *)
Definition serves (db : DB) (hostname : string) (c : Config) : bool :=
  status_eqb (c_status c) StatusActive &&
  existsb (fun cp => Nat.eqb (fst cp) (c_id c) &&
    existsb (fun p => Nat.eqb (px_id p) (snd cp) && String.eqb (px_hostname p) hostname)
            (proxies db))
    (config_proxies db).

(** Every assignment row names an existing configuration. *)
Definition assignments_ok (db : DB) : Prop :=
  forall cp, In cp (config_proxies db) -> In (fst cp) (map c_id (configs db)).

(** Small states and inputs for the properties below. *)
Definition two_domains : list DomainRule :=
  [{| dr_domain := "a.example.com"; dr_action := ActionDirect; dr_priority := 10 |};
   {| dr_domain := "b.example.com"; dr_action := ActionParent; dr_priority := 20 |}].

Definition draft_db : DB := set_configs demo_db [demo_cfg1; with_status demo_cfg2 StatusDraft].

Definition edge_register : RegisterRequest :=
  {| rr_hostname := "edge-1"; rr_config_id := ""; rr_proxy_id := ""; rr_remote_ip := "10.0.0.9" |}.

Definition created_db : DB :=
  fst (Create (fst (Register empty_db 0 5 edge_register)) 1 7 demo_request).

(** As [created_db], with configuration 1 also assigned to proxy id 8. *)
Definition created_db8 : DB :=
  fst (Create (fst (Register empty_db 0 5 edge_register)) 1 7
         {| req_name := "edge"; req_default_action := ""; req_domains := [];
            req_ip_ranges := []; req_parents := []; req_client_acl := [];
            req_proxy_ids := [5%nat; 8%nat] |}).

(* ================================================================== *)
(** * Properties *)

(** ** Sanity checks of the embedded library code *)

Example sha256_empty :
  hex_encode (Sha256.sum256 []) =
  "e3b0c44298fc1c149afbf4c8996fb92427ae41e4649b934ca495991b7852b855".
Proof. vm_compute. reflexivity. Qed.

Example sha256_abc :
  hex_encode (Sha256.sum256 (Sha256.bytes_of_string "abc")) =
  "ba7816bf8f01cfea414140de5dae2223b00361a396177a9cb410ff61f20015ad".
Proof. vm_compute. reflexivity. Qed.

Example cidrToRange_10_8 : cidrToRange "10.0.0.0/8" = "10.0.0.0-10.255.255.255".
Proof. vm_compute. reflexivity. Qed.
Example cidrToRange_host_bits : cidrToRange "192.168.1.77/20" = "192.168.0.0-192.168.15.255".
Proof. vm_compute. reflexivity. Qed.
Example ParseIP_v6_loopback : GoNet.ParseIP "::1" = Some (repeat 0%Z 15 ++ [1%Z])%list.
Proof. vm_compute. reflexivity. Qed.
Example ParseIP_v6_full : GoNet.ParseIP "2001:db8::ff00:42:8329" =
  Some [32;1;13;184;0;0;0;0;0;0;255;0;0;66;131;41]%Z.
Proof. vm_compute. reflexivity. Qed.
Example ParseIP_v4mapped : GoNet.ParseIP "::ffff:1.2.3.4" =
  Some [0;0;0;0;0;0;0;0;0;0;255;255;1;2;3;4]%Z.
Proof. vm_compute. reflexivity. Qed.
Example ParseIP_rejects : map GoNet.ParseIP ["01.2.3.4"; "1.2.3"; "256.1.1.1"; "fe80::1%eth0"; "1::2::3"; "12345::"; ""; "host"] =
  [None; None; None; None; None; None; None; None].
Proof. vm_compute. reflexivity. Qed.


(** ** Helper lemmas on the row tables *)

Lemma find_map_invariant {A} (P : A -> bool) (g : A -> A) (l : list A) :
  (forall x, P (g x) = P x) -> find P (map g l) = option_map g (find P l).
Proof.
  intros HP; induction l as [| x l IH]; simpl; auto.
  rewrite HP; destruct (P x); auto.
Qed.

Lemma update_proxy_ids (db : DB) (id : UUID) (f : Proxy -> Proxy) :
  (forall p, px_id (f p) = px_id p) ->
  map px_id (proxies (update_proxy db id f)) = map px_id (proxies db).
Proof.
  intros Hf; unfold update_proxy; simpl; rewrite map_map.
  apply map_ext; intros p; destruct (Nat.eqb (px_id p) id); auto.
Qed.

(** Looking a proxy up by hostname after an update that keeps the
    hostname and the id yields the updated row. *)
Lemma GetByHostname_update (db : DB) (h : string) (f : Proxy -> Proxy) (p : Proxy) :
  (forall q, px_hostname (f q) = px_hostname q) ->
  GetByHostname db h = Some p ->
  GetByHostname (update_proxy db (px_id p) f) h = Some (f p).
Proof.
  intros Hh Hget; unfold GetByHostname, update_proxy in *; simpl.
  rewrite find_map_invariant.
  - rewrite Hget; simpl; rewrite Nat.eqb_refl; reflexivity.
  - intros q; destruct (Nat.eqb (px_id q) (px_id p)); simpl; [rewrite Hh|]; reflexivity.
Qed.

Lemma uuid_string_nonempty (u : UUID) : uuid_string u <> "".
Proof. unfold uuid_string; simpl; discriminate. Qed.

Ltac str_eqb_cases :=
  repeat match goal with
  | |- context [String.eqb ?a ?b] =>
      let E := fresh "E" in
      destruct (String.eqb a b) eqn:E;
      [apply String.eqb_eq in E | apply String.eqb_neq in E]
  end.

(** ** C8: acknowledge *)

(** C8. For an acknowledge from a known hostname: with status ["ok"] the
    proxy's observed fingerprint ([current_config_hash]) becomes the
    presented hash; with any other status the database, hence the
    observed fingerprint, is exactly as before. *)
Theorem Ack_observed_fingerprint (db : DB) (now : Z) (req : AckRequest) (proxy : Proxy) :
  GetByHostname db (ack_hostname req) = Some proxy ->
  (ack_status req = "ok" ->
     snd (Ack db now req) = Ok tt /\
     exists p', GetByHostname (fst (Ack db now req)) (ack_hostname req) = Some p' /\
                px_id p' = px_id proxy /\
                px_current_config_hash p' = Some (ack_hash req)) /\
  (ack_status req <> "ok" ->
     Ack db now req = (db, Ok tt) /\
     GetByHostname (fst (Ack db now req)) (ack_hostname req) = Some proxy).
Proof.
  intros Hget; unfold Ack; rewrite Hget; split; intros Hst.
  - rewrite Hst; simpl; split; [reflexivity|].
    eexists; split; [apply GetByHostname_update; [reflexivity | exact Hget] |].
    simpl; auto.
  - apply String.eqb_neq in Hst; rewrite Hst; simpl; auto.
Qed.

(** ** C3: registration identity check *)

(** C3. A register call whose hostname already has a record succeeds,
    returning the record's id and creating no row, exactly when the record
    is offline, or the caller presents the record's id, or the caller's
    source IP is the record's [registered_ip]; any other outcome is a
    conflict, and a caller presenting its prior id never gets one. *)
Theorem Register_identity_check (db : DB) (now : Z) (newID : UUID)
    (req : RegisterRequest) (existing : Proxy) :
  rr_hostname req <> "" ->
  GetByHostname db (rr_hostname req) = Some existing ->
  let res := Register db now newID req in
  ((exists resp, snd res = Ok resp) <->
     (px_is_online existing = false \/
      rr_proxy_id req = uuid_string (px_id existing) \/
      px_registered_ip existing = Some (rr_remote_ip req))) /\
  (forall resp, snd res = Ok resp ->
     resp_proxy_id resp = uuid_string (px_id existing) /\
     map px_id (proxies (fst res)) = map px_id (proxies db)) /\
  (forall e, snd res = Fail e -> e = ErrConflict) /\
  (rr_proxy_id req = uuid_string (px_id existing) -> snd res <> Fail ErrConflict).
Proof.
  intros Hh Hget res; subst res; unfold Register.
  apply String.eqb_neq in Hh; rewrite Hh, Hget.
  set (sameIP := match px_registered_ip existing with
                 | Some ip => String.eqb ip (rr_remote_ip req) | None => false end).
  set (sameID := negb (String.eqb (rr_proxy_id req) "")
                 && String.eqb (rr_proxy_id req) (uuid_string (px_id existing))).
  assert (HIP : sameIP = true <-> px_registered_ip existing = Some (rr_remote_ip req)).
  { subst sameIP; destruct (px_registered_ip existing) as [ip|]; split; intros H;
      try discriminate; [apply String.eqb_eq in H; congruence |].
    inversion H; apply String.eqb_refl. }
  assert (HID : sameID = true <-> rr_proxy_id req = uuid_string (px_id existing)).
  { subst sameID; split; intros H.
    - apply andb_prop in H as [_ H]; apply String.eqb_eq; exact H.
    - rewrite H, String.eqb_refl; simpl.
      destruct (String.eqb (uuid_string (px_id existing)) "") eqn:E; [|reflexivity].
      apply String.eqb_eq in E; exfalso; exact (uuid_string_nonempty _ E). }
  assert (Hids : forall db0 i (f : Proxy -> Proxy), (forall p, px_id (f p) = px_id p) ->
                 map px_id (proxies (update_proxy db0 i f)) = map px_id (proxies db0))
    by (intros; apply update_proxy_ids; auto).
  destruct (px_is_online existing && negb sameIP && negb sameID) eqn:E.
  - apply andb_prop in E as [E1 E3]; apply andb_prop in E1 as [E1 E2].
    apply negb_true_iff in E2, E3; simpl.
    split; [|split; [intros resp Hr; discriminate | split; [intros e He; inversion He; reflexivity|]]].
    + split; [intros [resp Hr]; discriminate|].
      intros [Hoff | [Hid | Hip]]; [congruence | apply HID in Hid | apply HIP in Hip]; congruence.
    + intros Hid; apply HID in Hid; congruence.
  - cbn [fst snd]; split; [|split; [|split]].
    + split; [intros _|intros _; eexists; reflexivity].
      destruct (px_is_online existing) eqn:Eo; [|left; reflexivity].
      destruct sameIP eqn:Ei; [right; right; apply HIP; reflexivity|].
      destruct sameID eqn:Ed; [right; left; apply HID; reflexivity|].
      discriminate.
    + intros resp Hr; inversion Hr; subst; cbn [resp_proxy_id]; split; [reflexivity|].
      unfold UpdateLastSeen, UpdateRegisteredIP.
      rewrite !Hids; reflexivity.
    + intros e He; discriminate.
    + intros _; discriminate.
Qed.

(** ** C2: polling *)

Lemma find_ext {A} (P Q : A -> bool) (l : list A) :
  (forall x, P x = Q x) -> find P l = find Q l.
Proof. intros H; induction l as [| x l IH]; simpl; [|rewrite H, IH]; reflexivity. Qed.

Lemma existsb_ext' {A} (P Q : A -> bool) (l : list A) :
  (forall x, P x = Q x) -> existsb P l = existsb Q l.
Proof. intros H; induction l as [| x l IH]; simpl; [|rewrite H, IH]; reflexivity. Qed.

Lemma existsb_map' {A B} (P : B -> bool) (g : A -> B) (l : list A) :
  existsb P (map g l) = existsb (fun x => P (g x)) l.
Proof. induction l as [| x l IH]; simpl; [|rewrite IH]; reflexivity. Qed.

Lemma GetActiveForProxy_update_proxy (db : DB) (id : UUID) (f : Proxy -> Proxy) (h : string) :
  (forall q, px_id (f q) = px_id q) -> (forall q, px_hostname (f q) = px_hostname q) ->
  GetActiveForProxy (update_proxy db id f) h = GetActiveForProxy db h.
Proof.
  intros Hi Hh; unfold GetActiveForProxy, update_proxy; simpl.
  apply find_ext; intros c; f_equal.
  apply existsb_ext'; intros cp; f_equal.
  rewrite existsb_map'; apply existsb_ext'; intros q.
  destruct (Nat.eqb (px_id q) id); rewrite ?Hi, ?Hh; reflexivity.
Qed.

Lemma find_in_some {A} (P : A -> bool) (l : list A) (x : A) :
  In x l -> P x = true -> exists y, find P l = Some y /\ P y = true.
Proof.
  intros Hin Hx; induction l as [| z l IH]; [destruct Hin|]; simpl.
  destruct (P z) eqn:Ez; [exists z; auto|].
  destruct Hin as [-> | Hin]; [congruence | auto].
Qed.

Lemma config_GetByID_UpdateHash (db : DB) (id : UUID) (h : string) (c : Config) :
  In c (configs db) -> c_id c = id ->
  exists c', config_GetByID (repo_UpdateHash db id h) id = Some c' /\ c_config_hash c' = Some h.
Proof.
  intros Hin Hid; unfold config_GetByID, repo_UpdateHash; simpl.
  rewrite find_map_invariant.
  - destruct (find_in_some (fun c => Nat.eqb (c_id c) id) (configs db) c Hin)
      as [y [Hy Hyid]]; [subst; apply Nat.eqb_refl|].
    rewrite Hy; simpl; rewrite Hyid; eexists; split; reflexivity.
  - intros x; destruct (Nat.eqb (c_id x) id) eqn:E; simpl; rewrite ?E; reflexivity.
Qed.

(** C2. A poll from a hostname with a record and an assigned active
    configuration: the response is [unchanged = true] exactly when the
    stored fingerprint is non-empty and equals the presented one;
    otherwise it is [unchanged = false] with the fingerprint (computed and
    persisted onto the configuration when the stored one is empty) and the
    three compiled artifacts.  The proxy's [last_seen] becomes [now]. *)
Theorem GetConfig_poll (sort : SortSlice) (db : DB) (now : Z) (hostname currentHash : string)
    (proxy : Proxy) (cfg : Config) :
  GetByHostname db hostname = Some proxy ->
  GetActiveForProxy db hostname = Some cfg ->
  let stored := match c_config_hash cfg with Some h => h | None => "" end in
  let db' := fst (GetConfig sort db now hostname currentHash) in
  let r := snd (GetConfig sort db now hostname currentHash) in
  (exists p', GetByHostname db' hostname = Some p' /\ px_id p' = px_id proxy /\
              px_last_seen p' = Some now) /\
  (stored <> "" /\ stored = currentHash ->
     exists resp, r = Ok resp /\ cr_unchanged resp = true) /\
  (~ (stored <> "" /\ stored = currentHash) ->
     exists resp, r = Ok resp /\ cr_unchanged resp = false /\
       cr_config resp = Some (GenerateConfigFiles sort (c_rules cfg)) /\
       cr_hash resp = (if String.eqb stored "" then GenerateConfigHash sort (c_rules cfg)
                       else stored) /\
       (stored = "" ->
          exists c', config_GetByID db' (c_id cfg) = Some c' /\
                     c_config_hash c' = Some (GenerateConfigHash sort (c_rules cfg)))).
Proof.
  intros Hget Hcfg stored db' r; subst db' r; unfold GetConfig; rewrite Hget.
  unfold UpdateLastSeen; rewrite GetActiveForProxy_update_proxy by reflexivity.
  rewrite Hcfg; fold stored.
  assert (Hin : In cfg (configs db)) by (apply find_some in Hcfg; tauto).
  assert (Hls : GetByHostname (update_proxy db (px_id proxy) (fun p =>
    {| px_id := px_id p; px_hostname := px_hostname p; px_config_id := px_config_id p;
       px_is_online := true; px_last_seen := Some now;
       px_current_config_hash := px_current_config_hash p;
       px_registered_ip := px_registered_ip p;
       px_capture_logs_until := px_capture_logs_until p |})) hostname =
    Some {| px_id := px_id proxy; px_hostname := px_hostname proxy;
            px_config_id := px_config_id proxy; px_is_online := true;
            px_last_seen := Some now;
            px_current_config_hash := px_current_config_hash proxy;
            px_registered_ip := px_registered_ip proxy;
            px_capture_logs_until := px_capture_logs_until proxy |})
    by (apply GetByHostname_update; [reflexivity | exact Hget]).
  destruct (negb (String.eqb stored "") && String.eqb stored currentHash) eqn:Eu.
  - apply andb_prop in Eu as [E1 E2]; apply negb_true_iff, String.eqb_neq in E1.
    apply String.eqb_eq in E2; cbn [fst snd].
    split; [eexists; split; [exact Hls | split; reflexivity]|].
    split; [intros _; eexists; split; reflexivity|].
    intros Hn; exfalso; tauto.
  - assert (Hnot : ~ (stored <> "" /\ stored = currentHash)).
    { intros [H1 H2]; apply String.eqb_neq in H1; subst currentHash.
      rewrite H1, String.eqb_refl in Eu; discriminate. }
    destruct (String.eqb stored "") eqn:Es; cbn [fst snd].
    + apply String.eqb_eq in Es.
      split; [eexists; split; [exact Hls | split; reflexivity]|].
      split; [intros H; exfalso; tauto|].
      intros _; eexists; split; [reflexivity|]; cbn [cr_unchanged cr_config cr_hash].
      split; [reflexivity | split; [reflexivity | split; [reflexivity|]]].
      intros _; apply (config_GetByID_UpdateHash _ _ _ cfg); [exact Hin | reflexivity].
    + apply String.eqb_neq in Es.
      split; [eexists; split; [exact Hls | split; reflexivity]|].
      split; [intros H; exfalso; tauto|].
      intros _; eexists; split; [reflexivity|]; cbn [cr_unchanged cr_config cr_hash].
      split; [reflexivity | split; [reflexivity | split; [reflexivity|]]].
      intros H; exfalso; exact (Es H).
Qed.

(** ** The lifecycle invariant *)

Lemma map_c_id_map (g : Config -> Config) (l : list Config) :
  (forall c, c_id (g c) = c_id c) -> map c_id (map g l) = map c_id l.
Proof. intros H; rewrite map_map; apply map_ext; exact H. Qed.

Lemma wf_list_map (sort : SortSlice) (g : Config -> Config) (l : list Config) :
  wf_list sort l ->
  (forall c, c_id (g c) = c_id c) ->
  (forall c, In c l -> row_ok sort c -> row_ok sort (g c)) ->
  wf_list sort (map g l).
Proof.
  intros [Hnd Hrows] Hid Hg; split; [rewrite map_c_id_map; auto|].
  intros c' Hin; apply in_map_iff in Hin as [c [<- Hc]]; auto.
Qed.

Lemma wf_list_app_fresh (sort : SortSlice) (l : list Config) (c : Config) :
  wf_list sort l -> ~ In (c_id c) (map c_id l) -> row_ok sort c -> wf_list sort (l ++ [c]).
Proof.
  intros [Hnd Hrows] Hfresh Hc; split.
  - rewrite map_app; simpl; apply NoDup_app; auto using NoDup_cons, NoDup_nil.
    intros x Hx Hx'; destruct Hx' as [<- | []]; auto.
  - intros c' Hin; apply in_app_or in Hin as [Hin | [<- | []]]; auto.
Qed.

Lemma nodup_ids_eq (l : list Config) (x y : Config) :
  NoDup (map c_id l) -> In x l -> In y l -> c_id x = c_id y -> x = y.
Proof.
  induction l as [| z l IH]; intros Hnd Hx Hy Hxy; [destruct Hx|].
  simpl in Hnd; inversion Hnd as [| ? ? Hz Hnd']; subst.
  destruct Hx as [<- | Hx], Hy as [<- | Hy]; auto.
  - exfalso; apply Hz; rewrite Hxy; apply in_map; auto.
  - exfalso; apply Hz; rewrite <- Hxy; apply in_map; auto.
Qed.

Lemma draft_row_ok (sort : SortSlice) (c : Config) :
  c_status c = StatusDraft -> c_config_hash c = None -> row_ok sort c.
Proof. intros Hs Hh; split; [rewrite Hs; intros [H|H]; discriminate | intros h; congruence]. Qed.

Lemma status_eqb_true (a b : ConfigStatus) : status_eqb a b = true -> a = b.
Proof. destruct a, b; simpl; congruence. Qed.

Lemma status_eqb_refl (a : ConfigStatus) : status_eqb a a = true.
Proof. destruct a; reflexivity. Qed.

(** A draft or pending row has no fingerprint. *)
Lemma row_ok_unapproved_hash (sort : SortSlice) (c : Config) :
  row_ok sort c -> c_status c = StatusDraft \/ c_status c = StatusPendingApproval ->
  c_config_hash c = None.
Proof.
  intros [_ Hh] Hs; destruct (c_config_hash c) as [h|] eqn:E; auto.
  destruct (Hh h eq_refl) as [[H|H] _]; destruct Hs as [H'|H']; congruence.
Qed.

Lemma DeactivateOthers_wf (sort : SortSlice) (db : DB) (id : UUID) :
  wf_list sort (configs db) -> wf_list sort (configs (DeactivateOthers db id)).
Proof.
  intros Hwf; unfold DeactivateOthers; simpl; apply wf_list_map; auto.
  - intros c; destruct (_ && _); reflexivity.
  - intros c _ [Ha Hh].
    destruct (status_eqb (c_status c) StatusActive && _ && _) eqn:E; [|split; auto].
    apply andb_prop in E as [E _]; apply andb_prop in E as [E _].
    apply status_eqb_true in E.
    split; simpl.
    + intros _; apply Ha; auto.
    + intros h Hc; destruct (Hh h Hc) as [_ Hx]; split; auto.
Qed.

Lemma DeactivateOthers_rows (db : DB) (id : UUID) (c : Config) :
  In c (configs (DeactivateOthers db id)) ->
  exists c0, In c0 (configs db) /\
    ((c = c0 /\ (c_status c0 = StatusActive -> c_id c0 <> id ->
                 shares_proxy db id (c_id c0) = false)) \/
     (c = with_status c0 StatusApproved)).
Proof.
  unfold DeactivateOthers; simpl; intros Hin; apply in_map_iff in Hin as [c0 [Hc Hin]].
  exists c0; split; auto.
  destruct (status_eqb (c_status c0) StatusActive && negb (Nat.eqb (c_id c0) id)
            && shares_proxy db id (c_id c0)) eqn:E; [right; auto|left; split; auto].
  intros Ha Hid; apply Nat.eqb_neq in Hid.
  rewrite Ha, Hid in E; simpl in E; exact E.
Qed.

Lemma Create_wf (sort : SortSlice) (db : DB) (newID u : UUID) (req : CreateConfigRequest) :
  wf_list sort (configs db) -> ~ In newID (map c_id (configs db)) ->
  wf_list sort (configs (fst (Create db newID u req))).
Proof.
  intros Hwf Hfresh; unfold Create.
  destruct (String.eqb (req_name req) ""); [exact Hwf|].
  destruct (validateRules req); [|exact Hwf].
  cbn [fst configs]; apply wf_list_app_fresh; auto; apply draft_row_ok; reflexivity.
Qed.

Lemma Clone_wf (sort : SortSlice) (db : DB) (id newID : UUID) :
  wf_list sort (configs db) -> ~ In newID (map c_id (configs db)) ->
  wf_list sort (configs (fst (Clone db id newID))).
Proof.
  intros Hwf Hfresh; unfold Clone.
  destruct (config_GetByID db id) as [cfg0|]; [|exact Hwf].
  cbn [fst configs]; apply wf_list_app_fresh; auto; apply draft_row_ok; reflexivity.
Qed.

Lemma Update_wf (sort : SortSlice) (db : DB) (id u : UUID) (req : CreateConfigRequest) :
  wf_list sort (configs db) -> wf_list sort (configs (fst (Update db id u req))).
Proof.
  intros Hwf; unfold Update.
  destruct (validateRules req); [|exact Hwf].
  destruct (config_GetByID db id) as [cfg0|]; [|exact Hwf].
  destruct (negb _); [exact Hwf|].
  cbn [fst configs]; apply wf_list_map; auto.
  - intros c; destruct (_ && _); reflexivity.
  - intros c _ Hok; destruct (Nat.eqb (c_id c) id && status_eqb (c_status c) StatusDraft) eqn:E;
      [|exact Hok].
    apply andb_prop in E as [_ E]; apply status_eqb_true in E.
    apply draft_row_ok; [exact E|].
    cbn [c_config_hash]; apply (row_ok_unapproved_hash sort c Hok); auto.
Qed.

Lemma Submit_wf (sort : SortSlice) (db : DB) (id u : UUID) :
  wf_list sort (configs db) -> wf_list sort (configs (fst (Submit db id u))).
Proof.
  intros Hwf; unfold Submit, repo_Submit.
  destruct (existsb _ _); [|exact Hwf].
  cbn [fst configs set_configs]; apply wf_list_map; auto.
  - intros c; destruct (_ && _); reflexivity.
  - intros c _ Hok; destruct (Nat.eqb (c_id c) id && status_eqb (c_status c) StatusDraft) eqn:E;
      [|exact Hok].
    apply andb_prop in E as [_ E]; apply status_eqb_true in E.
    split; cbn [c_status c_config_hash].
    + intros [H|H]; discriminate.
    + intros h Hh; rewrite (row_ok_unapproved_hash sort c Hok) in Hh; [discriminate | auto].
Qed.

Lemma Reject_wf (sort : SortSlice) (db : DB) (id : UUID) :
  wf_list sort (configs db) -> wf_list sort (configs (fst (Reject db id))).
Proof.
  intros Hwf; unfold Reject, repo_Reject.
  destruct (existsb _ _); [|exact Hwf].
  cbn [fst configs set_configs]; apply wf_list_map; auto.
  - intros c; destruct (_ && _); reflexivity.
  - intros c _ Hok;
      destruct (Nat.eqb (c_id c) id && status_eqb (c_status c) StatusPendingApproval) eqn:E;
      [|exact Hok].
    apply andb_prop in E as [_ E]; apply status_eqb_true in E.
    apply draft_row_ok; [reflexivity|].
    cbn [c_config_hash]; apply (row_ok_unapproved_hash sort c Hok); auto.
Qed.

Lemma Approve_wf (sort : SortSlice) (db : DB) (id u : UUID) :
  wf_list sort (configs db) -> wf_list sort (configs (fst (Approve sort db id u))).
Proof.
  intros Hwf; unfold Approve.
  destruct (config_GetByID db id) as [cfg|] eqn:Eg; [|exact Hwf].
  destruct (negb (status_eqb (c_status cfg) StatusPendingApproval)); [exact Hwf|].
  destruct (c_submitted_by cfg) as [sb|] eqn:Esb; [|exact Hwf].
  destruct (negb (Nat.eqb sb u)) eqn:Eu; [exact Hwf|].
  apply negb_false_iff, Nat.eqb_eq in Eu; subst sb.
  pose proof (DeactivateOthers_wf sort db id Hwf) as Hd.
  unfold config_GetByID in Eg; apply find_some in Eg as [Hcfg Hid]; apply Nat.eqb_eq in Hid.
  unfold repo_Approve.
  destruct (existsb _ _); [|exact Hd].
  cbn [fst configs set_configs]; apply wf_list_map; auto.
  - intros c; destruct (_ && _); reflexivity.
  - intros c Hin Hok;
      destruct (Nat.eqb (c_id c) id && status_eqb (c_status c) StatusPendingApproval) eqn:E;
      [|exact Hok].
    apply andb_prop in E as [E1 E2]; apply Nat.eqb_eq in E1; apply status_eqb_true in E2.
    destruct (DeactivateOthers_rows db id c Hin) as [c0 [Hc0 [[-> _] | ->]]];
      [| discriminate E2].
    assert (c0 = cfg) as -> by (apply (nodup_ids_eq (configs db)); [apply Hwf | auto | auto | congruence]).
    split; cbn [c_status c_approved_by c_submitted_by c_config_hash c_rules].
    + intros _; rewrite Esb; split; congruence.
    + intros h Hh; injection Hh as <-; auto.
Qed.

Lemma UpdateLastSeen_configs (db : DB) (id : UUID) (now : Z) :
  configs (UpdateLastSeen db id now) = configs db.
Proof. reflexivity. Qed.

Lemma GetConfig_wf (sort : SortSlice) (db : DB) (now : Z) (h cur : string) :
  wf_list sort (configs db) -> wf_list sort (configs (fst (GetConfig sort db now h cur))).
Proof.
  intros Hwf; unfold GetConfig.
  destruct (GetByHostname db h) as [proxy|]; [|exact Hwf].
  destruct (GetActiveForProxy _ h) as [cfg|] eqn:Ea; [|exact Hwf].
  destruct (negb _ && _); [exact Hwf|].
  destruct (String.eqb _ ""); [|exact Hwf].
  unfold GetActiveForProxy in Ea; apply find_some in Ea as [Hcfg Hact].
  apply andb_prop in Hact as [Hact _]; apply status_eqb_true in Hact.
  cbn [fst]; unfold repo_UpdateHash, UpdateLastSeen, update_proxy, set_proxies in *.
  cbn [configs set_configs] in *; apply wf_list_map; auto.
  - intros c; destruct (Nat.eqb _ _); reflexivity.
  - intros c Hin Hok; destruct (Nat.eqb (c_id c) (c_id cfg)) eqn:E; [|exact Hok].
    apply Nat.eqb_eq in E.
    assert (c = cfg) as -> by (apply (nodup_ids_eq (configs db)); [apply Hwf | auto | auto | congruence]).
    destruct Hok as [Ha _]; split; cbn [c_status c_approved_by c_submitted_by c_config_hash c_rules].
    + exact Ha.
    + intros h' Hh; injection Hh as <-; auto.
Qed.

Lemma Register_configs (db : DB) (now : Z) (newID : UUID) (req : RegisterRequest) :
  configs (fst (Register db now newID req)) = configs db.
Proof.
  unfold Register; destruct (String.eqb _ _); [reflexivity|].
  destruct (GetByHostname _ _); [destruct (_ && _ && _)|]; reflexivity.
Qed.

Lemma Ack_configs (db : DB) (now : Z) (req : AckRequest) :
  configs (fst (Ack db now req)) = configs db.
Proof.
  unfold Ack; destruct (GetByHostname _ _); [destruct (String.eqb _ _)|]; reflexivity.
Qed.

Lemma lifecycle_step_wf (sort : SortSlice) (db db' : DB) :
  lifecycle_step sort db db' -> wf_list sort (configs db) -> wf_list sort (configs db').
Proof.
  intros Hs Hwf; destruct Hs.
  - apply Create_wf; auto.
  - apply Update_wf; auto.
  - apply Clone_wf; auto.
  - apply Submit_wf; auto.
  - apply Reject_wf; auto.
  - apply Approve_wf; auto.
  - apply GetConfig_wf; auto.
  - rewrite Register_configs; auto.
  - rewrite Ack_configs; auto.
Qed.

Lemma reachable_wf (sort : SortSlice) (db : DB) :
  reachable sort db -> wf_list sort (configs db).
Proof.
  induction 1 as [| db db' _ IH Hs].
  - split; [constructor | intros c []].
  - eapply lifecycle_step_wf; eauto.
Qed.

Lemma DeactivateOthers_keeps_inactive (db : DB) (id : UUID) (c : Config) :
  In c (configs db) -> c_status c <> StatusActive -> In c (configs (DeactivateOthers db id)).
Proof.
  intros Hin Hs; unfold DeactivateOthers; cbn [configs set_configs].
  apply in_map_iff; exists c; split; auto.
  destruct (status_eqb (c_status c) StatusActive) eqn:E; [apply status_eqb_true in E; congruence|].
  reflexivity.
Qed.

(** Shape of a call to [Approve] that passed its checks. *)
Lemma Approve_passes (sort : SortSlice) (db : DB) (id user : UUID) (cfg : Config) :
  config_GetByID db id = Some cfg -> c_status cfg = StatusPendingApproval ->
  c_submitted_by cfg = Some user ->
  exists db2, repo_Approve (DeactivateOthers db id) id user (GenerateConfigHash sort (c_rules cfg))
              = Ok db2 /\ Approve sort db id user = (db2, Ok tt).
Proof.
  intros Hget Hpend Hsb; unfold Approve; rewrite Hget, Hpend, status_eqb_refl, Hsb.
  rewrite Nat.eqb_refl; cbn [negb].
  assert (Hin : In cfg (configs db)) by (apply find_some in Hget; apply Hget).
  assert (Hid : c_id cfg = id) by (apply find_some in Hget as [_ H]; apply Nat.eqb_eq; exact H).
  assert (Hd : In cfg (configs (DeactivateOthers db id)))
    by (apply DeactivateOthers_keeps_inactive; auto; rewrite Hpend; discriminate).
  unfold repo_Approve at 1 2.
  replace (existsb _ (configs (DeactivateOthers db id))) with true.
  - eexists; split; reflexivity.
  - symmetry; apply existsb_exists; exists cfg; split; auto.
    rewrite Hid, Nat.eqb_refl, Hpend; reflexivity.
Qed.

(* ------------------------------------------------------------------ *)
(** ** C4: approval by the submitter *)

(** C4: on a pending configuration, [Approve] succeeds exactly when the
    caller is the configuration's submitter; any other caller gets
    [ErrForbidden] and the database, with the configuration still pending,
    is unchanged. In every reachable state each active configuration has
    [approved_by = submitted_by], both set. *)
Theorem Approve_requires_submitter (sort : SortSlice) (db : DB) (id user : UUID) (cfg : Config)
    (Hget : config_GetByID db id = Some cfg)
    (Hpend : c_status cfg = StatusPendingApproval) :
  (snd (Approve sort db id user) = Ok tt <-> c_submitted_by cfg = Some user) /\
  (c_submitted_by cfg <> Some user ->
     Approve sort db id user = (db, Fail ErrForbidden) /\
     config_GetByID (fst (Approve sort db id user)) id = Some cfg) /\
  (forall db', reachable sort db' ->
     forall c, In c (configs db') -> c_status c = StatusActive ->
       c_approved_by c <> None /\ c_approved_by c = c_submitted_by c).
Proof.
  assert (Hforb : c_submitted_by cfg <> Some user ->
                  Approve sort db id user = (db, Fail ErrForbidden)).
  { intros Hne; unfold Approve; rewrite Hget, Hpend, status_eqb_refl; cbn [negb].
    destruct (c_submitted_by cfg) as [sb|]; [|reflexivity].
    destruct (Nat.eqb sb user) eqn:E; [apply Nat.eqb_eq in E; congruence | reflexivity]. }
  split; [split|split].
  - intros Hok.
    assert (Hd : c_submitted_by cfg = Some user \/ c_submitted_by cfg <> Some user)
      by (destruct (c_submitted_by cfg) as [sb|];
          [destruct (Nat.eq_dec sb user); [left; congruence | right; congruence]
          | right; discriminate]).
    destruct Hd as [H|H]; auto.
    rewrite (Hforb H) in Hok; discriminate.
  - intros Hsb; destruct (Approve_passes sort db id user cfg Hget Hpend Hsb) as [db2 [_ ->]].
    reflexivity.
  - intros Hne; rewrite (Hforb Hne); split; auto.
  - intros db' Hr c Hin Hact.
    apply (proj2 (reachable_wf sort db' Hr)) in Hin as [Ha _]; auto.
Qed.

(* ------------------------------------------------------------------ *)
(** ** One active configuration per proxy *)

Lemma shares_proxy_true (db : DB) (id cid p : UUID) :
  assigned db id p -> assigned db cid p -> shares_proxy db id cid = true.
Proof.
  intros H1 H2; unfold shares_proxy; apply existsb_exists; exists (cid, p); split; auto.
  cbn [fst snd]; rewrite Nat.eqb_refl; cbn [andb].
  apply existsb_exists; exists (id, p); split; auto.
  cbn [fst snd]; rewrite !Nat.eqb_refl; reflexivity.
Qed.

(** The active rows after a step come from active rows before it, with
    their assignments. *)
Lemma one_active_mono (db db' : DB) :
  (forall c', In c' (configs db') -> c_status c' = StatusActive ->
     exists c0, In c0 (configs db) /\ c_status c0 = StatusActive /\ c_id c0 = c_id c') ->
  (forall c' p, In c' (configs db') -> c_status c' = StatusActive ->
     assigned db' (c_id c') p -> assigned db (c_id c') p) ->
  one_active_per_proxy db -> one_active_per_proxy db'.
Proof.
  intros Hrows Hasg Hone p c1 c2 H1 H2 A1 A2 P1 P2.
  destruct (Hrows c1 H1 A1) as [d1 [D1 [B1 E1]]], (Hrows c2 H2 A2) as [d2 [D2 [B2 E2]]].
  rewrite <- E1, <- E2; apply (Hone p); auto; [rewrite E1 | rewrite E2]; eauto.
Qed.

(** The rows an approval may leave active next to the approved id. *)
Lemma one_active_after_approval (db db' : DB) (id : UUID) :
  config_proxies db' = config_proxies db ->
  (forall c', In c' (configs db') -> c_status c' = StatusActive ->
     c_id c' = id \/ (In c' (configs db) /\ shares_proxy db id (c_id c') = false)) ->
  one_active_per_proxy db -> one_active_per_proxy db'.
Proof.
  intros Hcp Hrows Hone p c1 c2 H1 H2 A1 A2 P1 P2.
  unfold assigned in P1, P2; rewrite Hcp in P1, P2.
  destruct (Hrows c1 H1 A1) as [I1 | [D1 S1]], (Hrows c2 H2 A2) as [I2 | [D2 S2]].
  - congruence.
  - rewrite I1 in P1; rewrite (shares_proxy_true db id (c_id c2) p P1 P2) in S2; discriminate.
  - rewrite I2 in P2; rewrite (shares_proxy_true db id (c_id c1) p P2 P1) in S1; discriminate.
  - apply (Hone p); auto.
Qed.

Lemma DeactivateOthers_active (db : DB) (id : UUID) (c : Config) :
  In c (configs (DeactivateOthers db id)) -> c_status c = StatusActive ->
  In c (configs db) /\ (c_id c = id \/ shares_proxy db id (c_id c) = false).
Proof.
  intros Hin Ha; destruct (DeactivateOthers_rows db id c Hin) as [c0 [Hc0 [[-> H] | ->]]].
  - split; auto; destruct (Nat.eq_dec (c_id c0) id); auto.
  - discriminate Ha.
Qed.

Lemma repo_Approve_rows (d d2 : DB) (id u : UUID) (h : string) (c : Config) :
  repo_Approve d id u h = Ok d2 -> In c (configs d2) ->
  c_id c = id \/ In c (configs d).
Proof.
  unfold repo_Approve; destruct (existsb _ _); [|discriminate].
  intros Heq; injection Heq as <-; cbn [configs set_configs]; intros Hin.
  apply in_map_iff in Hin as [c0 [<- Hc0]].
  destruct (Nat.eqb (c_id c0) id && _) eqn:E; [left | right; auto].
  apply andb_prop in E as [E _]; apply Nat.eqb_eq; exact E.
Qed.

Lemma repo_Approve_proxies (d d2 : DB) (id u : UUID) (h : string) :
  repo_Approve d id u h = Ok d2 -> config_proxies d2 = config_proxies d.
Proof.
  unfold repo_Approve; destruct (existsb _ _); [|discriminate].
  intros Heq; injection Heq as <-; reflexivity.
Qed.

Lemma Approve_one_active (sort : SortSlice) (db : DB) (id u : UUID) :
  one_active_per_proxy db -> one_active_per_proxy (fst (Approve sort db id u)).
Proof.
  intros Hone.
  assert (HD : one_active_per_proxy (DeactivateOthers db id)).
  { apply (one_active_after_approval db _ id); auto.
    intros c Hin Ha; destruct (DeactivateOthers_active db id c Hin Ha) as [H [H'|H']]; auto. }
  unfold Approve.
  destruct (config_GetByID db id) as [cfg|]; [|exact Hone].
  destruct (negb _); [exact Hone|].
  destruct (c_submitted_by cfg) as [sb|]; [|exact Hone].
  destruct (negb _); [exact Hone|].
  destruct (repo_Approve _ _ _ _) as [d2|e] eqn:E; cbn [fst]; [|exact HD].
  apply (one_active_after_approval db _ id); auto.
  - rewrite (repo_Approve_proxies _ _ _ _ _ E); reflexivity.
  - intros c Hin Ha; destruct (repo_Approve_rows _ _ _ _ _ c E Hin) as [H|H]; auto.
    destruct (DeactivateOthers_active db id c H Ha) as [H1 [H2|H2]]; auto.
Qed.

Lemma run_approvals_one_active (sort : SortSlice) (ops : list (UUID * UUID)) :
  forall db, one_active_per_proxy db -> one_active_per_proxy (run_approvals sort db ops).
Proof.
  induction ops as [| [id u] ops IH]; intros db Hone; simpl; auto.
  apply IH, Approve_one_active, Hone.
Qed.

Lemma active_rows_map (g : Config -> Config) (l : list Config) :
  (forall c, c_status (g c) = StatusActive -> c_status c = StatusActive /\ c_id (g c) = c_id c) ->
  forall c', In c' (map g l) -> c_status c' = StatusActive ->
    exists c0, In c0 l /\ c_status c0 = StatusActive /\ c_id c0 = c_id c'.
Proof.
  intros Hg c' Hin Ha; apply in_map_iff in Hin as [c0 [<- Hc0]].
  destruct (Hg c0 Ha); eauto.
Qed.

Lemma active_rows_self (l : list Config) (c' : Config) :
  In c' l -> c_status c' = StatusActive ->
  exists c0, In c0 l /\ c_status c0 = StatusActive /\ c_id c0 = c_id c'.
Proof. eauto. Qed.

Lemma active_rows_app_draft (l : list Config) (c : Config) (c' : Config) :
  c_status c = StatusDraft -> In c' (l ++ [c]) -> c_status c' = StatusActive -> In c' l.
Proof.
  intros Hs Hin Ha; apply in_app_or in Hin as [H | [<- | []]]; auto; congruence.
Qed.

Lemma Create_one_active (sort : SortSlice) (db : DB) (newID u : UUID) (req : CreateConfigRequest) :
  ~ In newID (map c_id (configs db)) ->
  one_active_per_proxy db -> one_active_per_proxy (fst (Create db newID u req)).
Proof.
  intros Hfresh Hone; unfold Create.
  destruct (String.eqb (req_name req) ""); [exact Hone|].
  destruct (validateRules req); [|exact Hone].
  cbn [fst]; apply (one_active_mono db); auto; cbn [configs config_proxies]; unfold assigned;
    cbn [config_proxies].
  - intros c' Hin Ha; apply active_rows_self; auto.
    eapply active_rows_app_draft; [|exact Hin|exact Ha]; reflexivity.
  - intros c' p Hin Ha Hp; apply active_rows_app_draft in Hin; [|reflexivity|exact Ha].
    apply in_app_or in Hp as [Hp|Hp]; auto.
    apply in_map_iff in Hp as [pid [Hp _]]; injection Hp as Hp _.
    exfalso; apply Hfresh; rewrite Hp; apply in_map; exact Hin.
Qed.

Lemma Clone_one_active (sort : SortSlice) (db : DB) (id newID : UUID) :
  ~ In newID (map c_id (configs db)) ->
  one_active_per_proxy db -> one_active_per_proxy (fst (Clone db id newID)).
Proof.
  intros Hfresh Hone; unfold Clone.
  destruct (config_GetByID db id) as [orig|]; [|exact Hone].
  cbn [fst]; apply (one_active_mono db); auto; cbn [configs config_proxies]; unfold assigned;
    cbn [config_proxies].
  - intros c' Hin Ha; apply active_rows_self; auto.
    eapply active_rows_app_draft; [|exact Hin|exact Ha]; reflexivity.
  - intros c' p Hin Ha Hp; apply active_rows_app_draft in Hin; [|reflexivity|exact Ha].
    apply in_app_or in Hp as [Hp|Hp]; auto.
    apply in_map_iff in Hp as [cp [Hp _]]; injection Hp as Hp _.
    exfalso; apply Hfresh; rewrite Hp; apply in_map; exact Hin.
Qed.

Lemma Update_one_active (sort : SortSlice) (db : DB) (id u : UUID) (req : CreateConfigRequest) :
  NoDup (map c_id (configs db)) ->
  one_active_per_proxy db -> one_active_per_proxy (fst (Update db id u req)).
Proof.
  intros Hnd Hone; unfold Update.
  destruct (validateRules req); [|exact Hone].
  destruct (config_GetByID db id) as [cfg|] eqn:Eg; [|exact Hone].
  destruct (negb (status_eqb (c_status cfg) StatusDraft)) eqn:Ed; [exact Hone|].
  apply negb_false_iff, status_eqb_true in Ed.
  unfold config_GetByID in Eg; apply find_some in Eg as [Hcfg Hid]; apply Nat.eqb_eq in Hid.
  assert (Hg : forall c, c_status c = StatusActive ->
    (if Nat.eqb (c_id c) id && status_eqb (c_status c) StatusDraft then
       {| c_id := c_id c; c_status := c_status c; c_submitted_by := c_submitted_by c;
          c_approved_by := c_approved_by c; c_config_hash := c_config_hash c;
          c_rules := {| r_domains := req_domains req; r_ip_ranges := req_ip_ranges req;
                        r_parents := req_parents req; r_client_acl := req_client_acl req;
                        r_default_action := if String.eqb (req_default_action req) ""
                                            then ActionDirect else req_default_action req |} |}
     else c) = c).
  { intros c Ha; rewrite Ha; cbn [status_eqb]; rewrite andb_false_r; reflexivity. }
  cbn [fst]; apply (one_active_mono db); auto; cbn [configs config_proxies]; unfold assigned;
    cbn [config_proxies].
  - apply active_rows_map; intros c; destruct (_ && _); cbn [c_status c_id]; auto.
  - intros c' p Hin Ha Hp; apply in_map_iff in Hin as [c0 [Hc' Hc0]].
    assert (Ha0 : c_status c0 = StatusActive)
      by (destruct (_ && _); rewrite <- Hc' in Ha; exact Ha).
    rewrite Hg in Hc' by exact Ha0; subst c'.
    apply in_app_or in Hp as [Hp|Hp]; [apply filter_In in Hp; apply Hp|].
    apply in_map_iff in Hp as [pid [Hp _]]; injection Hp as Hp _.
    assert (c0 = cfg) as -> by (apply (nodup_ids_eq (configs db)); auto; congruence).
    congruence.
Qed.

Lemma Submit_one_active (db : DB) (id u : UUID) :
  one_active_per_proxy db -> one_active_per_proxy (fst (Submit db id u)).
Proof.
  intros Hone; unfold Submit, repo_Submit.
  destruct (existsb _ _); [|exact Hone].
  cbn [fst]; apply (one_active_mono db); auto; cbn [configs set_configs].
  apply active_rows_map; intros c; destruct (_ && _); cbn [c_status c_id]; auto; discriminate.
Qed.

Lemma Reject_one_active (db : DB) (id : UUID) :
  one_active_per_proxy db -> one_active_per_proxy (fst (Reject db id)).
Proof.
  intros Hone; unfold Reject, repo_Reject.
  destruct (existsb _ _); [|exact Hone].
  cbn [fst]; apply (one_active_mono db); auto; cbn [configs set_configs].
  apply active_rows_map; intros c; destruct (_ && _); cbn [c_status c_id]; auto; discriminate.
Qed.

Lemma GetConfig_one_active (sort : SortSlice) (db : DB) (now : Z) (h cur : string) :
  one_active_per_proxy db -> one_active_per_proxy (fst (GetConfig sort db now h cur)).
Proof.
  intros Hone; unfold GetConfig.
  destruct (GetByHostname db h) as [proxy|]; [|exact Hone].
  destruct (GetActiveForProxy _ h) as [cfg|]; [|exact Hone].
  destruct (negb _ && _); [exact Hone|].
  destruct (String.eqb _ ""); [|exact Hone].
  cbn [fst]; unfold repo_UpdateHash, UpdateLastSeen, update_proxy, set_proxies.
  apply (one_active_mono db); auto; cbn [configs set_configs].
  apply active_rows_map; intros c; destruct (Nat.eqb _ _); cbn [c_status c_id]; auto.
Qed.

Lemma Register_proxies (db : DB) (now : Z) (newID : UUID) (req : RegisterRequest) :
  config_proxies (fst (Register db now newID req)) = config_proxies db.
Proof.
  unfold Register; destruct (String.eqb _ _); [reflexivity|].
  destruct (GetByHostname _ _); [destruct (_ && _ && _)|]; reflexivity.
Qed.

Lemma Ack_proxies (db : DB) (now : Z) (req : AckRequest) :
  config_proxies (fst (Ack db now req)) = config_proxies db.
Proof.
  unfold Ack; destruct (GetByHostname _ _); [destruct (String.eqb _ _)|]; reflexivity.
Qed.

Lemma same_tables_one_active (db db' : DB) :
  configs db' = configs db -> config_proxies db' = config_proxies db ->
  one_active_per_proxy db -> one_active_per_proxy db'.
Proof.
  intros Hc Hp Hone p c1 c2; unfold assigned; rewrite Hc, Hp; apply Hone.
Qed.

Lemma reachable_one_active (sort : SortSlice) (db : DB) :
  reachable sort db -> one_active_per_proxy db.
Proof.
  induction 1 as [| db db' Hr IH Hs].
  - intros p c1 c2 [].
  - pose proof (proj1 (reachable_wf sort db Hr)) as Hnd.
    destruct Hs.
    + apply Create_one_active; auto.
    + apply Update_one_active; auto.
    + apply Clone_one_active; auto.
    + apply Submit_one_active; auto.
    + apply Reject_one_active; auto.
    + apply Approve_one_active; auto.
    + apply GetConfig_one_active; auto.
    + apply same_tables_one_active with db; auto using Register_configs, Register_proxies.
    + apply same_tables_one_active with db; auto using Ack_configs, Ack_proxies.
Qed.

Lemma Approve_success_shape (sort : SortSlice) (db : DB) (id u : UUID) :
  snd (Approve sort db id u) = Ok tt ->
  exists h, repo_Approve (DeactivateOthers db id) id u h = Ok (fst (Approve sort db id u)).
Proof.
  unfold Approve.
  destruct (config_GetByID db id) as [cfg|]; [|discriminate].
  destruct (negb _); [discriminate|].
  destruct (c_submitted_by cfg) as [sb|]; [|discriminate].
  destruct (negb _); [discriminate|].
  destruct (repo_Approve _ _ _ _) as [d2|e] eqn:E; cbn [fst snd]; [|discriminate].
  intros _; eexists; exact E.
Qed.

Lemma repo_Approve_active (d d2 : DB) (id u : UUID) (h : string) :
  repo_Approve d id u h = Ok d2 ->
  exists c, In c (configs d2) /\ c_id c = id /\ c_status c = StatusActive /\
            c_approved_by c = Some u /\ c_config_hash c = Some h.
Proof.
  unfold repo_Approve; destruct (existsb _ _) eqn:Ex; [|discriminate].
  intros Heq; injection Heq as <-; cbn [configs set_configs].
  apply existsb_exists in Ex as [x [Hx Hhit]].
  eexists; split; [apply in_map; exact Hx|]; rewrite Hhit; cbn [c_id c_status c_approved_by c_config_hash].
  apply andb_prop in Hhit as [Hhit _]; apply Nat.eqb_eq in Hhit; auto.
Qed.

Lemma repo_Approve_keeps_approved (d d2 : DB) (id u : UUID) (h : string) (c : Config) :
  repo_Approve d id u h = Ok d2 -> In c (configs d) -> c_status c = StatusApproved ->
  In c (configs d2).
Proof.
  unfold repo_Approve; destruct (existsb _ _); [|discriminate].
  intros Heq Hin Hs; injection Heq as <-; cbn [configs set_configs].
  apply in_map_iff; exists c; split; auto; rewrite Hs, andb_false_r; reflexivity.
Qed.

(* ------------------------------------------------------------------ *)
(** ** C1: at most one active configuration per proxy *)

(** C1: any finite sequence of approvals from a state with at most one
    active configuration per proxy keeps that property, and so does every
    state reachable from the empty database. A successful approval of [id]
    leaves a row of [id] active, and every other configuration that was
    active and shares a proxy with [id] is now [approved] (its row with the
    status changed) with no active row of its id left. *)
Theorem approvals_one_active_per_proxy (sort : SortSlice) (db : DB) (ops : list (UUID * UUID))
    (Hinit : one_active_per_proxy db) :
  one_active_per_proxy (run_approvals sort db ops) /\
  (forall db', reachable sort db' -> one_active_per_proxy db') /\
  (forall id u, snd (Approve sort db id u) = Ok tt ->
     (exists c, In c (configs (fst (Approve sort db id u))) /\ c_id c = id /\
                c_status c = StatusActive) /\
     (forall c p, In c (configs db) -> c_status c = StatusActive -> c_id c <> id ->
        assigned db id p -> assigned db (c_id c) p ->
        In (with_status c StatusApproved) (configs (fst (Approve sort db id u))) /\
        (forall c', In c' (configs (fst (Approve sort db id u))) -> c_id c' = c_id c ->
                    c_status c' <> StatusActive))).
Proof.
  split; [apply run_approvals_one_active; exact Hinit|].
  split; [intros db' Hr; apply (reachable_one_active sort); exact Hr|].
  intros id u Hok; destruct (Approve_success_shape sort db id u Hok) as [h E].
  split.
  - destruct (repo_Approve_active _ _ _ _ _ E) as [c [H1 [H2 [H3 _]]]]; eauto.
  - intros c p Hin Ha Hid P1 P2.
    pose proof (shares_proxy_true db id (c_id c) p P1 P2) as Hsh.
    split.
    + apply (repo_Approve_keeps_approved _ _ _ _ _ _ E); [|reflexivity].
      unfold DeactivateOthers; cbn [configs set_configs]; apply in_map_iff.
      exists c; split; auto.
      rewrite Ha, Hsh; cbn [status_eqb andb]; apply Nat.eqb_neq in Hid; rewrite Hid; reflexivity.
    + intros c' Hin' Hid' Ha'.
      destruct (repo_Approve_rows _ _ _ _ _ c' E Hin') as [H|H]; [congruence|].
      destruct (DeactivateOthers_active db id c' H Ha') as [_ [H'|H']]; [congruence|].
      rewrite Hid', Hsh in H'; discriminate.
Qed.

(* ------------------------------------------------------------------ *)
(** ** The fingerprint: format and injectivity of the encoding *)

Lemma bytes_of_string_inj (s1 s2 : string) :
  Sha256.bytes_of_string s1 = Sha256.bytes_of_string s2 -> s1 = s2.
Proof.
  unfold Sha256.bytes_of_string; intros H.
  rewrite <- (string_of_list_ascii_of_string s1), <- (string_of_list_ascii_of_string s2).
  f_equal; revert H; generalize (list_ascii_of_string s2); induction (list_ascii_of_string s1)
    as [| a l IH]; intros [| b l'] H; try discriminate; auto.
  cbn [map] in H; injection H as Hab Hl; f_equal; auto.
  apply N2Z.inj in Hab; rewrite <- (ascii_N_embedding a), <- (ascii_N_embedding b); congruence.
Qed.

Lemma hash_input_one_change (p s i p' s' i' : string) :
  (p <> p' /\ s = s' /\ i = i') \/ (p = p' /\ s <> s' /\ i = i') \/ (p = p' /\ s = s' /\ i <> i') ->
  hash_input p s i <> hash_input p' s' i'.
Proof.
  unfold hash_input; intros [[Hp [-> ->]] | [[-> [Hs ->]] | [-> [-> Hi]]]] Heq.
  - apply Hp, bytes_of_string_inj; rewrite !app_assoc in Heq; apply app_inv_tail in Heq.
    apply app_inv_tail in Heq; exact Heq.
  - apply Hs, bytes_of_string_inj; apply app_inv_head in Heq; apply app_inv_tail in Heq; exact Heq.
  - apply Hi, bytes_of_string_inj; apply app_inv_head in Heq; apply app_inv_head in Heq; exact Heq.
Qed.

Definition unhex (c : ascii) : Z :=
  fold_right (fun k acc => if Ascii.eqb (hexdigit k) c then k else acc) 0%Z
             (map Z.of_nat (seq 0 16)).

Definition hex_pair_ok (x : Z) : bool :=
  Z.eqb (16 * unhex (hexdigit (Z.shiftr x 4)) + unhex (hexdigit (Z.land x 15)))%Z x.

Lemma hex_pair_ok_all : forallb hex_pair_ok (map Z.of_nat (seq 0 256)) = true.
Proof. vm_compute. reflexivity. Qed.

Lemma hex_pair_decode (x : Z) : (0 <= x < 256)%Z ->
  (16 * unhex (hexdigit (Z.shiftr x 4)) + unhex (hexdigit (Z.land x 15)))%Z = x.
Proof.
  intros Hx; apply Z.eqb_eq; change (hex_pair_ok x = true).
  apply (proj1 (forallb_forall _ _) hex_pair_ok_all).
  apply in_map_iff; exists (Z.to_nat x); split; [apply Z2Nat.id; lia|].
  apply in_seq; lia.
Qed.

Definition byte_range (b : list Z) : Prop := Forall (fun x => (0 <= x < 256)%Z) b.

Lemma hex_encode_inj (b1 b2 : list Z) :
  byte_range b1 -> byte_range b2 -> hex_encode b1 = hex_encode b2 -> b1 = b2.
Proof.
  unfold hex_encode; intros R1 R2 H.
  apply (f_equal list_ascii_of_string) in H; rewrite !list_ascii_of_string_of_list_ascii in H.
  revert b2 R2 H; induction R1 as [| x b1 Hx R1 IH]; intros [| y b2] R2 H;
    try discriminate; auto.
  inversion R2 as [| ? ? Hy R2']; subst.
  cbn [flat_map app] in H; injection H as H1 H2 H3.
  rewrite <- (hex_pair_decode x Hx), <- (hex_pair_decode y Hy), H1, H2; f_equal; auto.
Qed.

Lemma land255_range (x : Z) : (0 <= Z.land x 255 < 256)%Z.
Proof.
  change 255%Z with (Z.ones 8); rewrite Z.land_ones by lia.
  apply Z.mod_pos_bound; lia.
Qed.

Lemma sum256_range (m : list Z) : byte_range (Sha256.sum256 m).
Proof.
  unfold Sha256.sum256, byte_range; apply Forall_forall; intros x Hx.
  apply in_flat_map in Hx as [w [_ Hx]].
  unfold Sha256.be_bytes in Hx; apply in_map_iff in Hx as [k [<- _]].
  apply land255_range.
Qed.

Lemma round_length (st : list Z) (kw : Z * Z) :
  List.length (Sha256.round st kw) = List.length st.
Proof.
  destruct st as [|a [|b [|c [|d [|e [|f [|g [|h [|x st]]]]]]]]]; reflexivity.
Qed.

Lemma compress_length (hs b : list Z) :
  List.length hs = 8%nat -> List.length (Sha256.compress hs b) = 8%nat.
Proof.
  intros Hl; unfold Sha256.compress; rewrite length_map, length_combine.
  assert (forall l st, List.length (fold_left Sha256.round l st) = List.length st) as Hf.
  { induction l as [| kw l IH]; intros st; simpl; auto; rewrite IH; apply round_length. }
  rewrite Hf, Hl; reflexivity.
Qed.

Lemma sum256_length (m : list Z) : List.length (Sha256.sum256 m) = 32%nat.
Proof.
  unfold Sha256.sum256.
  assert (forall bs hs, List.length hs = 8%nat ->
            List.length (fold_left Sha256.compress bs hs) = 8%nat) as Hf.
  { induction bs as [| b bs IH]; intros hs Hl; simpl; auto; apply IH, compress_length, Hl. }
  generalize (Hf (Sha256.blocks (List.length (Sha256.pad m)) (Sha256.pad m)) Sha256.H0 eq_refl).
  generalize (fold_left Sha256.compress (Sha256.blocks (List.length (Sha256.pad m)) (Sha256.pad m))
                        Sha256.H0).
  intros l Hl; do 8 (destruct l as [|? l]; [discriminate|]); destruct l; [reflexivity|discriminate].
Qed.

Lemma length_string_of_list_ascii (l : list ascii) :
  String.length (string_of_list_ascii l) = List.length l.
Proof. induction l; simpl; auto. Qed.

Lemma get_in (n : nat) (s : string) (c : ascii) :
  String.get n s = Some c -> In c (list_ascii_of_string s).
Proof.
  revert n; induction s as [| a s IH]; intros [|n] H; simpl in H; try discriminate.
  - injection H as <-; left; reflexivity.
  - right; eapply IH; eauto.
Qed.

Lemma hexdigit_in (n : Z) : In (hexdigit n) (list_ascii_of_string hextable).
Proof.
  unfold hexdigit; destruct (get (Z.to_nat n) hextable) eqn:E.
  - eapply get_in; eauto.
  - left; reflexivity.
Qed.

Lemma hex_encode_format (b : list Z) :
  String.length (hex_encode b) = (2 * List.length b)%nat /\
  Forall (fun c => In c (list_ascii_of_string hextable)) (list_ascii_of_string (hex_encode b)).
Proof.
  unfold hex_encode; rewrite length_string_of_list_ascii, list_ascii_of_string_of_list_ascii.
  induction b as [| x b [IHl IHf]]; [split; auto|].
  cbn [flat_map app List.length]; split; [rewrite IHl; lia|].
  apply Forall_cons; [apply hexdigit_in|]; apply Forall_cons; [apply hexdigit_in|]; exact IHf.
Qed.

(* ------------------------------------------------------------------ *)
(** ** C5: the persisted fingerprint *)

(** C5: in every reachable state, a configuration's stored fingerprint is
    the lowercase hex encoding (64 digits of [hextable]) of SHA-256 over the
    bytes of parent.config, then sni.yaml, then ip_allow.yaml, as compiled
    from its rules. Changing exactly one of the three artifacts changes the
    SHA-256 input, so equal fingerprints then mean a SHA-256 collision. *)
Theorem persisted_fingerprint (sort : SortSlice) (db : DB) (Hr : reachable sort db) :
  (forall c h, In c (configs db) -> c_config_hash c = Some h ->
     (let '(p, s, i) := GenerateConfigFiles sort (c_rules c) in
      h = hex_encode (Sha256.sum256 (Sha256.bytes_of_string p ++ Sha256.bytes_of_string s
                                     ++ Sha256.bytes_of_string i)%list)) /\
     String.length h = 64%nat /\
     Forall (fun ch => In ch (list_ascii_of_string hextable)) (list_ascii_of_string h)) /\
  (forall p s i p' s' i',
     (p <> p' /\ s = s' /\ i = i') \/ (p = p' /\ s <> s' /\ i = i') \/
     (p = p' /\ s = s' /\ i <> i') ->
     fingerprint p s i = fingerprint p' s' i' ->
     hash_input p s i <> hash_input p' s' i' /\
     Sha256.sum256 (hash_input p s i) = Sha256.sum256 (hash_input p' s' i')).
Proof.
  split.
  - intros c h Hin Hh.
    destruct (proj2 (reachable_wf sort db Hr) c Hin) as [_ Hok].
    destruct (Hok h Hh) as [_ ->].
    unfold GenerateConfigHash.
    destruct (GenerateConfigFiles sort (c_rules c)) as [[p s] i].
    unfold fingerprint, hash_input.
    destruct (hex_encode_format (Sha256.sum256 (Sha256.bytes_of_string p ++
      Sha256.bytes_of_string s ++ Sha256.bytes_of_string i)%list)) as [Hl Hf].
    rewrite sum256_length in Hl; auto.
  - intros p s i p' s' i' Hone Heq; split; [apply hash_input_one_change; exact Hone|].
    apply hex_encode_inj; auto using sum256_range.
Qed.

(* ------------------------------------------------------------------ *)
(** ** Sorting *)

Lemma insert_less_perm {A} (key : A -> Z) (x : A) (l : list A) :
  Permutation (insert_less key x l) (x :: l).
Proof.
  induction l as [| y l IH]; simpl; auto.
  destruct (key x <? key y)%Z; auto.
  eapply perm_trans; [apply perm_skip, IH | apply perm_swap].
Qed.

Lemma insert_less_hdrel {A} (key : A -> Z) (x y : A) (l : list A) :
  HdRel (fun a b => (key a <= key b)%Z) y l -> (key y <= key x)%Z ->
  HdRel (fun a b => (key a <= key b)%Z) y (insert_less key x l).
Proof.
  intros H Hyx; destruct l as [| z l]; simpl; auto.
  destruct (key x <? key z)%Z; auto; inversion H; auto.
Qed.

Lemma insert_less_sorted {A} (key : A -> Z) (x : A) (l : list A) :
  Sorted (fun a b => (key a <= key b)%Z) l ->
  Sorted (fun a b => (key a <= key b)%Z) (insert_less key x l).
Proof.
  induction l as [| y l IH]; intros Hs; simpl; [repeat constructor|].
  destruct (key x <? key y)%Z eqn:E.
  - apply Z.ltb_lt in E; constructor; auto; constructor; lia.
  - apply Z.ltb_ge in E; inversion Hs; subst.
    constructor; auto; apply insert_less_hdrel; auto.
Qed.

Lemma insertion_sort_contract : sort_slice_contract insertion_sort.
Proof.
  intros A key l; unfold insertion_sort.
  assert (forall acc, Permutation (fold_left (fun acc x => insert_less key x acc) l acc) (l ++ acc)
                    /\ (Sorted (fun a b => (key a <= key b)%Z) acc ->
                        Sorted (fun a b => (key a <= key b)%Z)
                               (fold_left (fun acc x => insert_less key x acc) l acc))) as H.
  { induction l as [| x l IH]; intros acc; simpl; [split; auto|].
    destruct (IH (insert_less key x acc)) as [Hp Hs]; split.
    - eapply perm_trans; [exact Hp|].
      eapply perm_trans; [apply Permutation_app_head, insert_less_perm|].
      apply Permutation_sym, Permutation_middle.
    - intros Ha; apply Hs, insert_less_sorted, Ha. }
  destruct (H []) as [Hp Hs]; rewrite app_nil_r in Hp; split; auto.
Qed.

(** Two lists sorted by the same key, permutations of each other, whose
    keys are pairwise distinct, are equal. *)
Lemma sorted_perm_unique {A} (key : A -> Z) (l1 l2 : list A) :
  Sorted (fun a b => (key a <= key b)%Z) l1 -> Sorted (fun a b => (key a <= key b)%Z) l2 ->
  Permutation l1 l2 -> NoDup (map key l1) -> l1 = l2.
Proof.
  intros S1 S2 P N.
  apply Sorted_StronglySorted in S1; [|intros a b c; lia].
  apply Sorted_StronglySorted in S2; [|intros a b c; lia].
  revert l2 S2 P; induction S1 as [| a l1 S1 IH F1]; intros l2 S2 P.
  - apply Permutation_nil in P; auto.
  - destruct l2 as [| b l2]; [apply Permutation_sym, Permutation_nil in P; discriminate|].
    inversion S2 as [| ? ? S2' F2]; subst.
    simpl in N; inversion N as [| ? ? Na N']; subst.
    assert (a = b) as <-.
    { destruct (Permutation_in a P (or_introl eq_refl)) as [|Ha]; auto.
      destruct (Permutation_in b (Permutation_sym P) (or_introl eq_refl)) as [|Hb]; auto.
      rewrite Forall_forall in F1, F2.
      assert (key a = key b) as E by (pose proof (F1 b Hb); pose proof (F2 a Ha); lia).
      exfalso; apply Na; rewrite E; apply in_map; exact Hb. }
    f_equal; apply IH; auto; eapply Permutation_cons_inv; eauto.
Qed.

Lemma string_append_empty_r (s : string) : (s ++ "")%string = s.
Proof. induction s as [| c s IH]; simpl; [reflexivity | rewrite IH; reflexivity]. Qed.

Lemma emitted_write_lines {A} (line : A -> option string) (l : list A) :
  write_lines line l = String.concat "" (map snd (emitted line l)).
Proof.
  induction l as [| x l IH]; [reflexivity|]; unfold write_lines in *; simpl.
  rewrite IH; destruct (line x) as [s|]; [|reflexivity].
  cbn [map]; destruct (map snd (emitted line l)); simpl; auto.
  apply string_append_empty_r.
Qed.

Lemma emitted_sublist {A} (R : A -> A -> Prop) (line : A -> option string) (l : list A) :
  (forall a b c, R a b -> R b c -> R a c) ->
  Sorted R l -> Sorted R (map fst (emitted line l)).
Proof.
  intros Htr Hs; apply Sorted_StronglySorted in Hs; [|exact Htr].
  apply StronglySorted_Sorted.
  induction Hs as [| x l Hs IH Hf]; [constructor|]; simpl.
  destruct (line x); auto; cbn [map fst]; constructor; auto.
  rewrite Forall_forall in *; intros y Hy; apply Hf.
  clear -Hy; induction l as [| z l IHl]; simpl in *; auto.
  destruct (line z); simpl in Hy; [destruct Hy|]; auto.
Qed.

(* ------------------------------------------------------------------ *)
(** ** C7: order of the emitted rule lines *)

Lemma generateParentConfig_emitted (sort : SortSlice) (rs : ConfigRules) :
  generateParentConfig sort (r_ip_ranges rs) (r_domains rs) (r_parents rs) (r_default_action rs) =
  (infrastructure_rules ++ String.concat "" (map snd (emitted_ip_rules sort rs)) ++
   String.concat "" (map snd (emitted_domain_rules sort rs)) ++
   default_rule (r_default_action rs) (parent_str sort (r_parents rs)))%string.
Proof.
  unfold generateParentConfig, generateParentConfig_inplace, emitted_ip_rules,
    emitted_domain_rules, parent_str; cbn [fst].
  rewrite !emitted_write_lines; reflexivity.
Qed.

(** C7 (as the code behaves): with a sort that orders by priority, the
    parent.config text is the infrastructure rules, the emitted IP-range
    lines, the emitted domain lines and the default rule, and the emitted
    IP-range rules and domain rules are each in ascending priority. Rules
    of equal priority keep whatever order the sort leaves them in: no
    selector tie-break is applied. *)
Theorem parent_config_priority_order (sort : SortSlice) (Hsort : sort_slice_contract sort)
    (rs : ConfigRules) :
  generateParentConfig sort (r_ip_ranges rs) (r_domains rs) (r_parents rs) (r_default_action rs) =
  (infrastructure_rules ++ String.concat "" (map snd (emitted_ip_rules sort rs)) ++
   String.concat "" (map snd (emitted_domain_rules sort rs)) ++
   default_rule (r_default_action rs) (parent_str sort (r_parents rs)))%string /\
  Sorted (fun a b => (ir_priority a <= ir_priority b)%Z) (map fst (emitted_ip_rules sort rs)) /\
  Sorted (fun a b => (dr_priority a <= dr_priority b)%Z) (map fst (emitted_domain_rules sort rs)).
Proof.
  split; [apply generateParentConfig_emitted|].
  split; apply emitted_sublist; try (intros a b c; lia); apply Hsort.
Qed.

(** C7 counterexample: Go's sort of a short slice is an insertion sort
    (a sort by priority), and the repository returns equal-priority rows
    in no fixed order. Given [10.0.2.0/24] before [10.0.1.0/24] (and
    [b.example.com] before [a.example.com]), all at priority 5, the lines
    come out in that order, against byte-wise selector order. *)
Lemma rule_order_tie_counterexample :
  sort_slice_contract insertion_sort /\
  map fst (emitted_ip_rules insertion_sort tie_rules) = [tie_ip_b; tie_ip_a] /\
  map fst (emitted_domain_rules insertion_sort tie_rules) = [tie_dom_b; tie_dom_a] /\
  ~ Sorted (spec_rule_order ir_priority ir_cidr) (map fst (emitted_ip_rules insertion_sort tie_rules)) /\
  ~ Sorted (spec_rule_order dr_priority dr_domain)
      (map fst (emitted_domain_rules insertion_sort tie_rules)) /\
  generateParentConfig insertion_sort (r_ip_ranges tie_rules) (r_domains tie_rules)
    (r_parents tie_rules) (r_default_action tie_rules) =
  (infrastructure_rules ++
   "dest_ip=10.0.2.0-10.0.2.255 go_direct=true" ++ nl ++
   "dest_ip=10.0.1.0-10.0.1.255 go_direct=true" ++ nl ++
   "dest_domain=b.example.com go_direct=true" ++ nl ++
   "dest_domain=a.example.com go_direct=true" ++ nl ++
   "dest_domain=. go_direct=true" ++ nl)%string.
Proof.
  assert (Eip : map fst (emitted_ip_rules insertion_sort tie_rules) = [tie_ip_b; tie_ip_a])
    by (vm_compute; reflexivity).
  assert (Edom : map fst (emitted_domain_rules insertion_sort tie_rules) = [tie_dom_b; tie_dom_a])
    by (vm_compute; reflexivity).
  split; [exact insertion_sort_contract|].
  split; [exact Eip|]; split; [exact Edom|].
  split; [rewrite Eip; intros H; inversion H as [| ? ? _ Hd]; subst;
          inversion Hd as [| ? ? [Hlt | [_ Hle]]]; subst;
          [vm_compute in Hlt; discriminate | vm_compute in Hle; discriminate]|].
  split; [rewrite Edom; intros H; inversion H as [| ? ? _ Hd]; subst;
          inversion Hd as [| ? ? [Hlt | [_ Hle]]]; subst;
          [vm_compute in Hlt; discriminate | vm_compute in Hle; discriminate]|].
  vm_compute; reflexivity.
Qed.

(* ------------------------------------------------------------------ *)
(** ** C10: the default client ACL *)

Lemma Create_ok_shape (db db' : DB) (newID u : UUID) (req : CreateConfigRequest) (cfg : Config) :
  Create db newID u req = (db', Ok cfg) ->
  configs db' = (configs db ++ [cfg])%list /\ c_id cfg = newID /\ c_status cfg = StatusDraft /\
  r_client_acl (c_rules cfg) = match req_client_acl req with [] => default_client_acl | l => l end.
Proof.
  unfold Create; destruct (String.eqb (req_name req) ""); [discriminate|].
  destruct (validateRules req); [|discriminate].
  intros H; injection H as <- <-; cbn [configs c_id c_status c_rules r_client_acl]; auto.
Qed.

(** Modelled from the spec: the ACL action [domain.ACLAllow] is not under
    src/ and is taken as ["allow"]. C10: a configuration created
    with an empty client ACL gets the three default rules (allow 127.0.0.1
    at priority 10, allow ::1 at 20, allow 10.0.0.0/8 at 30), and with a
    sort by priority its ip_allow.yaml, for the rule rows in any order,
    lists them in that order before the two deny-all entries. *)
Theorem Create_default_client_acl (sort : SortSlice) (Hsort : sort_slice_contract sort)
    (db db' : DB) (newID u : UUID) (req : CreateConfigRequest) (cfg : Config)
    (Hacl : req_client_acl req = [])
    (Hok : Create db newID u req = (db', Ok cfg)) :
  In cfg (configs db') /\ c_id cfg = newID /\
  r_client_acl (c_rules cfg) =
    [{| acl_cidr := "127.0.0.1"; acl_action := ACLAllow; acl_priority := 10 |};
     {| acl_cidr := "::1"; acl_action := ACLAllow; acl_priority := 20 |};
     {| acl_cidr := "10.0.0.0/8"; acl_action := ACLAllow; acl_priority := 30 |}] /\
  (forall rows, Permutation rows (r_client_acl (c_rules cfg)) ->
     generateIPAllowYaml sort rows =
     ("ip_allow:" ++ nl ++
      "  - apply: in" ++ nl ++ "    ip_addrs: 127.0.0.1" ++ nl ++
      "    action: set_allow" ++ nl ++ "    methods: ALL" ++ nl ++
      "  - apply: in" ++ nl ++ "    ip_addrs: ::1" ++ nl ++
      "    action: set_allow" ++ nl ++ "    methods: ALL" ++ nl ++
      "  - apply: in" ++ nl ++ "    ip_addrs: 10.0.0.0/8" ++ nl ++
      "    action: set_allow" ++ nl ++ "    methods: ALL" ++ nl ++
      deny_all_entries)%string).
Proof.
  destruct (Create_ok_shape _ _ _ _ _ _ Hok) as [Hc [Hid [_ Hr]]].
  rewrite Hacl in Hr.
  split; [rewrite Hc; apply in_or_app; right; left; reflexivity|].
  split; [exact Hid|]; split; [exact Hr|].
  intros rows Hp; rewrite Hr in Hp; unfold generateIPAllowYaml.
  destruct (Hsort _ acl_priority rows) as [Hp' Hs].
  replace (sort _ acl_priority rows) with default_client_acl; [reflexivity|].
  symmetry; apply sorted_perm_unique with acl_priority; auto.
  - repeat constructor; cbn [acl_priority default_client_acl]; lia.
  - eapply perm_trans; eauto.
  - apply Permutation_NoDup with (map acl_priority default_client_acl).
    + apply Permutation_map, Permutation_sym; eapply perm_trans; eauto.
    + vm_compute; repeat constructor; intros H; repeat (destruct H as [H|H]; [discriminate|]); exact H.
Qed.

(* ------------------------------------------------------------------ *)
(** ** Parsing canonical IPv4 selectors *)

Lemma forallb_range (f : Z -> bool) (N : nat) :
  forallb f (map Z.of_nat (seq 0 N)) = true -> forall x, (0 <= x < Z.of_nat N)%Z -> f x = true.
Proof.
  intros H x Hx; apply (proj1 (forallb_forall _ _) H).
  apply in_map_iff; exists (Z.to_nat x); split; [apply Z2Nat.id; lia | apply in_seq; lia].
Qed.

Definition dec_byte_ok (x : Z) : bool :=
  match digits_run (GoNet.dec_byte x) 0 0 None with
  | Some (Some c, v, _) => (v =? x)%Z && GoNet.is_digit c
  | _ => false
  end && forallb GoNet.is_digit (GoNet.dec_byte x).

Lemma dec_byte_ok_all : forallb dec_byte_ok (map Z.of_nat (seq 0 256)) = true.
Proof. vm_compute. reflexivity. Qed.

Definition list_Z_dec_eqb (a b : list Z) : bool := if list_eq_dec Z.eq_dec a b then true else false.

Definition prefix_ok (n : Z) : bool :=
  list_Z_dec_eqb (GoNet.CIDRMask n 32) (map (prefix_mask_byte n) [0; 1; 2; 3]%Z) &&
  forallb (fun m => Z.lxor m 255 =? 255 - m)%Z (GoNet.CIDRMask n 32) &&
  match GoNet.dtoi_loop (GoNet.dec_byte n) 0 0 with
  | (v, i, ok) => (v =? n)%Z && (i =? Z.of_nat (List.length (GoNet.dec_byte n)))%Z && ok
  end &&
  forallb GoNet.is_digit (GoNet.dec_byte n).

Lemma prefix_ok_all : forallb prefix_ok (map Z.of_nat (seq 0 33)) = true.
Proof. vm_compute. reflexivity. Qed.

Lemma digit_char_neq (c d : ascii) :
  GoNet.is_digit c = true -> GoNet.is_digit d = false -> GoNet.char_eqb c d = false.
Proof.
  intros Hc Hd; unfold GoNet.char_eqb; destruct (Ascii.eqb_spec c d); congruence.
Qed.

Lemma digits_run_prev (p : list ascii) (v dl : Z) (l1 l2 : option ascii) :
  p <> [] -> digits_run p v dl l1 = digits_run p v dl l2.
Proof. destruct p; [congruence | reflexivity]. Qed.

Lemma digits_run_loop (p rest : list ascii) (prev prev' : option ascii) (v dl v' dl' : Z)
    (fields : list Z) :
  digits_run p v dl prev = Some (prev', v', dl') ->
  GoNet.ipv4_fields_loop (p ++ rest) prev v dl fields =
  GoNet.ipv4_fields_loop rest prev' v' dl' fields.
Proof.
  revert prev v dl; induction p as [| c p IH]; intros prev v dl H.
  - injection H as -> -> ->; reflexivity.
  - cbn [digits_run] in H; cbn [app GoNet.ipv4_fields_loop].
    destruct (GoNet.is_digit c); [|discriminate].
    destruct (_ && _); [discriminate|].
    destruct (255 <? _)%Z; [discriminate|]; apply IH; exact H.
Qed.

Lemma dec_byte_facts (x : Z) (prev : option ascii) : (0 <= x < 256)%Z ->
  GoNet.dec_byte x <> [] /\ forallb GoNet.is_digit (GoNet.dec_byte x) = true /\
  exists c dl, digits_run (GoNet.dec_byte x) 0 0 prev = Some (Some c, x, dl) /\
               GoNet.is_digit c = true.
Proof.
  intros Hx; pose proof (forallb_range dec_byte_ok 256 dec_byte_ok_all x Hx) as H.
  unfold dec_byte_ok in H; apply andb_prop in H as [H Hd].
  destruct (GoNet.dec_byte x) as [| c0 r] eqn:E; [discriminate|].
  split; [discriminate|]; split; [exact Hd|].
  rewrite (digits_run_prev _ _ _ prev None) by discriminate.
  destruct (digits_run (c0 :: r) 0 0 None) as [[[[c|] v] dl]|]; try discriminate.
  apply andb_prop in H as [Hv Hc]; apply Z.eqb_eq in Hv; subst v; eauto.
Qed.

Lemma fields_dot (rest : list ascii) (p : ascii) (v dl : Z) (fields : list Z) :
  GoNet.is_digit p = true -> rest <> [] -> List.length fields <> 3%nat ->
  GoNet.ipv4_fields_loop ("."%char :: rest) (Some p) v dl fields =
  GoNet.ipv4_fields_loop rest (Some "."%char) 0 0 (fields ++ [v])%list.
Proof.
  intros Hp Hr Hl; destruct rest as [| r0 rest]; [congruence|].
  cbn [GoNet.ipv4_fields_loop].
  replace (GoNet.is_digit "."%char) with false by reflexivity.
  replace (GoNet.char_eqb "."%char "."%char) with true by reflexivity.
  rewrite (digit_char_neq p "."%char Hp eq_refl).
  apply Nat.eqb_neq in Hl; rewrite Hl; reflexivity.
Qed.

Lemma ipv4_string_4 (a b c d : Z) :
  GoNet.ipv4_string [a; b; c; d] =
  (GoNet.dec_byte a ++ "."%char :: GoNet.dec_byte b ++ "."%char :: GoNet.dec_byte c
   ++ "."%char :: GoNet.dec_byte d)%list.
Proof. reflexivity. Qed.

Lemma parse_ipv4_fields_canonical (a b c d : Z) :
  (0 <= a < 256)%Z -> (0 <= b < 256)%Z -> (0 <= c < 256)%Z -> (0 <= d < 256)%Z ->
  GoNet.parse_ipv4_fields (GoNet.ipv4_string [a; b; c; d]) = Some [a; b; c; d].
Proof.
  intros Ha Hb Hc Hd; rewrite ipv4_string_4; unfold GoNet.parse_ipv4_fields.
  destruct (dec_byte_facts a None Ha) as [_ [_ [ca [la [Ra Da]]]]].
  destruct (dec_byte_facts b (Some "."%char) Hb) as [Nb [_ [cb [lb [Rb Db]]]]].
  destruct (dec_byte_facts c (Some "."%char) Hc) as [Nc [_ [cc [lc [Rc Dc]]]]].
  destruct (dec_byte_facts d (Some "."%char) Hd) as [Nd [_ [cd [ld [Rd Dd]]]]].
  rewrite (digits_run_loop _ _ _ _ _ _ _ _ _ Ra).
  rewrite fields_dot;
    [| exact Da | intros H; apply app_eq_nil in H as [H _]; exact (Nb H) | simpl; discriminate].
  rewrite (digits_run_loop _ _ _ _ _ _ _ _ _ Rb).
  rewrite fields_dot;
    [| exact Db | intros H; apply app_eq_nil in H as [H _]; exact (Nc H) | simpl; discriminate].
  rewrite (digits_run_loop _ _ _ _ _ _ _ _ _ Rc).
  rewrite fields_dot; [| exact Dc | exact Nd | simpl; discriminate].
  rewrite <- (app_nil_r (GoNet.dec_byte d)), (digits_run_loop _ _ _ _ _ _ _ _ _ Rd).
  reflexivity.
Qed.

Lemma dispatch_digits (all p s : list ascii) :
  forallb GoNet.is_digit p = true ->
  GoNet.parse_addr_dispatch all (p ++ s) = GoNet.parse_addr_dispatch all s.
Proof.
  induction p as [| x p IH]; intros H; [reflexivity|].
  cbn [forallb] in H; apply andb_prop in H as [Hx H].
  cbn [app GoNet.parse_addr_dispatch].
  rewrite !(digit_char_neq x) by (auto; reflexivity); auto.
Qed.

Lemma parse_addr_canonical (a b c d : Z) :
  (0 <= a < 256)%Z -> (0 <= b < 256)%Z -> (0 <= c < 256)%Z -> (0 <= d < 256)%Z ->
  GoNet.parse_addr (GoNet.ipv4_string [a; b; c; d]) = Some (GoNet.Addr4 [a; b; c; d]).
Proof.
  intros Ha Hb Hc Hd; unfold GoNet.parse_addr.
  destruct (dec_byte_facts a None Ha) as [_ [Fa _]].
  rewrite ipv4_string_4 at 2; rewrite dispatch_digits by exact Fa.
  cbn [GoNet.parse_addr_dispatch].
  replace (GoNet.char_eqb "."%char "."%char) with true by reflexivity.
  rewrite parse_ipv4_fields_canonical; auto.
Qed.

Lemma cut_slash_digits (p rest : list ascii) :
  forallb (fun x => GoNet.is_digit x || GoNet.char_eqb x "."%char) p = true ->
  GoNet.cut "/"%char (p ++ rest) =
  match GoNet.cut "/"%char rest with Some (u, v) => Some (p ++ u, v)%list | None => None end.
Proof.
  induction p as [| x p IH]; intros H; cbn [app].
  - destruct (GoNet.cut "/"%char rest) as [[u v]|]; reflexivity.
  - cbn [forallb] in H; apply andb_prop in H as [Hx H]; cbn [GoNet.cut].
    replace (GoNet.char_eqb x "/"%char) with false.
    + rewrite IH by exact H; destruct (GoNet.cut "/"%char rest) as [[u v]|]; reflexivity.
    + symmetry; apply orb_prop in Hx as [Hx|Hx]; [apply digit_char_neq; auto|].
      unfold GoNet.char_eqb in *; apply Ascii.eqb_eq in Hx; subst; reflexivity.
Qed.

Lemma ipv4_string_chars (a b c d : Z) :
  (0 <= a < 256)%Z -> (0 <= b < 256)%Z -> (0 <= c < 256)%Z -> (0 <= d < 256)%Z ->
  forallb (fun x => GoNet.is_digit x || GoNet.char_eqb x "."%char) (GoNet.ipv4_string [a; b; c; d])
  = true.
Proof.
  intros Ha Hb Hc Hd; rewrite ipv4_string_4.
  assert (G : forall x, (0 <= x < 256)%Z ->
            forallb (fun x => GoNet.is_digit x || GoNet.char_eqb x "."%char) (GoNet.dec_byte x)
            = true).
  { intros x Hx; destruct (dec_byte_facts x None Hx) as [_ [F _]].
    induction (GoNet.dec_byte x) as [| y l IH]; [reflexivity|].
    cbn [forallb] in *; apply andb_prop in F as [F1 F2]; rewrite F1, IH; auto. }
  repeat first [rewrite forallb_app | rewrite G by auto | progress cbn [forallb andb]].
  reflexivity.
Qed.

Lemma prefix_facts (n : Z) : (0 <= n <= 32)%Z ->
  GoNet.CIDRMask n 32 = map (prefix_mask_byte n) [0; 1; 2; 3]%Z /\
  forallb (fun m => Z.lxor m 255 =? 255 - m)%Z (GoNet.CIDRMask n 32) = true /\
  GoNet.dtoi_loop (GoNet.dec_byte n) 0 0 = (n, Z.of_nat (List.length (GoNet.dec_byte n)), true) /\
  forallb GoNet.is_digit (GoNet.dec_byte n) = true.
Proof.
  intros Hn; pose proof (forallb_range prefix_ok 33 prefix_ok_all n ltac:(lia)) as H.
  unfold prefix_ok in H; apply andb_prop in H as [H H4]; apply andb_prop in H as [H H3].
  apply andb_prop in H as [H1 H2].
  split; [unfold list_Z_dec_eqb in H1; destruct (list_eq_dec _ _ _); congruence|].
  split; [exact H2|]; split; [|exact H4].
  destruct (GoNet.dtoi_loop (GoNet.dec_byte n) 0 0) as [[v i] ok].
  apply andb_prop in H3 as [H3 Hok]; apply andb_prop in H3 as [Hv Hi].
  apply Z.eqb_eq in Hv, Hi; subst; reflexivity.
Qed.

Lemma ParseCIDR_canonical (a b c d n : Z) :
  (0 <= a < 256)%Z -> (0 <= b < 256)%Z -> (0 <= c < 256)%Z -> (0 <= d < 256)%Z ->
  (0 <= n <= 32)%Z ->
  GoNet.ParseCIDR (cidr_selector [a; b; c; d] n) =
  Some (GoNet.as16 (GoNet.Addr4 [a; b; c; d]),
        {| GoNet.net_ip := map (fun p => Z.land (fst p) (snd p))
                               (combine [a; b; c; d] (map (prefix_mask_byte n) [0; 1; 2; 3]%Z));
           GoNet.net_mask := map (prefix_mask_byte n) [0; 1; 2; 3]%Z |}).
Proof.
  intros Ha Hb Hc Hd Hn.
  destruct (prefix_facts n Hn) as [Hm [_ [Hdt _]]].
  unfold GoNet.ParseCIDR, cidr_selector; rewrite list_ascii_of_string_of_list_ascii.
  rewrite cut_slash_digits by (apply ipv4_string_chars; auto).
  cbn [GoNet.cut]; replace (GoNet.char_eqb "/"%char "/"%char) with true by reflexivity.
  rewrite app_nil_r, parse_addr_canonical by auto.
  rewrite Hdt, Z.eqb_refl.
  replace (n <? 0)%Z with false by (symmetry; apply Z.ltb_ge; lia).
  replace (GoNet.bit_len (GoNet.Addr4 [a; b; c; d]) <? n)%Z with false
    by (symmetry; apply Z.ltb_ge; simpl; lia).
  cbn [negb orb GoNet.bit_len]; rewrite Hm; reflexivity.
Qed.

Lemma cidrToRange_bare (a b c d : Z) :
  (0 <= a < 256)%Z -> (0 <= b < 256)%Z -> (0 <= c < 256)%Z -> (0 <= d < 256)%Z ->
  cidrToRange (ipv4_selector [a; b; c; d]) = ipv4_selector [a; b; c; d].
Proof.
  intros Ha Hb Hc Hd; unfold cidrToRange, GoNet.ParseCIDR, ipv4_selector.
  rewrite list_ascii_of_string_of_list_ascii, <- (app_nil_r (GoNet.ipv4_string _)).
  rewrite cut_slash_digits by (apply ipv4_string_chars; auto); reflexivity.
Qed.

Lemma cidrToRange_canonical (a b c d n : Z) :
  (0 <= a < 256)%Z -> (0 <= b < 256)%Z -> (0 <= c < 256)%Z -> (0 <= d < 256)%Z ->
  (0 <= n <= 32)%Z ->
  cidrToRange (cidr_selector [a; b; c; d] n) = network_range_text [a; b; c; d] n.
Proof.
  intros Ha Hb Hc Hd Hn.
  destruct (prefix_facts n Hn) as [Hm [Hx _]]; rewrite Hm in Hx.
  cbn [map forallb] in Hx.
  apply andb_prop in Hx as [H0 Hx]; apply andb_prop in Hx as [H1 Hx];
    apply andb_prop in Hx as [H2 Hx]; apply andb_prop in Hx as [H3 _].
  unfold cidrToRange; rewrite ParseCIDR_canonical by auto.
  unfold network_range_text, GoNet.To4;
    cbn [GoNet.net_ip GoNet.net_mask map combine fst snd List.length Nat.eqb].
  repeat match goal with H : (_ =? _)%Z = true |- _ => apply Z.eqb_eq in H; rewrite H; clear H end.
  reflexivity.
Qed.

(* ------------------------------------------------------------------ *)
(** ** C6: the [dest_ip] value of an IP-range rule *)

(** C6 (as the code behaves): for octets in [0, 255] and a prefix length in
    [0, 32], [cidrToRange] renders a canonical IPv4 CIDR selector as the
    dash-separated start-end range of its network, and returns a bare IPv4
    address unchanged (no [/], so [net.ParseCIDR] fails and the selector
    is used as is); a direct rule on a bare address is written with that
    address as its [dest_ip]. *)
Theorem cidrToRange_selectors (a b c d n : Z)
    (Ha : (0 <= a < 256)%Z) (Hb : (0 <= b < 256)%Z) (Hc : (0 <= c < 256)%Z)
    (Hd : (0 <= d < 256)%Z) (Hn : (0 <= n <= 32)%Z) :
  cidrToRange (cidr_selector [a; b; c; d] n) = network_range_text [a; b; c; d] n /\
  cidrToRange (ipv4_selector [a; b; c; d]) = ipv4_selector [a; b; c; d] /\
  (forall parentStr prio,
     ip_range_line parentStr
       {| ir_cidr := ipv4_selector [a; b; c; d]; ir_action := ActionDirect; ir_priority := prio |} =
     Some ("dest_ip=" ++ ipv4_selector [a; b; c; d] ++ " go_direct=true" ++ nl)%string).
Proof.
  split; [apply cidrToRange_canonical; auto|].
  split; [apply cidrToRange_bare; auto|].
  intros parentStr prio; unfold ip_range_line; cbn [ir_cidr ir_action].
  rewrite cidrToRange_bare by auto; reflexivity.
Qed.

(** C6 counterexample: the bare address [10.1.2.3], which validation
    accepts, is rendered as [10.1.2.3], not as [10.1.2.3-10.1.2.3]. *)
Lemma bare_ip_not_degenerate_range :
  validateCIDR "10.1.2.3" "ip_ranges[0]" = "" /\
  cidrToRange "10.1.2.3" = "10.1.2.3" /\
  cidrToRange "10.1.2.3" <> "10.1.2.3-10.1.2.3" /\
  ip_range_line "" {| ir_cidr := "10.1.2.3"; ir_action := ActionDirect; ir_priority := 1 |} =
    Some ("dest_ip=10.1.2.3 go_direct=true" ++ nl)%string.
Proof.
  split; [vm_compute; reflexivity|].
  split; [vm_compute; reflexivity|].
  split; [vm_compute; discriminate|].
  vm_compute; reflexivity.
Qed.

(* ------------------------------------------------------------------ *)
(** ** C9: parent-proxy validation *)

Lemma indexed_in {A} (l : list A) (x : A) (s : nat) :
  In x l -> exists k, In (k, x) (combine (seq s (List.length l)) l).
Proof.
  revert s; induction l as [| y l IH]; intros s Hin; [destruct Hin|].
  destruct Hin as [<- | Hin]; [exists s; left; reflexivity|].
  destruct (IH (S s) Hin) as [k Hk]; exists k; right; exact Hk.
Qed.

Lemma validateRules_parent_error (req : CreateConfigRequest) (pp : ParentProxy) :
  In pp (req_parents req) -> (forall i, parent_proxy_errors i pp <> []) ->
  validateRules req = Fail ErrBadRequest.
Proof.
  intros Hin Herr; destruct (indexed_in _ pp 0 Hin) as [k Hk].
  unfold validateRules.
  destruct (parent_proxy_errors k pp) as [| e es] eqn:E; [exfalso; exact (Herr k E)|].
  assert (Hin' : In e (indexed_errors parent_proxy_errors (req_parents req))).
  { unfold indexed_errors; apply in_flat_map; exists (k, pp); split; auto.
    cbn [fst snd]; rewrite E; left; reflexivity. }
  match goal with |- match ?l with [] => _ | _ => _ end = _ => destruct l eqn:El end;
    [|reflexivity].
  exfalso; assert (Hnil : In e []) by (rewrite <- El; repeat (apply in_or_app; right); exact Hin').
  destruct Hnil.
Qed.

Lemma ParseIP_empty : GoNet.ParseIP "" = None.
Proof. reflexivity. Qed.

Lemma parent_proxy_errors_nil (i : nat) (pp : ParentProxy) :
  parent_proxy_errors i pp = [] <->
  GoNet.ParseIP (pp_address pp) <> None /\ (1024 <= pp_port pp <= 65535)%Z.
Proof.
  unfold parent_proxy_errors; split.
  - intros H; apply app_eq_nil in H as [H1 H2].
    split.
    + destruct (String.eqb_spec (pp_address pp) ""); [discriminate|].
      destruct (GoNet.ParseIP (pp_address pp)); [discriminate | discriminate].
    + destruct ((pp_port pp <? 1024)%Z || (65535 <? pp_port pp)%Z) eqn:E; [discriminate|].
      apply orb_false_iff in E as [E1 E2]; apply Z.ltb_ge in E1, E2; lia.
  - intros [Hip [Hlo Hhi]].
    destruct (String.eqb_spec (pp_address pp) "") as [E|E];
      [rewrite E, ParseIP_empty in Hip; congruence|].
    destruct (GoNet.ParseIP (pp_address pp)); [|congruence].
    replace ((pp_port pp <? 1024)%Z || (65535 <? pp_port pp)%Z) with false; [reflexivity|].
    symmetry; apply orb_false_iff; split; apply Z.ltb_ge; lia.
Qed.

(** C9 (as the code behaves): a parent-proxy entry passes validation
    exactly when [net.ParseIP] accepts its address (an IPv4 or an IPv6
    literal) and its port is in [1024, 65535]; a request with an entry that
    fails is refused with [ErrBadRequest] by [validateRules], [Create] and
    [Update], which leave the database unchanged. *)
Theorem parent_proxy_validation (db : DB) (newID id u : UUID) (req : CreateConfigRequest)
    (pp : ParentProxy) (Hin : In pp (req_parents req)) :
  (forall i, parent_proxy_errors i pp = [] <->
             GoNet.ParseIP (pp_address pp) <> None /\ (1024 <= pp_port pp <= 65535)%Z) /\
  (GoNet.ParseIP (pp_address pp) = None \/ (pp_port pp < 1024)%Z \/ (65535 < pp_port pp)%Z ->
   validateRules req = Fail ErrBadRequest /\
   Create db newID u req = (db, Fail ErrBadRequest) /\
   Update db id u req = (db, Fail ErrBadRequest)).
Proof.
  split; [intros i; apply parent_proxy_errors_nil|].
  intros Hbad.
  assert (Hv : validateRules req = Fail ErrBadRequest).
  { apply (validateRules_parent_error req pp Hin); intros i Hnil.
    apply parent_proxy_errors_nil in Hnil as [H1 H2]; destruct Hbad as [H|[H|H]];
      [congruence | lia | lia]. }
  split; [exact Hv|]; split.
  - unfold Create; rewrite Hv; destruct (String.eqb (req_name req) ""); reflexivity.
  - unfold Update; rewrite Hv; reflexivity.
Qed.

(** C9 counterexample: a parent proxy at the IPv6 address [::1] with port
    3128 passes validation, and [Create] stores it. *)
Lemma ipv6_parent_accepted :
  validateRules ipv6_parent_request = Ok tt /\
  exists cfg, snd (Create empty_db 1 7 ipv6_parent_request) = Ok cfg /\
              map pp_address (r_parents (c_rules cfg)) = ["::1"].
Proof.
  split; [vm_compute; reflexivity|].
  eexists; split; [vm_compute; reflexivity | reflexivity].
Qed.

Lemma one_active_per_proxy_b_sound (db : DB) :
  one_active_per_proxy_b db = true -> one_active_per_proxy db.
Proof.
  intros H p c1 c2 H1 H2 A1 A2 P1 P2.
  unfold one_active_per_proxy_b in H; rewrite forallb_forall in H.
  specialize (H c1 H1); rewrite forallb_forall in H; specialize (H c2 H2).
  rewrite A1, A2 in H; cbn [status_eqb andb] in H.
  apply Nat.eqb_eq; rewrite <- H.
  replace (existsb _ (config_proxies db)) with true; [reflexivity|].
  symmetry; apply existsb_exists; exists (c_id c1, p); split; [exact P1|].
  cbn [fst snd]; rewrite Nat.eqb_refl; cbn [andb].
  apply existsb_exists; exists (c_id c2, p); split; [exact P2|].
  cbn [fst snd]; rewrite !Nat.eqb_refl; reflexivity.
Qed.

(* ------------------------------------------------------------------ *)
(** ** The theorems on concrete states *)

(** Approving configuration 2 as its submitter deactivates configuration 1,
    which shares proxy 5. *)
Lemma approvals_one_active_per_proxy_witness :
  one_active_per_proxy demo_db /\
  snd (Approve insertion_sort demo_db 2 7) = Ok tt /\
  one_active_per_proxy (run_approvals insertion_sort demo_db [(2, 7); (1, 7)]%nat) /\
  In (with_status demo_cfg1 StatusApproved) (configs (fst (Approve insertion_sort demo_db 2 7))).
Proof.
  assert (Hinit : one_active_per_proxy demo_db)
    by (apply one_active_per_proxy_b_sound; vm_compute; reflexivity).
  assert (Hok : snd (Approve insertion_sort demo_db 2 7) = Ok tt) by (vm_compute; reflexivity).
  destruct (approvals_one_active_per_proxy insertion_sort demo_db [(2, 7); (1, 7)]%nat Hinit)
    as [Hrun [_ Hdisp]].
  split; [exact Hinit|]; split; [exact Hok|]; split; [exact Hrun|].
  destruct (Hdisp 2%nat 7%nat Hok) as [_ H].
  apply (H demo_cfg1 5%nat); [left; reflexivity | reflexivity | discriminate
                             | right; left; reflexivity | left; reflexivity].
Defined.

(** Polling [edge-1], which runs configuration 1, updates its last-seen time. *)
Lemma GetConfig_poll_witness :
  GetByHostname demo_db "edge-1" = Some demo_proxy /\
  GetActiveForProxy demo_db "edge-1" = Some demo_cfg1 /\
  exists p', GetByHostname (fst (GetConfig insertion_sort demo_db 200 "edge-1" "")) "edge-1"
               = Some p' /\ px_last_seen p' = Some 200%Z.
Proof.
  assert (H1 : GetByHostname demo_db "edge-1" = Some demo_proxy) by (vm_compute; reflexivity).
  assert (H2 : GetActiveForProxy demo_db "edge-1" = Some demo_cfg1) by (vm_compute; reflexivity).
  split; [exact H1|]; split; [exact H2|].
  pose proof (GetConfig_poll insertion_sort demo_db 200 "edge-1" "" demo_proxy demo_cfg1 H1 H2)
    as H; cbv zeta in H.
  destruct H as [[p' [Hp [_ Hls]]] _]; exists p'; split; assumption.
Defined.

(** [edge-1] is online from [10.0.0.9]; a restart from another address
    that presents the id [uuid-5] is accepted. *)
Lemma Register_identity_check_witness :
  rr_hostname {| rr_hostname := "edge-1"; rr_config_id := ""; rr_proxy_id := "uuid-5";
                 rr_remote_ip := "10.0.0.99" |} <> "" /\
  GetByHostname demo_db "edge-1" = Some demo_proxy /\
  snd (Register demo_db 300 9
         {| rr_hostname := "edge-1"; rr_config_id := ""; rr_proxy_id := "uuid-5";
            rr_remote_ip := "10.0.0.99" |}) <> Fail ErrConflict.
Proof.
  assert (H1 : rr_hostname {| rr_hostname := "edge-1"; rr_config_id := ""; rr_proxy_id := "uuid-5";
                             rr_remote_ip := "10.0.0.99" |} <> "") by (vm_compute; discriminate).
  assert (H2 : GetByHostname demo_db "edge-1" = Some demo_proxy) by (vm_compute; reflexivity).
  split; [exact H1|]; split; [exact H2|].
  pose proof (Register_identity_check demo_db 300 9
    {| rr_hostname := "edge-1"; rr_config_id := ""; rr_proxy_id := "uuid-5";
       rr_remote_ip := "10.0.0.99" |} demo_proxy H1 H2) as H; cbv zeta in H.
  apply (proj2 (proj2 (proj2 H))); vm_compute; reflexivity.
Defined.

(** User 8 may not approve configuration 2, which user 7 submitted. *)
Lemma Approve_requires_submitter_witness :
  config_GetByID demo_db 2 = Some demo_cfg2 /\
  c_status demo_cfg2 = StatusPendingApproval /\
  Approve insertion_sort demo_db 2 8 = (demo_db, Fail ErrForbidden).
Proof.
  assert (H1 : config_GetByID demo_db 2 = Some demo_cfg2) by (vm_compute; reflexivity).
  assert (H2 : c_status demo_cfg2 = StatusPendingApproval) by reflexivity.
  split; [exact H1|]; split; [exact H2|].
  assert (Hne : c_submitted_by demo_cfg2 <> Some 8%nat) by (vm_compute; discriminate).
  exact (proj1 (proj1 (proj2 (Approve_requires_submitter insertion_sort demo_db 2 8 demo_cfg2
                                H1 H2)) Hne)).
Defined.

(** A configuration created, submitted and approved carries a 64-digit
    fingerprint. *)
Lemma persisted_fingerprint_witness :
  reachable insertion_sort
    (fst (Approve insertion_sort (fst (Submit (fst (Create empty_db 1 7 demo_request)) 1 7)) 1 7)) /\
  forall c h,
    In c (configs (fst (Approve insertion_sort
                          (fst (Submit (fst (Create empty_db 1 7 demo_request)) 1 7)) 1 7))) ->
    c_config_hash c = Some h -> String.length h = 64%nat.
Proof.
  assert (Hr : reachable insertion_sort
    (fst (Approve insertion_sort (fst (Submit (fst (Create empty_db 1 7 demo_request)) 1 7)) 1 7))).
  { eapply reach_step; [eapply reach_step; [eapply reach_step; [apply reach_init|]|]|].
    - apply step_create; simpl; tauto.
    - apply step_submit.
    - apply step_approve. }
  split; [exact Hr|].
  intros c h Hin Hh; apply (proj1 (persisted_fingerprint insertion_sort _ Hr) c h Hin Hh).
Defined.

(** [10.0.0.0/8] is rendered [10.0.0.0-10.255.255.255]. *)
Lemma cidrToRange_selectors_witness :
  (0 <= 10 < 256)%Z /\ (0 <= 0 < 256)%Z /\ (0 <= 8 <= 32)%Z /\
  cidr_selector [10; 0; 0; 0]%Z 8 = "10.0.0.0/8" /\
  cidrToRange (cidr_selector [10; 0; 0; 0]%Z 8) = network_range_text [10; 0; 0; 0]%Z 8 /\
  network_range_text [10; 0; 0; 0]%Z 8 = "10.0.0.0-10.255.255.255".
Proof.
  split; [lia|]; split; [lia|]; split; [lia|].
  split; [vm_compute; reflexivity|].
  split; [apply (cidrToRange_selectors 10 0 0 0 8); lia|].
  vm_compute; reflexivity.
Defined.

(** The tie example under the insertion sort is in priority order. *)
Lemma parent_config_priority_order_witness :
  sort_slice_contract insertion_sort /\
  Sorted (fun a b => (ir_priority a <= ir_priority b)%Z)
         (map fst (emitted_ip_rules insertion_sort tie_rules)).
Proof.
  split; [exact insertion_sort_contract|].
  apply (proj1 (proj2 (parent_config_priority_order insertion_sort insertion_sort_contract
                         tie_rules))).
Defined.

(** A parent on port 1023 is refused. *)
Lemma parent_proxy_validation_witness :
  In {| pp_address := "10.0.0.1"; pp_port := 1023; pp_priority := 1; pp_enabled := true |}
     (req_parents {| req_name := "edge"; req_default_action := ""; req_domains := [];
                     req_ip_ranges := [];
                     req_parents := [{| pp_address := "10.0.0.1"; pp_port := 1023;
                                        pp_priority := 1; pp_enabled := true |}];
                     req_client_acl := []; req_proxy_ids := [] |}) /\
  validateRules {| req_name := "edge"; req_default_action := ""; req_domains := [];
                   req_ip_ranges := [];
                   req_parents := [{| pp_address := "10.0.0.1"; pp_port := 1023;
                                      pp_priority := 1; pp_enabled := true |}];
                   req_client_acl := []; req_proxy_ids := [] |} = Fail ErrBadRequest.
Proof.
  assert (Hin : In {| pp_address := "10.0.0.1"; pp_port := 1023; pp_priority := 1;
                      pp_enabled := true |}
     (req_parents {| req_name := "edge"; req_default_action := ""; req_domains := [];
                     req_ip_ranges := [];
                     req_parents := [{| pp_address := "10.0.0.1"; pp_port := 1023;
                                        pp_priority := 1; pp_enabled := true |}];
                     req_client_acl := []; req_proxy_ids := [] |})) by (simpl; left; reflexivity).
  split; [exact Hin|].
  apply (proj2 (parent_proxy_validation empty_db 1 1 7 _ _ Hin)).
  right; left; simpl; lia.
Defined.

(** [demo_request] has no client ACL: the defaults are stored. *)
Lemma Create_default_client_acl_witness :
  req_client_acl demo_request = [] /\
  Create empty_db 1 7 demo_request =
    (fst (Create empty_db 1 7 demo_request),
     Ok {| c_id := 1; c_status := StatusDraft; c_submitted_by := None; c_approved_by := None;
           c_config_hash := None;
           c_rules := {| r_domains := []; r_ip_ranges := []; r_parents := [];
                         r_client_acl := default_client_acl;
                         r_default_action := ActionDirect |} |}) /\
  r_client_acl (c_rules {| c_id := 1; c_status := StatusDraft; c_submitted_by := None;
                           c_approved_by := None; c_config_hash := None;
                           c_rules := {| r_domains := []; r_ip_ranges := []; r_parents := [];
                                         r_client_acl := default_client_acl;
                                         r_default_action := ActionDirect |} |})
  = default_client_acl.
Proof.
  assert (Hacl : req_client_acl demo_request = []) by reflexivity.
  assert (Hok : Create empty_db 1 7 demo_request =
    (fst (Create empty_db 1 7 demo_request),
     Ok {| c_id := 1; c_status := StatusDraft; c_submitted_by := None; c_approved_by := None;
           c_config_hash := None;
           c_rules := {| r_domains := []; r_ip_ranges := []; r_parents := [];
                         r_client_acl := default_client_acl;
                         r_default_action := ActionDirect |} |})) by (vm_compute; reflexivity).
  split; [exact Hacl|]; split; [exact Hok|].
  apply (proj1 (proj2 (proj2 (Create_default_client_acl insertion_sort insertion_sort_contract
                                _ _ _ _ _ _ Hacl Hok)))).
Defined.

(** [edge-1] acknowledges a fingerprint. *)
Lemma Ack_observed_fingerprint_witness :
  GetByHostname demo_db "edge-1" = Some demo_proxy /\
  snd (Ack demo_db 400 {| ack_hostname := "edge-1"; ack_hash := "abc"; ack_status := "ok";
                          ack_message := "" |}) = Ok tt.
Proof.
  assert (H : GetByHostname demo_db "edge-1" = Some demo_proxy) by (vm_compute; reflexivity).
  split; [exact H|].
  apply (proj1 (proj1 (Ack_observed_fingerprint demo_db 400
    {| ack_hostname := "edge-1"; ack_hash := "abc"; ack_status := "ok"; ack_message := "" |}
    demo_proxy H) eq_refl)).
Defined.

(** X1: [ConfigService.Approve] either succeeds or leaves the database as it was: every refusal (missing row, wrong status, no submitter, another approver) returns before the transaction writes. *)
Theorem Approve_all_or_nothing (sort : SortSlice) (db : DB) (id u : UUID) :
  snd (Approve sort db id u) = Ok tt \/ fst (Approve sort db id u) = db.
Proof.
  destruct (config_GetByID db id) as [cfg|] eqn:Hg.
  2:{ right; unfold Approve; rewrite Hg; reflexivity. }
  destruct (status_eqb (c_status cfg) StatusPendingApproval) eqn:Hs.
  2:{ right; unfold Approve; rewrite Hg, Hs; reflexivity. }
  destruct (c_submitted_by cfg) as [sb|] eqn:Hsb.
  2:{ right; unfold Approve; rewrite Hg, Hs, Hsb; reflexivity. }
  destruct (Nat.eqb sb u) eqn:Hu.
  2:{ right; unfold Approve; rewrite Hg, Hs, Hsb, Hu; reflexivity. }
  apply Nat.eqb_eq in Hu; subst sb.
  apply status_eqb_true in Hs.
  destruct (Approve_passes sort db id u cfg Hg Hs Hsb) as [db2 [_ HA]].
  left; rewrite HA; reflexivity.
Qed.

(** X2: a registered proxy without an active configuration is answered [unchanged] with an empty hash and no files; only its [last_seen] is updated. *)
Theorem GetConfig_no_active (sort : SortSlice) (db : DB) (now : Z) (h cur : string) (p : Proxy) :
  GetByHostname db h = Some p -> GetActiveForProxy db h = None ->
  GetConfig sort db now h cur =
    (UpdateLastSeen db (px_id p) now,
     Ok {| cr_unchanged := true; cr_hash := ""; cr_config := None;
           cr_capture_logs := capture_active p now;
           cr_capture_until := if capture_active p now then px_capture_logs_until p else None |}).
Proof.
  intros Hp Ha; unfold GetConfig; rewrite Hp.
  unfold UpdateLastSeen at 1; rewrite GetActiveForProxy_update_proxy by reflexivity.
  rewrite Ha; reflexivity.
Qed.

(** X3: after [SetCaptureLogsUntil t], [GetConfig] reports capture on exactly while [now < t] (with [t] as the deadline), and [Logs] stores every line under the proxy and answers [continue_capture = now < t]. *)
Theorem capture_window (sort : SortSlice) (db : DB) (store : list ProxyLog) (p : Proxy)
    (t now : Z) (cur : string) (lines : list SyncLogLine) :
  GetByHostname db (px_hostname p) = Some p ->
  let db1 := SetCaptureLogsUntil db (px_id p) t in
  (exists db2 r, GetConfig sort db1 now (px_hostname p) cur = (db2, Ok r) /\
     cr_capture_logs r = (now <? t)%Z /\
     cr_capture_until r = (if (now <? t)%Z then Some t else None)) /\
  Logs db1 store now {| lr_hostname := px_hostname p; lr_lines := lines |} =
    ((store ++ map (fun line => {| pl_proxy_id := px_id p; pl_level := ll_level line;
                                   pl_message := ll_message line |}) lines)%list,
     Ok {| lg_received := true; lg_continue_capture := (now <? t)%Z |}).
Proof.
  intros Hp; cbv zeta.
  assert (Hg : GetByHostname (SetCaptureLogsUntil db (px_id p) t) (px_hostname p) =
               Some {| px_id := px_id p; px_hostname := px_hostname p;
                       px_config_id := px_config_id p; px_is_online := px_is_online p;
                       px_last_seen := px_last_seen p;
                       px_current_config_hash := px_current_config_hash p;
                       px_registered_ip := px_registered_ip p;
                       px_capture_logs_until := Some t |}).
  { unfold SetCaptureLogsUntil. apply GetByHostname_update; [reflexivity | exact Hp]. }
  split.
  - unfold GetConfig. rewrite Hg; cbn [capture_active px_capture_logs_until px_id].
    destruct (GetActiveForProxy _ _) as [cfg|].
    + destruct (negb _ && _).
      * eexists; eexists; split; [reflexivity|]; split; reflexivity.
      * destruct (String.eqb _ "");
        (eexists; eexists; split; [reflexivity|]; split; reflexivity).
    + eexists; eexists; split; [reflexivity|]; split; reflexivity.
  - unfold Logs; cbn [lr_hostname lr_lines]; rewrite Hg; reflexivity.
Qed.

(** X4: after [MarkOfflineStale now], a registration of an online host from a new address and without its proxy id is accepted as that proxy exactly when the proxy was last seen more than two minutes before [now]. *)
Theorem MarkOfflineStale_takeover (db : DB) (now now' : Z) (newID : UUID)
    (req : RegisterRequest) (p : Proxy) (t : Z) :
  rr_hostname req <> "" ->
  GetByHostname db (rr_hostname req) = Some p ->
  px_is_online p = true -> px_last_seen p = Some t ->
  rr_proxy_id req <> uuid_string (px_id p) ->
  px_registered_ip p <> Some (rr_remote_ip req) ->
  (exists db' r, Register (MarkOfflineStale db now) now' newID req = (db', Ok r) /\
                 resp_proxy_id r = uuid_string (px_id p))
  <-> (t < now - 120)%Z.
Proof.
  intros Hh Hp Hon Hls Hid Hip.
  set (g := fun p : Proxy =>
    if seen_before p (now - 120) && px_is_online p then
      {| px_id := px_id p; px_hostname := px_hostname p; px_config_id := px_config_id p;
         px_is_online := false; px_last_seen := px_last_seen p;
         px_current_config_hash := px_current_config_hash p;
         px_registered_ip := px_registered_ip p;
         px_capture_logs_until := px_capture_logs_until p |}
    else p).
  assert (Hg : GetByHostname (MarkOfflineStale db now) (rr_hostname req) = Some (g p)).
  { unfold GetByHostname, MarkOfflineStale in *; cbn [proxies set_proxies].
    fold g. rewrite find_map_invariant.
    - rewrite Hp; reflexivity.
    - intros x; unfold g; destruct (seen_before x (now - 120) && px_is_online x); reflexivity. }
  assert (HsameIP : match px_registered_ip (g p) with
                    | Some ip => String.eqb ip (rr_remote_ip req) | None => false end = false).
  { assert (E : px_registered_ip (g p) = px_registered_ip p)
      by (unfold g; destruct (seen_before p (now - 120) && px_is_online p); reflexivity).
    rewrite E; destruct (px_registered_ip p) as [ip|]; [|reflexivity].
    apply String.eqb_neq; intros ->; apply Hip; reflexivity. }
  assert (HsameID : negb (String.eqb (rr_proxy_id req) "")
                    && String.eqb (rr_proxy_id req) (uuid_string (px_id (g p))) = false).
  { assert (E : px_id (g p) = px_id p) by (unfold g; destruct (seen_before p (now - 120) && px_is_online p); reflexivity).
    rewrite E; apply andb_false_iff; right; apply String.eqb_neq; exact Hid. }
  assert (Hon' : px_is_online (g p) = negb (t <? now - 120)%Z).
  { unfold g, seen_before; rewrite Hls, Hon; destruct (t <? now - 120)%Z; cbn; [reflexivity | exact Hon]. }
  assert (Hid' : px_id (g p) = px_id p) by (unfold g; destruct (seen_before p (now - 120) && px_is_online p); reflexivity).
  unfold Register.
  rewrite (proj2 (String.eqb_neq _ _) Hh), Hg, HsameIP, HsameID, Hon'.
  destruct (t <? now - 120)%Z eqn:Ht; cbn [negb andb].
  - split; [intros _; apply Z.ltb_lt; exact Ht|intros _].
    eexists; eexists; split; [reflexivity|]; cbn; rewrite Hid'; reflexivity.
  - split; [intros [db' [r [E _]]]; discriminate E|intros H; apply Z.ltb_lt in H; congruence].
Qed.

Lemma substring_0_length (s : string) : substring 0 (String.length s) s = s.
Proof. induction s as [|c s IH]; simpl; [reflexivity|]; rewrite IH; reflexivity. Qed.

Lemma prefix_empty (s : string) : String.prefix "" s = true.
Proof. destruct s; reflexivity. Qed.

Lemma domainPattern_no_leading_dot (rest : string) :
  domainPattern_match (String "." rest) = false.
Proof.
  unfold domainPattern_match; cbn [list_ascii_of_string].
  destruct (list_ascii_of_string rest) as [|c2 r] eqn:E; [reflexivity|].
  cbn [GoNet.char_eqb Ascii.eqb]; simpl.
  destruct (split_dots (c2 :: r)); simpl; rewrite ?andb_false_r; reflexivity.
Qed.

Ltac prefix_cases :=
  repeat (cbn [String.prefix String.length substring Nat.sub String.append] in *;
          first [ match goal with |- context [ascii_dec ?a ?b] =>
                    destruct (ascii_dec a b); try subst; try congruence end
                | rewrite prefix_empty
                | rewrite substring_0_length ]).

(** X5: for a valid domain pattern, [domainToSNI] inverts [domainToATS], and the ATS form starts with a dot exactly when the pattern starts with [*.]. *)
Theorem domain_forms_roundtrip (d : string) :
  domainPattern_match d = true ->
  domainToSNI (domainToATS d) = d /\
  prefixb "." (domainToATS d) = prefixb "*." d.
Proof.
  intros Hm.
  destruct d as [|c1 rest]; [vm_compute in Hm; discriminate|].
  destruct (ascii_dec "." c1) as [<-|Hn1].
  { rewrite domainPattern_no_leading_dot in Hm; discriminate. }
  unfold domainToATS, domainToSNI, prefixb.
  destruct rest as [|c2 rest']; prefix_cases; split; reflexivity.
Qed.

Lemma sort_unique (sort : SortSlice) (Hs : sort_slice_contract sort) {A} (key : A -> Z)
    (l l' : list A) :
  Permutation l l' -> NoDup (map key l) -> sort A key l = sort A key l'.
Proof.
  intros Hp Hn.
  destruct (Hs A key l) as [P1 S1]; destruct (Hs A key l') as [P2 S2].
  apply sorted_perm_unique with (key := key); auto.
  - eapply Permutation_trans; [exact P1|]; eapply Permutation_trans; [exact Hp|].
    apply Permutation_sym; exact P2.
  - eapply Permutation_NoDup; [|exact Hn]. apply Permutation_map, Permutation_sym, P1.
Qed.

(** X6: with distinct priorities in each rule list, the generated files and their hash do not depend on the order in which the rows are listed. *)
Theorem GenerateConfigFiles_row_order (sort : SortSlice) (Hs : sort_slice_contract sort)
    (rs rs' : ConfigRules) :
  Permutation (r_domains rs) (r_domains rs') ->
  Permutation (r_ip_ranges rs) (r_ip_ranges rs') ->
  Permutation (r_parents rs) (r_parents rs') ->
  Permutation (r_client_acl rs) (r_client_acl rs') ->
  r_default_action rs = r_default_action rs' ->
  NoDup (map dr_priority (r_domains rs)) -> NoDup (map ir_priority (r_ip_ranges rs)) ->
  NoDup (map pp_priority (r_parents rs)) -> NoDup (map acl_priority (r_client_acl rs)) ->
  GenerateConfigFiles sort rs = GenerateConfigFiles sort rs' /\
  GenerateConfigHash sort rs = GenerateConfigHash sort rs'.
Proof.
  intros P1 P2 P3 P4 Hda N1 N2 N3 N4.
  assert (E : GenerateConfigFiles sort rs = GenerateConfigFiles sort rs').
  { unfold GenerateConfigFiles, generateParentConfig_inplace, generateIPAllowYaml.
    rewrite (sort_unique sort Hs dr_priority _ _ P1 N1),
            (sort_unique sort Hs ir_priority _ _ P2 N2),
            (sort_unique sort Hs pp_priority _ _ P3 N3),
            (sort_unique sort Hs acl_priority _ _ P4 N4), Hda.
    reflexivity. }
  split; [exact E|]. unfold GenerateConfigHash; rewrite E; reflexivity.
Qed.

(** X7: when no parent proxy is enabled, [parent.config] is the infrastructure rules, the rule lines with an empty parent list and a [go_direct=true] default, and only [direct] rules get a line. *)
Theorem parent_config_no_enabled_parent (sort : SortSlice) (Hs : sort_slice_contract sort)
    (ipRanges : list IPRangeRule) (domainRules : list DomainRule)
    (parentProxies : list ParentProxy) (defaultAction : string) :
  forallb (fun pp => negb (pp_enabled pp)) parentProxies = true ->
  generateParentConfig sort ipRanges domainRules parentProxies defaultAction =
    infrastructure_rules
    ++ write_lines (ip_range_line "") (sort _ ir_priority ipRanges)
    ++ write_lines (domain_line "") (sort _ dr_priority domainRules)
    ++ "dest_domain=. go_direct=true" ++ nl /\
  (forall ir s, ip_range_line "" ir = Some s -> ir_action ir = ActionDirect) /\
  (forall dr s, domain_line "" dr = Some s -> dr_action dr = ActionDirect).
Proof.
  intros Hnone.
  assert (Hf : filter pp_enabled (sort _ pp_priority parentProxies) = []).
  { destruct (Hs _ pp_priority parentProxies) as [P _].
    destruct (filter pp_enabled (sort _ pp_priority parentProxies)) as [|x r] eqn:E; auto.
    assert (Hx : In x (filter pp_enabled (sort _ pp_priority parentProxies))) by (rewrite E; left; auto).
    apply filter_In in Hx as [Hx He].
    apply (Permutation_in _ P) in Hx.
    rewrite forallb_forall in Hnone; specialize (Hnone x Hx); rewrite He in Hnone; discriminate. }
  split; [|split].
  - unfold generateParentConfig, generateParentConfig_inplace; cbn [fst].
    rewrite Hf; unfold parent_list; cbn [map join String.concat].
    unfold default_rule; rewrite andb_false_r; reflexivity.
  - intros ir s; unfold ip_range_line.
    destruct (String.eqb (ir_action ir) ActionDirect) eqn:E.
    + intros _; apply String.eqb_eq; exact E.
    + rewrite andb_false_r; discriminate.
  - intros dr s; unfold domain_line.
    destruct (String.eqb (dr_action dr) ActionDirect) eqn:E.
    + intros _; apply String.eqb_eq; exact E.
    + rewrite andb_false_r; discriminate.
Qed.

Lemma mask_size_ok_all : forallb mask_size_ok (map Z.of_nat (seq 0 33)) = true.
Proof. vm_compute. reflexivity. Qed.

Lemma ipv4_fields_suffix (a b c d : Z) (rest : list ascii) :
  (0 <= a < 256)%Z -> (0 <= b < 256)%Z -> (0 <= c < 256)%Z -> (0 <= d < 256)%Z ->
  exists cd ld, GoNet.is_digit cd = true /\
    GoNet.ipv4_fields_loop (GoNet.ipv4_string [a; b; c; d] ++ rest) None 0 0 [] =
    GoNet.ipv4_fields_loop rest (Some cd) d ld [a; b; c].
Proof.
  intros Ha Hb Hc Hd; rewrite ipv4_string_4.
  destruct (dec_byte_facts a None Ha) as [_ [_ [ca [la [Ra Da]]]]].
  destruct (dec_byte_facts b (Some "."%char) Hb) as [Nb [_ [cb [lb [Rb Db]]]]].
  destruct (dec_byte_facts c (Some "."%char) Hc) as [Nc [_ [cc [lc [Rc Dc]]]]].
  destruct (dec_byte_facts d (Some "."%char) Hd) as [Nd [_ [cd [ld [Rd Dd]]]]].
  exists cd, ld; split; [exact Dd|].
  repeat (rewrite <- app_assoc || rewrite <- app_comm_cons).
  rewrite (digits_run_loop _ _ _ _ _ _ _ _ _ Ra).
  rewrite fields_dot;
    [| exact Da | intros H; apply app_eq_nil in H as [H _]; exact (Nb H) | simpl; discriminate].
  rewrite (digits_run_loop _ _ _ _ _ _ _ _ _ Rb).
  rewrite fields_dot;
    [| exact Db | intros H; apply app_eq_nil in H as [H _]; exact (Nc H) | simpl; discriminate].
  rewrite (digits_run_loop _ _ _ _ _ _ _ _ _ Rc).
  rewrite fields_dot;
    [| exact Dc | intros H; apply app_eq_nil in H as [H _]; exact (Nd H) | simpl; discriminate].
  rewrite (digits_run_loop _ _ _ _ _ _ _ _ _ Rd).
  reflexivity.
Qed.

Lemma ParseIP_cidr_selector (a b c d n : Z) :
  (0 <= a < 256)%Z -> (0 <= b < 256)%Z -> (0 <= c < 256)%Z -> (0 <= d < 256)%Z ->
  GoNet.ParseIP (cidr_selector [a; b; c; d] n) = None.
Proof.
  intros Ha Hb Hc Hd; unfold GoNet.ParseIP, GoNet.parse_addr, cidr_selector.
  rewrite list_ascii_of_string_of_list_ascii.
  destruct (dec_byte_facts a None Ha) as [_ [Fa _]].
  remember (GoNet.ipv4_string [a; b; c; d] ++ "/"%char :: GoNet.dec_byte n)%list as L eqn:HL.
  rewrite HL at 2; rewrite ipv4_string_4, <- app_assoc, dispatch_digits by exact Fa.
  cbn [app GoNet.parse_addr_dispatch].
  replace (GoNet.char_eqb "."%char "."%char) with true by reflexivity.
  unfold GoNet.parse_ipv4_fields; rewrite HL.
  destruct (ipv4_fields_suffix a b c d ("/"%char :: GoNet.dec_byte n) Ha Hb Hc Hd)
    as [cd [ld [_ ->]]].
  reflexivity.
Qed.

Lemma ParseIP_ipv4_selector (a b c d : Z) :
  (0 <= a < 256)%Z -> (0 <= b < 256)%Z -> (0 <= c < 256)%Z -> (0 <= d < 256)%Z ->
  GoNet.ParseIP (ipv4_selector [a; b; c; d]) = Some (GoNet.v4InV6Prefix ++ [a; b; c; d])%list.
Proof.
  intros Ha Hb Hc Hd; unfold GoNet.ParseIP, ipv4_selector.
  rewrite list_ascii_of_string_of_list_ascii, parse_addr_canonical by auto; reflexivity.
Qed.

(** X8: [validateCIDR] on a bare IPv4 address refuses exactly [0.0.0.0] and accepts every other address. *)
Theorem validateCIDR_bare_ipv4 (a b c d : Z) (prefix : string) :
  (0 <= a < 256)%Z -> (0 <= b < 256)%Z -> (0 <= c < 256)%Z -> (0 <= d < 256)%Z ->
  validateCIDR (ipv4_selector [a; b; c; d]) prefix =
    if (a =? 0)%Z && (b =? 0)%Z && (c =? 0)%Z && (d =? 0)%Z
    then prefix ++ ": 0.0.0.0 is not allowed" else "".
Proof.
  intros Ha Hb Hc Hd; unfold validateCIDR; rewrite ParseIP_ipv4_selector by auto.
  unfold is_v4_zero, GoNet.To4, ip_Equal, IPv4zero, GoNet.list_Z_eqb; cbn.
  destruct (a =? 0)%Z, (b =? 0)%Z, (c =? 0)%Z, (d =? 0)%Z; reflexivity.
Qed.

(** X9: [validateCIDR] on an IPv4 CIDR refuses exactly the ranges whose network address is [0.0.0.0], naming the prefix length; in particular every /0 range is refused. *)
Theorem validateCIDR_ipv4_cidr (a b c d n : Z) (prefix : string) :
  (0 <= a < 256)%Z -> (0 <= b < 256)%Z -> (0 <= c < 256)%Z -> (0 <= d < 256)%Z ->
  (0 <= n <= 32)%Z ->
  validateCIDR (cidr_selector [a; b; c; d] n) prefix =
    (if forallb (fun x => x =? 0)%Z
          (map (fun q => Z.land (fst q) (snd q))
               (combine [a; b; c; d] (map (prefix_mask_byte n) [0; 1; 2; 3]%Z)))
     then prefix ++ ": 0.0.0.0/" ++ itoa n ++ " is not allowed" else "") /\
  (n = 0%Z -> validateCIDR (cidr_selector [a; b; c; d] n) prefix =
              prefix ++ ": 0.0.0.0/0 is not allowed").
Proof.
  intros Ha Hb Hc Hd Hn.
  assert (E : validateCIDR (cidr_selector [a; b; c; d] n) prefix =
    (if forallb (fun x => x =? 0)%Z
          (map (fun q => Z.land (fst q) (snd q))
               (combine [a; b; c; d] (map (prefix_mask_byte n) [0; 1; 2; 3]%Z)))
     then prefix ++ ": 0.0.0.0/" ++ itoa n ++ " is not allowed" else "")).
  { unfold validateCIDR; rewrite ParseIP_cidr_selector, ParseCIDR_canonical by auto.
    cbn [GoNet.net_ip GoNet.net_mask].
    pose proof (forallb_range mask_size_ok 33 mask_size_ok_all n ltac:(lia)) as Hm.
    unfold mask_size_ok in Hm; apply Z.eqb_eq in Hm; rewrite Hm.
    unfold is_v4_zero, GoNet.To4, ip_Equal, IPv4zero, GoNet.list_Z_eqb.
    cbn [map combine fst snd List.length Nat.eqb andb app GoNet.v4InV6Prefix forallb].
    generalize (Z.land a (prefix_mask_byte n 0)) (Z.land b (prefix_mask_byte n 1))
               (Z.land c (prefix_mask_byte n 2)) (Z.land d (prefix_mask_byte n 3)).
    intros xa xb xc xd; cbn [Z.eqb Pos.eqb].
    destruct xa, xb, xc, xd; reflexivity. }
  split; [exact E|]; intros ->; rewrite E.
  unfold prefix_mask_byte; cbn [map combine fst snd].
  rewrite !Z.land_0_r; reflexivity.
Qed.

Lemma config_GetByID_map (db : DB) (g : Config -> Config) (id : UUID) :
  (forall c, c_id (g c) = c_id c) ->
  config_GetByID (set_configs db (map g (configs db))) id = option_map g (config_GetByID db id).
Proof.
  intros Hg; unfold config_GetByID; cbn [configs set_configs].
  apply find_map_invariant; intros c; rewrite Hg; reflexivity.
Qed.

Lemma config_GetByID_id (db : DB) (id : UUID) (c : Config) :
  config_GetByID db id = Some c -> In c (configs db) /\ c_id c = id.
Proof.
  unfold config_GetByID; intros H; apply find_some in H as [H1 H2].
  split; [exact H1 | apply Nat.eqb_eq; exact H2].
Qed.

Lemma config_GetByID_DeactivateOthers (db : DB) (id : UUID) :
  config_GetByID (DeactivateOthers db id) id = config_GetByID db id.
Proof.
  unfold DeactivateOthers; rewrite config_GetByID_map by (intros c; destruct (_ && _); reflexivity).
  destruct (config_GetByID db id) as [c|] eqn:E; [|reflexivity]; cbn [option_map].
  apply config_GetByID_id in E as [_ ->]; rewrite Nat.eqb_refl; cbn [negb].
  rewrite andb_false_r, andb_false_l; reflexivity.
Qed.

(** X10: a draft submitted by a user and then approved by the same user becomes active, with that user as submitter and approver and the fingerprint of its rules. *)
Theorem Submit_then_Approve (sort : SortSlice) (db : DB) (id v : UUID) (c : Config) :
  config_GetByID db id = Some c -> c_status c = StatusDraft ->
  exists db1 db2, Submit db id v = (db1, Ok tt) /\ Approve sort db1 id v = (db2, Ok tt) /\
    config_GetByID db2 id =
      Some {| c_id := c_id c; c_status := StatusActive; c_submitted_by := Some v;
              c_approved_by := Some v;
              c_config_hash := Some (GenerateConfigHash sort (c_rules c));
              c_rules := c_rules c |}.
Proof.
  intros Hget Hd.
  destruct (config_GetByID_id db id c Hget) as [Hin Hid].
  unfold Submit, repo_Submit.
  replace (existsb _ (configs db)) with true
    by (symmetry; apply existsb_exists; exists c; rewrite Hid, Nat.eqb_refl, Hd; auto).
  set (g := fun c0 : Config => if Nat.eqb (c_id c0) id && status_eqb (c_status c0) StatusDraft then _ else c0).
  set (db1 := set_configs db (map g (configs db))).
  set (c1 := {| c_id := c_id c; c_status := StatusPendingApproval; c_submitted_by := Some v;
                c_approved_by := c_approved_by c; c_config_hash := c_config_hash c;
                c_rules := c_rules c |}).
  assert (Hget1 : config_GetByID db1 id = Some c1).
  { unfold db1; rewrite config_GetByID_map, Hget
      by (intros c0; unfold g; destruct (_ && _); reflexivity).
    cbn [option_map]; unfold g.
    replace (Nat.eqb (c_id c) id) with true by (rewrite Hid, Nat.eqb_refl; reflexivity).
    rewrite Hd; reflexivity. }
  destruct (Approve_passes sort db1 id v c1 Hget1 eq_refl eq_refl) as [db2 [Hr Ha]].
  exists db1, db2; split; [reflexivity|]; split; [exact Ha|].
  revert Hr; unfold repo_Approve.
  destruct (existsb _ _); [|discriminate]; intros Hr; injection Hr as <-.
  rewrite config_GetByID_map by (intros c0; destruct (_ && _); reflexivity).
  rewrite config_GetByID_DeactivateOthers, Hget1; cbn [option_map].
  unfold c1 at 1 2; cbn [c_id c_status].
  replace (Nat.eqb (c_id c) id) with true by (rewrite Hid, Nat.eqb_refl; reflexivity).
  reflexivity.
Qed.

(** X11: rejecting a pending configuration puts it back to draft with no submitter, after which it can no longer be approved. *)
Theorem Reject_back_to_draft (sort : SortSlice) (db : DB) (id : UUID) (c : Config) :
  config_GetByID db id = Some c -> c_status c = StatusPendingApproval ->
  exists db1, Reject db id = (db1, Ok tt) /\
    config_GetByID db1 id =
      Some {| c_id := c_id c; c_status := StatusDraft; c_submitted_by := None;
              c_approved_by := c_approved_by c; c_config_hash := c_config_hash c;
              c_rules := c_rules c |} /\
    (forall u, Approve sort db1 id u = (db1, Fail ErrInvalidStatus)).
Proof.
  intros Hget Hp.
  destruct (config_GetByID_id db id c Hget) as [Hin Hid].
  unfold Reject, repo_Reject.
  replace (existsb _ (configs db)) with true
    by (symmetry; apply existsb_exists; exists c; rewrite Hid, Nat.eqb_refl, Hp; auto).
  eexists; split; [reflexivity|].
  assert (Hget1 : config_GetByID (set_configs db (map (fun c0 =>
      if Nat.eqb (c_id c0) id && status_eqb (c_status c0) StatusPendingApproval then
        {| c_id := c_id c0; c_status := StatusDraft; c_submitted_by := None;
           c_approved_by := c_approved_by c0; c_config_hash := c_config_hash c0;
           c_rules := c_rules c0 |}
      else c0) (configs db))) id =
      Some {| c_id := c_id c; c_status := StatusDraft; c_submitted_by := None;
              c_approved_by := c_approved_by c; c_config_hash := c_config_hash c;
              c_rules := c_rules c |}).
  { rewrite config_GetByID_map, Hget by (intros c0; destruct (_ && _); reflexivity).
    cbn [option_map].
    replace (Nat.eqb (c_id c) id) with true by (rewrite Hid, Nat.eqb_refl; reflexivity).
    rewrite Hp; reflexivity. }
  split; [exact Hget1|].
  intros u; unfold Approve; rewrite Hget1; reflexivity.
Qed.

Lemma GetActiveForProxy_serves (db : DB) (h : string) :
  GetActiveForProxy db h = find (serves db h) (configs db).
Proof. reflexivity. Qed.

Lemma find_ext_in {A} (P Q : A -> bool) (l : list A) :
  (forall x, In x l -> P x = Q x) -> find P l = find Q l.
Proof.
  induction l as [| x l IH]; intros H; simpl; [reflexivity|].
  rewrite (H x (or_introl eq_refl)), IH by (intros y Hy; apply H; right; exact Hy).
  reflexivity.
Qed.

Lemma find_map_fix {A} (P : A -> bool) (g : A -> A) (l : list A) :
  (forall x, P (g x) = P x) -> (forall x, P x = true -> g x = x) ->
  find P (map g l) = find P l.
Proof.
  intros H1 H2; induction l as [| x l IH]; simpl; [reflexivity|].
  rewrite H1; destruct (P x) eqn:E; [rewrite (H2 x E); reflexivity | exact IH].
Qed.

Lemma find_app_none {A} (P : A -> bool) (l1 l2 : list A) :
  (forall x, In x l2 -> P x = false) -> find P (l1 ++ l2) = find P l1.
Proof.
  intros H; induction l1 as [| x l1 IH]; simpl.
  - induction l2 as [| y l2 IH2]; simpl; [reflexivity|].
    rewrite (H y (or_introl eq_refl)); apply IH2; intros z Hz; apply H; right; exact Hz.
  - rewrite IH; reflexivity.
Qed.

Lemma existsb_app' {A} (P : A -> bool) (l1 l2 : list A) :
  existsb P (l1 ++ l2) = existsb P l1 || existsb P l2.
Proof. induction l1 as [| x l1 IH]; simpl; [reflexivity | rewrite IH, orb_assoc; reflexivity]. Qed.

Lemma existsb_false_fst (P : UUID * UUID -> bool) (k : UUID) (l : list (UUID * UUID)) :
  (forall cp, In cp l -> fst cp <> k) ->
  existsb (fun cp : UUID * UUID => Nat.eqb (fst cp) k && P cp) l = false.
Proof.
  intros H; apply not_true_iff_false; intros Hx; apply existsb_exists in Hx as [cp [Hin Hx]].
  apply andb_prop in Hx as [Hx _]; apply Nat.eqb_eq in Hx; exact (H cp Hin Hx).
Qed.

Lemma existsb_filter_fst (P : UUID * UUID -> bool) (k id : UUID) (l : list (UUID * UUID)) :
  k <> id ->
  existsb (fun cp : UUID * UUID => Nat.eqb (fst cp) k && P cp)
          (filter (fun cp : UUID * UUID => negb (Nat.eqb (fst cp) id)) l)
  = existsb (fun cp : UUID * UUID => Nat.eqb (fst cp) k && P cp) l.
Proof.
  intros Hk; induction l as [| cp l IH]; [reflexivity|]; cbn [filter].
  destruct (Nat.eqb (fst cp) id) eqn:E; cbn [negb existsb]; rewrite IH; [|reflexivity].
  apply Nat.eqb_eq in E; rewrite E; apply Nat.eqb_neq in Hk; rewrite (Nat.eqb_sym id k), Hk.
  reflexivity.
Qed.

(** A row appended as a draft, with assignment rows for its fresh id only,
    changes no proxy's active configuration. *)
Lemma serves_append_draft (db : DB) (h : string) (cfg : Config) (cps : list (UUID * UUID)) :
  c_status cfg = StatusDraft -> ~ In (c_id cfg) (map c_id (configs db)) ->
  (forall cp, In cp cps -> fst cp = c_id cfg) ->
  find (serves {| configs := (configs db ++ [cfg])%list;
                  config_proxies := (config_proxies db ++ cps)%list;
                  proxies := proxies db |} h) (configs db ++ [cfg])
  = find (serves db h) (configs db).
Proof.
  intros Hs Hfresh Hcps.
  rewrite find_app_none by (intros x [<- | []]; unfold serves; rewrite Hs; reflexivity).
  apply find_ext_in; intros c Hin; unfold serves; cbn [config_proxies proxies].
  rewrite existsb_app', (existsb_false_fst _ _ cps); [rewrite orb_false_r; reflexivity|].
  intros cp Hcp Heq; apply Hfresh; rewrite <- (Hcps cp Hcp), Heq; apply in_map; exact Hin.
Qed.

(** X12: when configuration ids are distinct and new rows get unused ids, creating, updating, cloning, submitting or rejecting a configuration never changes which configuration a proxy is served. *)
Theorem draft_ops_keep_served (db : DB) (h : string) :
  NoDup (map c_id (configs db)) ->
  (forall newID u req, ~ In newID (map c_id (configs db)) ->
     GetActiveForProxy (fst (Create db newID u req)) h = GetActiveForProxy db h) /\
  (forall id u req, GetActiveForProxy (fst (Update db id u req)) h = GetActiveForProxy db h) /\
  (forall id newID, ~ In newID (map c_id (configs db)) ->
     GetActiveForProxy (fst (Clone db id newID)) h = GetActiveForProxy db h) /\
  (forall id u, GetActiveForProxy (fst (Submit db id u)) h = GetActiveForProxy db h) /\
  (forall id, GetActiveForProxy (fst (Reject db id)) h = GetActiveForProxy db h).
Proof.
  intros Hnd; split; [|split; [|split; [|split]]].
  - intros newID u req Hfresh; unfold Create.
    destruct (String.eqb _ _); [reflexivity|].
    destruct (validateRules req); [|reflexivity]; cbn [fst].
    rewrite !GetActiveForProxy_serves; apply serves_append_draft; cbn [c_id c_status]; auto.
    intros cp Hcp; apply in_map_iff in Hcp as [pid [<- _]]; reflexivity.
  - intros id u req; unfold Update.
    destruct (validateRules req); [|reflexivity].
    destruct (config_GetByID db id) as [cfg|] eqn:Eg; [|reflexivity].
    destruct (negb (status_eqb (c_status cfg) StatusDraft)) eqn:Ed; [reflexivity|].
    apply negb_false_iff, status_eqb_true in Ed.
    apply config_GetByID_id in Eg as [Hcfg Hid].
    cbn [fst]; rewrite !GetActiveForProxy_serves.
    assert (Hact : forall c, In c (configs db) -> c_status c = StatusActive -> c_id c <> id).
    { intros c Hc Ha Heq; assert (c = cfg) as -> by (apply (nodup_ids_eq (configs db)); congruence).
      congruence. }
    transitivity (find (serves {| configs := configs db;
                  config_proxies :=
                    (filter (fun cp => negb (Nat.eqb (fst cp) id)) (config_proxies db)
                     ++ map (fun pid => (id, pid)) (req_proxy_ids req))%list;
                  proxies := proxies db |} h) (configs db)).
    + apply find_map_fix.
      * intros c; destruct (_ && _); reflexivity.
      * intros c Hc; unfold serves in Hc; apply andb_prop in Hc as [Hc _].
        apply status_eqb_true in Hc; rewrite Hc, andb_false_r; reflexivity.
    + apply find_ext_in; intros c Hin; unfold serves; cbn [config_proxies proxies].
      destruct (status_eqb (c_status c) StatusActive) eqn:Ea; [|reflexivity].
      apply status_eqb_true in Ea; cbn [andb].
      rewrite existsb_app', existsb_filter_fst by (apply Hact; auto).
      rewrite (existsb_false_fst _ _ (map _ (req_proxy_ids req)));
        [rewrite orb_false_r; reflexivity|].
      intros cp Hcp Heq; apply in_map_iff in Hcp as [pid [<- _]].
      apply (Hact c Hin Ea); exact (eq_sym Heq).
  - intros id newID Hfresh; unfold Clone.
    destruct (config_GetByID db id) as [orig|]; [|reflexivity]; cbn [fst].
    rewrite !GetActiveForProxy_serves; apply serves_append_draft; cbn [c_id c_status]; auto.
    intros cp Hcp; apply in_map_iff in Hcp as [cp0 [<- _]]; reflexivity.
  - intros id u; unfold Submit, repo_Submit.
    destruct (existsb _ _); [|reflexivity]; cbn [fst].
    rewrite !GetActiveForProxy_serves; apply find_map_fix.
    + intros c; destruct (_ && _) eqn:E; [|reflexivity].
      apply andb_prop in E as [_ E]; apply status_eqb_true in E.
      unfold serves; cbn [c_status c_id]; rewrite E; reflexivity.
    + intros c Hc; unfold serves in Hc; apply andb_prop in Hc as [Hc _].
      apply status_eqb_true in Hc; rewrite Hc, andb_false_r; reflexivity.
  - intros id; unfold Reject, repo_Reject.
    destruct (existsb _ _); [|reflexivity]; cbn [fst].
    rewrite !GetActiveForProxy_serves; apply find_map_fix.
    + intros c; destruct (_ && _) eqn:E; [|reflexivity].
      apply andb_prop in E as [_ E]; apply status_eqb_true in E.
      unfold serves; cbn [c_status c_id]; rewrite E; reflexivity.
    + intros c Hc; unfold serves in Hc; apply andb_prop in Hc as [Hc _].
      apply status_eqb_true in Hc; rewrite Hc, andb_false_r; reflexivity.
Qed.

Lemma update_proxy_hostnames (db : DB) (id : UUID) (f : Proxy -> Proxy) :
  (forall p, px_hostname (f p) = px_hostname p) ->
  map px_hostname (proxies (update_proxy db id f)) = map px_hostname (proxies db).
Proof.
  intros Hf; unfold update_proxy; cbn [proxies set_proxies]; rewrite map_map.
  apply map_ext; intros p; destruct (Nat.eqb (px_id p) id); auto.
Qed.

Lemma Approve_proxies (sort : SortSlice) (db : DB) (id u : UUID) :
  proxies (fst (Approve sort db id u)) = proxies db.
Proof.
  unfold Approve.
  destruct (config_GetByID db id) as [cfg|]; [|reflexivity].
  destruct (negb _); [reflexivity|].
  destruct (c_submitted_by cfg) as [sb|]; [|reflexivity].
  destruct (negb _); [reflexivity|].
  unfold repo_Approve; destruct (existsb _ _); reflexivity.
Qed.

Lemma GetByHostname_none (db : DB) (h : string) :
  GetByHostname db h = None -> ~ In h (map px_hostname (proxies db)).
Proof.
  unfold GetByHostname; intros Hn Hin; apply in_map_iff in Hin as [p [Hp Hin]].
  destruct (find_in_some (fun p => String.eqb (px_hostname p) h) (proxies db) p Hin)
    as [q [Hq _]]; [apply String.eqb_eq; exact Hp | congruence].
Qed.

Lemma step_hostnames (sort : SortSlice) (db db' : DB) :
  lifecycle_step sort db db' ->
  NoDup (map px_hostname (proxies db)) -> NoDup (map px_hostname (proxies db')).
Proof.
  intros Hs Hnd; destruct Hs as [db newID u req _ | db id u req | db id newID _ | db id u | db id
                                 | db id u | db now h cur | db now newID req | db now req].
  - unfold Create; destruct (String.eqb _ _); [exact Hnd|].
    destruct (validateRules req); exact Hnd.
  - unfold Update; destruct (validateRules req); [|exact Hnd].
    destruct (config_GetByID db id) as [cfg|]; [|exact Hnd].
    destruct (negb _); exact Hnd.
  - unfold Clone; destruct (config_GetByID db id); exact Hnd.
  - unfold Submit, repo_Submit; destruct (existsb _ _); exact Hnd.
  - unfold Reject, repo_Reject; destruct (existsb _ _); exact Hnd.
  - rewrite Approve_proxies; exact Hnd.
  - unfold GetConfig; destruct (GetByHostname db h) as [p|]; [|exact Hnd].
    assert (Hu : NoDup (map px_hostname (proxies (UpdateLastSeen db (px_id p) now))))
      by (unfold UpdateLastSeen; rewrite update_proxy_hostnames by reflexivity; exact Hnd).
    destruct (GetActiveForProxy _ h) as [cfg|]; cbn [fst]; [|exact Hu].
    destruct (negb _ && _); cbn [fst]; [exact Hu|].
    destruct (String.eqb _ ""); cbn [fst]; [|exact Hu].
    unfold repo_UpdateHash; exact Hu.
  - unfold Register; destruct (String.eqb (rr_hostname req) ""); [exact Hnd|].
    destruct (GetByHostname db (rr_hostname req)) as [p|] eqn:Eg.
    + destruct (_ && _ && _); [exact Hnd|]; cbn [fst].
      unfold UpdateLastSeen; rewrite update_proxy_hostnames by reflexivity.
      unfold UpdateRegisteredIP; rewrite update_proxy_hostnames by reflexivity; exact Hnd.
    + cbn [fst]; unfold UpdateLastSeen; rewrite update_proxy_hostnames by reflexivity.
      unfold proxy_Create; cbn [proxies set_proxies]; rewrite map_app; cbn [map px_hostname].
      apply NoDup_app; auto using NoDup_cons, NoDup_nil.
      intros x Hx [<- | []]; exact (GetByHostname_none db _ Eg Hx).
  - unfold Ack; destruct (GetByHostname db (ack_hostname req)); [|exact Hnd].
    destruct (String.eqb _ _); [|exact Hnd]; cbn [fst].
    unfold UpdateConfigHash; rewrite update_proxy_hostnames by reflexivity; exact Hnd.
Qed.

(** X13: in every reachable state no two proxy rows share a hostname. *)
Theorem reachable_hostnames_unique (sort : SortSlice) (db : DB) :
  reachable sort db -> NoDup (map px_hostname (proxies db)).
Proof.
  induction 1 as [| db db' _ IH Hs]; [constructor|].
  exact (step_hostnames sort db db' Hs IH).
Qed.

Lemma nodup_map_eq {A B} (f : A -> B) (l : list A) (x y : A) :
  NoDup (map f l) -> In x l -> In y l -> f x = f y -> x = y.
Proof.
  induction l as [| z l IH]; intros Hnd Hx Hy Hxy; [destruct Hx|].
  simpl in Hnd; inversion Hnd as [| ? ? Hz Hnd']; subst.
  destruct Hx as [<- | Hx], Hy as [<- | Hy]; auto.
  - exfalso; apply Hz; rewrite Hxy; apply in_map; auto.
  - exfalso; apply Hz; rewrite <- Hxy; apply in_map; auto.
Qed.

Lemma GetByHostname_in (db : DB) (p : Proxy) :
  NoDup (map px_hostname (proxies db)) -> In p (proxies db) ->
  GetByHostname db (px_hostname p) = Some p.
Proof.
  intros Hnd Hin; unfold GetByHostname.
  destruct (find_in_some (fun q => String.eqb (px_hostname q) (px_hostname p)) (proxies db) p Hin)
    as [q [Hq Hqh]]; [apply String.eqb_refl|].
  rewrite Hq; f_equal; apply (nodup_map_eq px_hostname (proxies db)); auto.
  - apply find_some in Hq; apply Hq.
  - apply String.eqb_eq; exact Hqh.
Qed.

Lemma Approve_pending_submitter (sort : SortSlice) (db : DB) (id u : UUID) (cfg : Config) :
  config_GetByID db id = Some cfg -> snd (Approve sort db id u) = Ok tt ->
  c_status cfg = StatusPendingApproval /\ c_submitted_by cfg = Some u.
Proof.
  intros Hget; unfold Approve; rewrite Hget.
  destruct (negb (status_eqb (c_status cfg) StatusPendingApproval)) eqn:Es; [discriminate|].
  apply negb_false_iff, status_eqb_true in Es.
  destruct (c_submitted_by cfg) as [sb|]; [|discriminate].
  destruct (negb (Nat.eqb sb u)) eqn:Eu; [discriminate|].
  apply negb_false_iff, Nat.eqb_eq in Eu; subst; auto.
Qed.

(** X14: after a successful approval, each proxy assigned to the configuration is served the approved row, and a poll with another hash receives its files and fingerprint. *)
Theorem Approve_then_served (sort : SortSlice) (db : DB) (id u : UUID) (cfg : Config) (p : Proxy) :
  NoDup (map c_id (configs db)) -> NoDup (map px_hostname (proxies db)) ->
  one_active_per_proxy db -> config_GetByID db id = Some cfg ->
  snd (Approve sort db id u) = Ok tt -> In p (proxies db) -> assigned db id (px_id p) ->
  GetActiveForProxy (fst (Approve sort db id u)) (px_hostname p) =
    Some {| c_id := id; c_status := StatusActive; c_submitted_by := Some u;
            c_approved_by := Some u;
            c_config_hash := Some (GenerateConfigHash sort (c_rules cfg));
            c_rules := c_rules cfg |} /\
  (forall now cur, cur <> GenerateConfigHash sort (c_rules cfg) ->
     snd (GetConfig sort (fst (Approve sort db id u)) now (px_hostname p) cur) =
       Ok {| cr_unchanged := false; cr_hash := GenerateConfigHash sort (c_rules cfg);
             cr_config := Some (GenerateConfigFiles sort (c_rules cfg));
             cr_capture_logs := capture_active p now;
             cr_capture_until := if capture_active p now then px_capture_logs_until p else None |}).
Proof.
  intros Hnd Hnh Hone Hget Hok Hp Ha.
  destruct (Approve_pending_submitter sort db id u cfg Hget Hok) as [Hpend Hsb].
  destruct (config_GetByID_id db id cfg Hget) as [Hin Hid].
  pose proof (Approve_one_active sort db id u Hone) as Hone2.
  destruct (Approve_passes sort db id u cfg Hget Hpend Hsb) as [db2 [Hr HA]].
  rewrite HA in Hone2 |- *; cbn [fst] in Hone2 |- *.
  set (H := GenerateConfigHash sort (c_rules cfg)) in *.
  set (cs := {| c_id := id; c_status := StatusActive; c_submitted_by := Some u;
                c_approved_by := Some u; c_config_hash := Some H; c_rules := c_rules cfg |}).
  assert (Hcp : config_proxies db2 = config_proxies db)
    by (rewrite (repo_Approve_proxies _ _ _ _ _ Hr); reflexivity).
  assert (Hpx : proxies db2 = proxies db).
  { revert Hr; unfold repo_Approve; destruct (existsb _ _); [|discriminate].
    intros Hr; injection Hr as <-; reflexivity. }
  assert (Hids : map c_id (configs db2) = map c_id (configs db)).
  { revert Hr; unfold repo_Approve; destruct (existsb _ _); [|discriminate].
    intros Hr; injection Hr as <-; cbn [configs set_configs].
    rewrite map_c_id_map by (intros c; destruct (_ && _); reflexivity).
    unfold DeactivateOthers; cbn [configs set_configs].
    apply map_c_id_map; intros c; destruct (_ && _); reflexivity. }
  assert (Hcs : In cs (configs db2)).
  { assert (Hd : In cfg (configs (DeactivateOthers db id)))
      by (apply DeactivateOthers_keeps_inactive; auto; rewrite Hpend; discriminate).
    revert Hr; unfold repo_Approve; destruct (existsb _ _); [|discriminate].
    intros Hr; injection Hr as <-; cbn [configs set_configs].
    apply in_map_iff; exists cfg; split; [|exact Hd].
    rewrite Hid, Nat.eqb_refl, Hpend, Hsb; reflexivity. }
  assert (Hserved : GetActiveForProxy db2 (px_hostname p) = Some cs).
  { rewrite GetActiveForProxy_serves.
    destruct (find_in_some (serves db2 (px_hostname p)) (configs db2) cs Hcs) as [y [Hy Hsy]].
    - unfold serves; cbn [c_status c_id status_eqb andb].
      apply existsb_exists; exists (id, px_id p); rewrite Hcp; split; [exact Ha|].
      cbn [fst snd]; rewrite Nat.eqb_refl; cbn [andb].
      apply existsb_exists; exists p; rewrite Hpx; split; [exact Hp|].
      rewrite Nat.eqb_refl, String.eqb_refl; reflexivity.
    - rewrite Hy; f_equal.
      apply find_some in Hy as [Hyin _].
      unfold serves in Hsy; apply andb_prop in Hsy as [Hya Hsy]; apply status_eqb_true in Hya.
      apply existsb_exists in Hsy as [cp [Hcpin Hsy]].
      apply andb_prop in Hsy as [Hfst Hsy]; apply Nat.eqb_eq in Hfst.
      apply existsb_exists in Hsy as [q [Hq Hsy]].
      apply andb_prop in Hsy as [Hqid Hqh]; apply Nat.eqb_eq in Hqid; apply String.eqb_eq in Hqh.
      rewrite Hpx in Hq.
      assert (q = p) as -> by (apply (nodup_map_eq px_hostname (proxies db)); auto).
      assert (Hyid : c_id y = id).
      { apply (Hone2 (px_id p) y cs Hyin Hcs Hya eq_refl); unfold assigned.
        - destruct cp as [c0 p0]; cbn [fst snd] in Hfst, Hqid; subst; exact Hcpin.
        - rewrite Hcp; exact Ha. }
      apply (nodup_ids_eq (configs db2));
        [rewrite Hids; exact Hnd | exact Hyin | exact Hcs | rewrite Hyid; reflexivity]. }
  split; [exact Hserved|].
  intros now cur Hcur; unfold GetConfig.
  rewrite GetByHostname_in by (rewrite ?Hpx; auto).
  unfold UpdateLastSeen at 1; rewrite GetActiveForProxy_update_proxy by reflexivity.
  rewrite Hserved; cbn [c_config_hash cs c_rules].
  replace (String.eqb H cur) with false
    by (symmetry; apply String.eqb_neq; intros E; apply Hcur; symmetry; exact E).
  rewrite andb_false_r.
  destruct (String.eqb H "") eqn:E; reflexivity.
Qed.

Lemma assignments_ok_same (db db' : DB) :
  map c_id (configs db') = map c_id (configs db) -> config_proxies db' = config_proxies db ->
  assignments_ok db -> assignments_ok db'.
Proof. intros Hc Hp H cp; rewrite Hc, Hp; apply H. Qed.

Lemma Approve_ids (sort : SortSlice) (db : DB) (id u : UUID) :
  map c_id (configs (fst (Approve sort db id u))) = map c_id (configs db) /\
  config_proxies (fst (Approve sort db id u)) = config_proxies db.
Proof.
  assert (HD : map c_id (configs (DeactivateOthers db id)) = map c_id (configs db))
    by (apply map_c_id_map; intros c; destruct (_ && _); reflexivity).
  unfold Approve.
  destruct (config_GetByID db id) as [cfg|]; [|split; reflexivity].
  destruct (negb _); [split; reflexivity|].
  destruct (c_submitted_by cfg) as [sb|]; [|split; reflexivity].
  destruct (negb _); [split; reflexivity|].
  unfold repo_Approve; destruct (existsb _ _); cbn [fst]; [|split; [exact HD | reflexivity]].
  cbn [configs set_configs config_proxies]; rewrite map_c_id_map, HD
    by (intros c; destruct (_ && _); reflexivity).
  split; reflexivity.
Qed.

Lemma step_assignments_ok (sort : SortSlice) (db db' : DB) :
  lifecycle_step sort db db' -> assignments_ok db -> assignments_ok db'.
Proof.
  intros Hs Hok; destruct Hs as [db newID u req _ | db id u req | db id newID _ | db id u | db id
                                 | db id u | db now h cur | db now newID req | db now req].
  - unfold Create; destruct (String.eqb _ _); [exact Hok|].
    destruct (validateRules req); [|exact Hok]; cbn [fst].
    intros cp Hcp; cbn [configs config_proxies] in *; rewrite map_app; apply in_or_app.
    apply in_app_or in Hcp as [Hcp | Hcp]; [left; apply Hok; exact Hcp|].
    apply in_map_iff in Hcp as [pid [<- _]]; right; left; reflexivity.
  - unfold Update; destruct (validateRules req); [|exact Hok].
    destruct (config_GetByID db id) as [cfg|] eqn:Eg; [|exact Hok].
    destruct (negb _); [exact Hok|]; cbn [fst].
    apply config_GetByID_id in Eg as [Hin Hid].
    intros cp Hcp; cbn [configs config_proxies] in *.
    rewrite map_c_id_map by (intros c; destruct (_ && _); reflexivity).
    apply in_app_or in Hcp as [Hcp | Hcp]; [apply filter_In in Hcp; apply Hok, Hcp|].
    apply in_map_iff in Hcp as [pid [<- _]]; cbn [fst]; rewrite <- Hid; apply in_map; exact Hin.
  - unfold Clone; destruct (config_GetByID db id); [|exact Hok]; cbn [fst].
    intros cp Hcp; cbn [configs config_proxies] in *; rewrite map_app; apply in_or_app.
    apply in_app_or in Hcp as [Hcp | Hcp]; [left; apply Hok; exact Hcp|].
    apply in_map_iff in Hcp as [cp0 [<- _]]; right; left; reflexivity.
  - unfold Submit, repo_Submit; destruct (existsb _ _); [|exact Hok]; cbn [fst].
    apply (assignments_ok_same db); auto; cbn [configs set_configs].
    apply map_c_id_map; intros c; destruct (_ && _); reflexivity.
  - unfold Reject, repo_Reject; destruct (existsb _ _); [|exact Hok]; cbn [fst].
    apply (assignments_ok_same db); auto; cbn [configs set_configs].
    apply map_c_id_map; intros c; destruct (_ && _); reflexivity.
  - destruct (Approve_ids sort db id u) as [H1 H2]; apply (assignments_ok_same db); auto.
  - unfold GetConfig; destruct (GetByHostname db h) as [p|]; [|exact Hok].
    destruct (GetActiveForProxy _ h) as [cfg|]; cbn [fst]; [|exact Hok].
    destruct (negb _ && _); cbn [fst]; [exact Hok|].
    destruct (String.eqb _ ""); cbn [fst]; [|exact Hok].
    apply (assignments_ok_same db); auto; unfold repo_UpdateHash; cbn [configs set_configs].
    apply map_c_id_map; intros c; destruct (Nat.eqb _ _); reflexivity.
  - apply (assignments_ok_same db); [rewrite Register_configs | apply Register_proxies |]; auto.
  - apply (assignments_ok_same db); [rewrite Ack_configs | apply Ack_proxies |]; auto.
Qed.

Lemma assignments_ok_invariant (sort : SortSlice) (db : DB) :
  reachable sort db -> assignments_ok db.
Proof.
  induction 1 as [| db db' _ IH Hs]; [intros cp []|].
  exact (step_assignments_ok sort db db' Hs IH).
Qed.

(** X15: in every reachable state each assignment row names an existing configuration. *)
Theorem reachable_assignments_ok (sort : SortSlice) (db : DB) :
  reachable sort db -> assignments_ok db.
Proof.
  induction 1 as [| db db' _ IH Hs]; [intros cp []|].
  exact (step_assignments_ok sort db db' Hs IH).
Qed.

Lemma find_skip_prefix {A} (P : A -> bool) (l1 l2 : list A) :
  (forall x, In x l1 -> P x = false) -> find P (l1 ++ l2) = find P l2.
Proof.
  induction l1 as [| x l1 IH]; intros H; [reflexivity|]; cbn [app find].
  rewrite (H x (or_introl eq_refl)); apply IH; intros y Hy; apply H; right; exact Hy.
Qed.

(** X16: a successful [Update] replaces the configuration's assignments with the request's proxy ids and leaves every other configuration's assignments as they were. *)
Theorem Update_replaces_assignments (db : DB) (id u : UUID) (req : CreateConfigRequest) :
  snd (Update db id u req) = Ok tt ->
  forall cid pid, assigned (fst (Update db id u req)) cid pid <->
    (if Nat.eqb cid id then In pid (req_proxy_ids req) else assigned db cid pid).
Proof.
  unfold Update; destruct (validateRules req); [|discriminate].
  destruct (config_GetByID db id) as [cfg|]; [|discriminate].
  destruct (negb _); [discriminate|]; intros _ cid pid; unfold assigned; cbn [fst config_proxies].
  rewrite in_app_iff, filter_In, in_map_iff; cbn [fst].
  destruct (Nat.eqb cid id) eqn:E; cbn [negb].
  - apply Nat.eqb_eq in E; subst cid; split.
    + intros [[_ H] | [pid' [H Hin]]]; [discriminate|]; injection H as ->; exact Hin.
    + intros Hin; right; exists pid; split; [reflexivity | exact Hin].
  - split.
    + intros [[H _] | [pid' [H _]]]; [exact H|]; injection H as H _.
      subst; rewrite Nat.eqb_refl in E; discriminate.
    + intros H; left; split; [exact H | reflexivity].
Qed.

Lemma ListByConfig_In (db : DB) (id : UUID) (p : Proxy) :
  In p (ListByConfig db id) <-> In p (proxies db) /\ assigned db id (px_id p).
Proof.
  unfold ListByConfig, assigned; rewrite in_flat_map; split.
  - intros [cp [Hcp Hp]]; destruct (Nat.eqb (fst cp) id) eqn:E; [|destruct Hp].
    apply filter_In in Hp as [Hp Hid]; apply Nat.eqb_eq in E, Hid.
    split; [exact Hp|]; destruct cp as [c0 p0]; cbn [fst snd] in *; subst; exact Hcp.
  - intros [Hp Ha]; exists (id, px_id p); split; [exact Ha|]; cbn [fst snd].
    rewrite Nat.eqb_refl; apply filter_In; split; [exact Hp | apply Nat.eqb_refl].
Qed.

(** X17: in a reachable state, a successful [Clone] under an unused id adds
    a draft copy of the original's rules, and the clone is assigned to
    exactly the proxies that the original is assigned to and that have a
    proxy row. *)
Theorem Clone_copies_assignments (sort : SortSlice) (db : DB) (id newID : UUID) (cfg : Config) :
  reachable sort db -> ~ In newID (map c_id (configs db)) ->
  snd (Clone db id newID) = Ok cfg ->
  (exists orig, config_GetByID db id = Some orig /\ c_rules cfg = c_rules orig) /\
  c_status cfg = StatusDraft /\
  config_GetByID (fst (Clone db id newID)) newID = Some cfg /\
  (forall pid, assigned (fst (Clone db id newID)) newID pid <->
     assigned db id pid /\ In pid (map px_id (proxies db))).
Proof.
  intros Hr Hfresh; pose proof (assignments_ok_invariant sort db Hr) as Hok.
  unfold Clone; destruct (config_GetByID db id) as [orig|] eqn:Eg; [|discriminate].
  cbn [snd fst]; intros H; injection H as <-.
  split; [exists orig; split; reflexivity|]; split; [reflexivity|]; split.
  - unfold config_GetByID; cbn [configs].
    rewrite find_skip_prefix; [cbn [find c_id]; rewrite Nat.eqb_refl; reflexivity|].
    intros c Hc; apply Nat.eqb_neq; intros E; apply Hfresh; rewrite <- E; apply in_map; exact Hc.
  - intros pid; unfold assigned at 1; cbn [config_proxies].
    rewrite in_app_iff, in_map_iff; split.
    + intros [H | [p [H Hin]]].
      * exfalso; apply Hfresh; exact (Hok _ H).
      * injection H as H; subst pid.
        apply ListByConfig_In in Hin as [Hp Ha]; split; [exact Ha | apply in_map; exact Hp].
    + intros [Ha Hp]; apply in_map_iff in Hp as [p [<- Hp]].
      right; exists p; split; [reflexivity|]; apply ListByConfig_In; split; assumption.
Qed.

(** [edge-1] with only a pending configuration is told nothing changed. *)
Lemma GetConfig_no_active_witness :
  GetByHostname (set_configs demo_db [demo_cfg2]) "edge-1" = Some demo_proxy /\
  GetActiveForProxy (set_configs demo_db [demo_cfg2]) "edge-1" = None /\
  snd (GetConfig insertion_sort (set_configs demo_db [demo_cfg2]) 200 "edge-1" "abc") =
    Ok {| cr_unchanged := true; cr_hash := ""; cr_config := None;
          cr_capture_logs := false; cr_capture_until := None |}.
Proof.
  assert (H1 : GetByHostname (set_configs demo_db [demo_cfg2]) "edge-1" = Some demo_proxy)
    by (vm_compute; reflexivity).
  assert (H2 : GetActiveForProxy (set_configs demo_db [demo_cfg2]) "edge-1" = None)
    by (vm_compute; reflexivity).
  split; [exact H1|]; split; [exact H2|].
  rewrite (GetConfig_no_active insertion_sort _ 200 "edge-1" "abc" demo_proxy H1 H2).
  reflexivity.
Defined.

(** A capture window until 500 is reported to [edge-1] at time 200. *)
Lemma capture_window_witness :
  GetByHostname demo_db (px_hostname demo_proxy) = Some demo_proxy /\
  Logs (SetCaptureLogsUntil demo_db 5 500) [] 200
       {| lr_hostname := "edge-1"; lr_lines := [{| ll_level := "info"; ll_message := "up" |}] |} =
    ([{| pl_proxy_id := 5; pl_level := "info"; pl_message := "up" |}],
     Ok {| lg_received := true; lg_continue_capture := true |}).
Proof.
  assert (H : GetByHostname demo_db (px_hostname demo_proxy) = Some demo_proxy)
    by (vm_compute; reflexivity).
  split; [exact H|].
  exact (proj2 (capture_window insertion_sort demo_db [] demo_proxy 500 200 ""
                  [{| ll_level := "info"; ll_message := "up" |}] H)).
Defined.

(** [edge-1] was last seen at 100; at 300 another host may take the name. *)
Lemma MarkOfflineStale_takeover_witness :
  exists db' r,
    Register (MarkOfflineStale demo_db 300) 301 9
      {| rr_hostname := "edge-1"; rr_config_id := ""; rr_proxy_id := "";
         rr_remote_ip := "10.0.0.50" |} = (db', Ok r) /\
    resp_proxy_id r = uuid_string 5.
Proof.
  apply (proj2 (MarkOfflineStale_takeover demo_db 300 301 9
           {| rr_hostname := "edge-1"; rr_config_id := ""; rr_proxy_id := "";
              rr_remote_ip := "10.0.0.50" |} demo_proxy 100
           ltac:(discriminate) ltac:(vm_compute; reflexivity) eq_refl eq_refl
           ltac:(vm_compute; discriminate) ltac:(vm_compute; discriminate))).
  lia.
Defined.

(** [*.example.com] is written [.example.com] and read back. *)
Lemma domain_forms_roundtrip_witness :
  domainPattern_match "*.example.com" = true /\
  domainToSNI (domainToATS "*.example.com") = "*.example.com" /\
  domainToATS "*.example.com" = ".example.com".
Proof.
  assert (H : domainPattern_match "*.example.com" = true) by (vm_compute; reflexivity).
  split; [exact H|]; split; [exact (proj1 (domain_forms_roundtrip _ H))|].
  vm_compute; reflexivity.
Defined.

(** Listing the same two domain rules in either order gives the same files. *)
Lemma GenerateConfigFiles_row_order_witness :
  GenerateConfigHash insertion_sort
    {| r_domains := two_domains; r_ip_ranges := []; r_parents := [];
       r_client_acl := default_client_acl; r_default_action := ActionDirect |} =
  GenerateConfigHash insertion_sort
    {| r_domains := rev two_domains; r_ip_ranges := []; r_parents := [];
       r_client_acl := rev default_client_acl; r_default_action := ActionDirect |}.
Proof.
  exact (proj2 (GenerateConfigFiles_row_order insertion_sort insertion_sort_contract
    {| r_domains := two_domains; r_ip_ranges := []; r_parents := [];
       r_client_acl := default_client_acl; r_default_action := ActionDirect |}
    {| r_domains := rev two_domains; r_ip_ranges := []; r_parents := [];
       r_client_acl := rev default_client_acl; r_default_action := ActionDirect |}
    (Permutation_rev _) (Permutation_refl _) (Permutation_refl _) (Permutation_rev _) eq_refl
    ltac:(vm_compute; repeat constructor; simpl; intuition discriminate) (NoDup_nil _)
    (NoDup_nil _) ltac:(vm_compute; repeat constructor; simpl; intuition discriminate))).
Defined.

(** With its only parent disabled, a configuration routes directly. *)
Lemma parent_config_no_enabled_parent_witness :
  generateParentConfig insertion_sort [] []
    [{| pp_address := "10.0.0.1"; pp_port := 3128; pp_priority := 1; pp_enabled := false |}]
    ActionParent =
  infrastructure_rules ++ write_lines (ip_range_line "") (insertion_sort _ ir_priority [])
  ++ write_lines (domain_line "") (insertion_sort _ dr_priority [])
  ++ "dest_domain=. go_direct=true" ++ nl.
Proof.
  exact (proj1 (parent_config_no_enabled_parent insertion_sort insertion_sort_contract [] []
    [{| pp_address := "10.0.0.1"; pp_port := 3128; pp_priority := 1; pp_enabled := false |}]
    ActionParent eq_refl)).
Defined.

(** [0.0.0.0] is refused, [10.0.0.9] accepted. *)
Lemma validateCIDR_bare_ipv4_witness :
  validateCIDR "0.0.0.0" "client_acl[0]" = "client_acl[0]: 0.0.0.0 is not allowed" /\
  validateCIDR "10.0.0.9" "client_acl[0]" = "".
Proof.
  split.
  - replace "0.0.0.0" with (ipv4_selector [0; 0; 0; 0]%Z) by (vm_compute; reflexivity).
    rewrite validateCIDR_bare_ipv4 by lia; reflexivity.
  - replace "10.0.0.9" with (ipv4_selector [10; 0; 0; 9]%Z) by (vm_compute; reflexivity).
    rewrite validateCIDR_bare_ipv4 by lia; reflexivity.
Defined.

(** [10.0.0.0/8] is accepted; [1.2.3.4/0] is the whole space and refused. *)
Lemma validateCIDR_ipv4_cidr_witness :
  validateCIDR "10.0.0.0/8" "ip_ranges[0]" = "" /\
  validateCIDR "1.2.3.4/0" "ip_ranges[0]" = "ip_ranges[0]: 0.0.0.0/0 is not allowed".
Proof.
  split.
  - replace "10.0.0.0/8" with (cidr_selector [10; 0; 0; 0]%Z 8) by (vm_compute; reflexivity).
    rewrite (proj1 (validateCIDR_ipv4_cidr 10 0 0 0 8 "ip_ranges[0]" ltac:(lia) ltac:(lia)
                      ltac:(lia) ltac:(lia) ltac:(lia))).
    vm_compute; reflexivity.
  - replace "1.2.3.4/0" with (cidr_selector [1; 2; 3; 4]%Z 0) by (vm_compute; reflexivity).
    exact (proj2 (validateCIDR_ipv4_cidr 1 2 3 4 0 "ip_ranges[0]" ltac:(lia) ltac:(lia)
                    ltac:(lia) ltac:(lia) ltac:(lia)) eq_refl).
Defined.

(** Configuration 2, back in draft, is submitted and approved by user 7. *)
Lemma Submit_then_Approve_witness :
  exists db1 db2, Submit draft_db 2 7 = (db1, Ok tt) /\
    Approve insertion_sort db1 2 7 = (db2, Ok tt) /\
    config_GetByID db2 2 =
      Some {| c_id := 2; c_status := StatusActive; c_submitted_by := Some 7%nat;
              c_approved_by := Some 7%nat;
              c_config_hash := Some (GenerateConfigHash insertion_sort demo_rules);
              c_rules := demo_rules |}.
Proof.
  exact (Submit_then_Approve insertion_sort draft_db 2 7 (with_status demo_cfg2 StatusDraft)
           ltac:(vm_compute; reflexivity) eq_refl).
Defined.

(** Rejecting configuration 2 blocks its approval by user 7. *)
Lemma Reject_back_to_draft_witness :
  exists db1, Reject demo_db 2 = (db1, Ok tt) /\
    Approve insertion_sort db1 2 7 = (db1, Fail ErrInvalidStatus).
Proof.
  destruct (Reject_back_to_draft insertion_sort demo_db 2 demo_cfg2
              ltac:(vm_compute; reflexivity) eq_refl) as [db1 [H1 [_ H3]]].
  exists db1; split; [exact H1 | apply H3].
Defined.

(** Creating configuration 3 for proxy 5 leaves [edge-1] on configuration 1. *)
Lemma draft_ops_keep_served_witness :
  GetActiveForProxy (fst (Create demo_db 3 7 demo_request)) "edge-1" = Some demo_cfg1.
Proof.
  rewrite (proj1 (draft_ops_keep_served demo_db "edge-1"
                    ltac:(vm_compute; repeat constructor; simpl; intuition discriminate))
             3 7 demo_request ltac:(simpl; intuition discriminate)).
  vm_compute; reflexivity.
Defined.

(** Registering [edge-1] twice leaves one row for it. *)
Lemma reachable_hostnames_unique_witness :
  NoDup (map px_hostname (proxies
    (fst (Register (fst (Register empty_db 0 5 edge_register)) 10 6 edge_register)))).
Proof.
  apply (reachable_hostnames_unique insertion_sort).
  apply (reach_step insertion_sort (fst (Register empty_db 0 5 edge_register)));
    [apply (reach_step insertion_sort empty_db); [apply reach_init|] |]; apply step_register.
Defined.

(** Approving configuration 2 makes [edge-1] receive it. *)
Lemma Approve_then_served_witness :
  GetActiveForProxy (fst (Approve insertion_sort demo_db 2 7)) (px_hostname demo_proxy) =
    Some {| c_id := 2; c_status := StatusActive; c_submitted_by := Some 7%nat;
            c_approved_by := Some 7%nat;
            c_config_hash := Some (GenerateConfigHash insertion_sort (c_rules demo_cfg2));
            c_rules := c_rules demo_cfg2 |}.
Proof.
  exact (proj1 (Approve_then_served insertion_sort demo_db 2 7 demo_cfg2 demo_proxy
    ltac:(vm_compute; repeat constructor; simpl; intuition discriminate)
    ltac:(vm_compute; repeat constructor; simpl; intuition discriminate)
    ltac:(apply one_active_per_proxy_b_sound; vm_compute; reflexivity)
    ltac:(vm_compute; reflexivity) ltac:(vm_compute; reflexivity)
    ltac:(left; reflexivity) ltac:(right; left; reflexivity))).
Defined.

Lemma created_db_reachable : reachable insertion_sort created_db.
Proof.
  apply (reach_step insertion_sort (fst (Register empty_db 0 5 edge_register)));
    [apply (reach_step insertion_sort empty_db); [apply reach_init | apply step_register]|].
  apply step_create; vm_compute; tauto.
Qed.

Lemma created_db8_reachable : reachable insertion_sort created_db8.
Proof.
  apply (reach_step insertion_sort (fst (Register empty_db 0 5 edge_register)));
    [apply (reach_step insertion_sort empty_db); [apply reach_init | apply step_register]|].
  apply step_create; vm_compute; tauto.
Qed.

(** The state after registering [edge-1] and creating configuration 1. *)
Lemma reachable_assignments_ok_witness : assignments_ok created_db.
Proof. exact (reachable_assignments_ok insertion_sort created_db created_db_reachable). Defined.

(** Moving configuration 2 from proxy 5 to proxy 6. *)
Lemma Update_replaces_assignments_witness :
  assigned (fst (Update draft_db 2 7
    {| req_name := "edge"; req_default_action := ""; req_domains := []; req_ip_ranges := [];
       req_parents := []; req_client_acl := []; req_proxy_ids := [6%nat] |})) 2 6 /\
  ~ assigned (fst (Update draft_db 2 7
    {| req_name := "edge"; req_default_action := ""; req_domains := []; req_ip_ranges := [];
       req_parents := []; req_client_acl := []; req_proxy_ids := [6%nat] |})) 2 5.
Proof.
  pose proof (Update_replaces_assignments draft_db 2 7
    {| req_name := "edge"; req_default_action := ""; req_domains := []; req_ip_ranges := [];
       req_parents := []; req_client_acl := []; req_proxy_ids := [6%nat] |}
    ltac:(vm_compute; reflexivity)) as H.
  split.
  - apply (proj2 (H 2 6)); simpl; left; reflexivity.
  - intros Ha; apply (proj1 (H 2 5)) in Ha; simpl in Ha; intuition discriminate.
Defined.

(** Configuration 1 is assigned to proxy 5 ([edge-1]) and to the id 8 of no
    proxy row; its clone 2 is assigned to proxy 5 only. *)
Lemma Clone_copies_assignments_witness :
  assigned (fst (Clone created_db8 1 2)) 2 5 /\ ~ assigned (fst (Clone created_db8 1 2)) 2 8.
Proof.
  destruct (Clone_copies_assignments insertion_sort created_db8 1 2
              (match snd (Clone created_db8 1 2) with Ok c => c | Fail _ => demo_cfg1 end)
              created_db8_reachable
              ltac:(vm_compute; intuition discriminate) ltac:(vm_compute; reflexivity))
    as [_ [_ [_ H]]].
  split.
  - apply (proj2 (H 5)); split; vm_compute; left; reflexivity.
  - intros Ha; apply (proj1 (H 8)) in Ha as [_ Hp]; vm_compute in Hp.
    intuition discriminate.
Defined.
